(** * Authenticated transports of tplink-smarthome-api: KLAP, AES and the
      SMART request layer

    A shallow embedding of [src/network/klap-connection.ts],
    [src/network/aes-connection.ts] and the SMART part of
    [src/device/index.ts], with the properties the specification states
    about them.

    Conventions of the embedding.
    - A [Buffer] is a [list byte].  A JavaScript string is a [string]; the
      conversions between text and bytes ([Buffer.from(s, 'utf8')],
      [buf.toString('utf8')], base64) belong to the Node runtime and are
      fields of the [Runtime] class below, as are the hash functions, the
      AES-128-CBC cipher, the raw RSA operation and [JSON.parse] /
      [JSON.stringify].  The hexadecimal rendering of a buffer and
      [parseInt] are written out.
    - A JavaScript number that the code uses as an integer (sequence
      numbers, status codes, error codes, seconds, milliseconds) is a [Z].
    - An exception is a value of [exn]; a function that can throw returns
      an [outcome].  Methods that read or write the fields of a connection,
      post HTTP requests or read the clock are computations in the monad
      [M], which threads the state and stops at the first exception;
      [try_catch] is the [try { } catch (error) { }] block.
    - The device at the other end, the clock and the random generator are
      scripts carried by the state: every [post] consumes the next scripted
      reply and records the request it sent. *)

From Stdlib Require Import ZArith Lia List Bool.
From Stdlib Require Import Strings.Byte Strings.String Strings.Ascii.
From stdpp Require Import base option list strings gmap pretty.

Import ListNotations.
Local Open Scope string_scope.
Local Open Scope list_scope.
Local Open Scope Z_scope.

(** ** Exceptions and outcomes *)

(** [Error] carries the fixed part of the message and the two optional
    numeric properties the transports attach to an error object
    ([statusCode], [errorCode]).  Interpolated parts of messages (host,
    port, the offending JSON) are left out. *)
Inductive exn : Type :=
| Error (message : string) (statusCode : option Z) (errorCode : option Z)
| TypeError (message : string)
| RangeError (message : string)
| SyntaxError (message : string)
| SmartError (message : string) (errorCode : Z) (method : string)
    (response request : string).

Definition plainError (message : string) : exn := Error message None None.

Inductive outcome (A : Type) : Type :=
| Ok (value : A)
| Throw (error : exn).

Arguments Ok {A} value.
Arguments Throw {A} error.

Definition is_Ok {A} (o : outcome A) : bool :=
  match o with Ok _ => true | Throw _ => false end.

#[global] Instance outcome_fmap : FMap outcome := fun A B f o =>
  match o with
  | Ok a => Ok (f a)
  | Throw e => Throw e
  end.
#[global] Instance outcome_ret : MRet outcome := fun A a => Ok a.
#[global] Instance outcome_bind : MBind outcome := fun A B f o =>
  match o with
  | Ok a => f a
  | Throw e => Throw e
  end.

(** ** Bytes and 32-bit integers *)

Definition bytes := list byte.

#[global] Instance byte_eq_decision : EqDecision byte := Byte.byte_eq_dec.

Definition Z_of_byte (b : byte) : Z := Z.of_N (Byte.to_N b).

Definition byte_of_Z (z : Z) : byte :=
  default x00 (Byte.of_N (Z.to_N (Z.land z 255))).

(** [buf.subarray(start, end)] and [buf.subarray(start)], for indices
    that are natural numbers. *)
Definition subarray (buf : bytes) (start stop : nat) : bytes :=
  take (stop - start) (drop start buf).

Definition subarray_from (buf : bytes) (start : nat) : bytes :=
  drop start buf.

Definition INT32_MIN : Z := -0x80000000.
Definition INT32_MAX : Z := 0x7fffffff.

Definition is_int32 (value : Z) : Prop := INT32_MIN <= value <= INT32_MAX.

(** The four bytes of a 32-bit two's-complement integer, most significant
    first. *)
Definition int32BE (value : Z) : bytes :=
  [ byte_of_Z (Z.shiftr value 24); byte_of_Z (Z.shiftr value 16);
    byte_of_Z (Z.shiftr value 8); byte_of_Z value ].

(** Node's [buf.writeInt32BE(value, 0)] on a fresh 4-byte buffer: a value
    outside the signed 32-bit range is a [RangeError]. *)
Definition writeInt32BE (value : Z) : outcome bytes :=
  if (value <? INT32_MIN) || (INT32_MAX <? value)
  then Throw (RangeError "ERR_OUT_OF_RANGE")
  else Ok (int32BE value).

(** Node's [buf.readInt32BE(offset)]. *)
Definition readInt32BE (buf : bytes) (offset : nat) : outcome Z :=
  match drop offset buf with
  | b0 :: b1 :: b2 :: b3 :: _ =>
      let u := Z_of_byte b0 * 16777216 + Z_of_byte b1 * 65536
               + Z_of_byte b2 * 256 + Z_of_byte b3 in
      Ok (if 0x7fffffff <? u then u - 0x100000000 else u)
  | _ => Throw (RangeError "ERR_OUT_OF_RANGE")
  end.

(** [toSignedInt32], [incrementSignedInt32] and [signedInt32Buffer] of
    klap-connection.ts. *)
Definition toSignedInt32 (value : Z) : Z :=
  if 0x7fffffff <? value then value - 0x100000000 else value.

Definition incrementSignedInt32 (value : Z) : Z :=
  if 0x7fffffff <=? value then -0x80000000 else value + 1.

Definition signedInt32Buffer (value : Z) : outcome bytes :=
  writeInt32BE (toSignedInt32 value).

(** ** Strings *)

(** [s.split(sep)] for a one-character separator: never the empty list. *)
Fixpoint split_on (sep : ascii) (s : string) : list string :=
  match s with
  | EmptyString => [EmptyString]
  | String c rest =>
      if decide (c = sep) then EmptyString :: split_on sep rest
      else match split_on sep rest with
           | piece :: pieces => String c piece :: pieces
           | [] => [String c EmptyString]
           end
  end.

Definition is_digit (c : ascii) : bool :=
  let n := nat_of_ascii c in (48 <=? n)%nat && (n <=? 57)%nat.

Definition digit_value (c : ascii) : Z := Z.of_nat (nat_of_ascii c) - 48.

(** The white space [parseInt] skips, restricted to the ASCII range. *)
Definition is_space (c : ascii) : bool :=
  let n := nat_of_ascii c in
  (n =? 32)%nat || ((9 <=? n)%nat && (n <=? 13)%nat).

Fixpoint skip_spaces (s : string) : string :=
  match s with
  | String c rest => if is_space c then skip_spaces rest else s
  | EmptyString => s
  end.

(** The value of the longest prefix of decimal digits, [None] when there
    is no digit. *)
Fixpoint leading_digits (s : string) (acc : option Z) : option Z :=
  match s with
  | String c rest =>
      if is_digit c
      then leading_digits rest (Some (10 * default 0 acc + digit_value c))
      else acc
  | EmptyString => acc
  end.

(** JavaScript's [parseInt(s, 10)]; [None] is [NaN].  Exact as long as the
    digits denote an integer a double holds exactly. *)
Definition parseInt (s : string) : option Z :=
  match skip_spaces s with
  | String "-" rest => Z.opp <$> leading_digits rest None
  | String "+" rest => leading_digits rest None
  | rest => leading_digits rest None
  end.

(** [buf.toString('hex')]: two lower-case digits per byte. *)
Definition hex_digit (n : Z) : ascii :=
  ascii_of_nat (Z.to_nat (if n <? 10 then 48 + n else 87 + n)).

Definition hex_of_byte (b : byte) : string :=
  String (hex_digit (Z.shiftr (Z_of_byte b) 4))
    (String (hex_digit (Z.land (Z_of_byte b) 15)) EmptyString).

Fixpoint toString_hex (buf : bytes) : string :=
  match buf with
  | [] => EmptyString
  | b :: rest => hex_of_byte b +:+ toString_hex rest
  end.

(** The value of a hexadecimal digit and the byte two digits denote: the
    inverse of [hex_of_byte]. *)
Definition hex_value (c : ascii) : Z :=
  let n := Z.of_nat (nat_of_ascii c) in
  if n <? 58 then n - 48 else n - 87.

Definition byte_of_hex (s : string) : byte :=
  match s with
  | String hi (String lo _) => byte_of_Z (16 * hex_value hi + hex_value lo)
  | _ => x00
  end.

(** ** JavaScript values *)

(** The values [JSON.parse] produces, and [undefined].  An object is the
    list of its own properties in insertion order; property names are
    assumed to be ordinary names (not ["__proto__"]).  Numbers are
    restricted to integers. *)
#[warnings="-register-all"]
Inductive jsval : Type :=
| JUndefined
| JNull
| JBool (b : bool)
| JNum (n : Z)
| JStr (s : string)
| JArr (items : list jsval)
| JObj (props : list (string * jsval)).

Fixpoint assoc_get (props : list (string * jsval)) (name : string)
  : option jsval :=
  match props with
  | [] => None
  | (k, v) :: rest => if decide (k = name) then Some v else assoc_get rest name
  end.

(** [obj[name] = v] on an object: an existing property keeps its place. *)
Fixpoint assoc_set (props : list (string * jsval)) (name : string) (v : jsval)
  : list (string * jsval) :=
  match props with
  | [] => [(name, v)]
  | (k, w) :: rest =>
      if decide (k = name) then (k, v) :: rest
      else (k, w) :: assoc_set rest name v
  end.

(** [typeof v === 'object' && v !== null] *)
Definition isObjectLike (v : jsval) : bool :=
  match v with
  | JArr _ | JObj _ => true
  | _ => false
  end.

(** [v.name] for a value that is object-like or a primitive without that
    property; the names read by the code are never array indices or
    [length]. *)
Definition get_prop (v : jsval) (name : string) : jsval :=
  match v with
  | JObj props => default JUndefined (assoc_get props name)
  | _ => JUndefined
  end.

(** [name in v] for an object-like [v]. *)
Definition has_prop (v : jsval) (name : string) : bool :=
  match v with
  | JObj props => bool_decide (is_Some (assoc_get props name))
  | _ => false
  end.

Definition is_number (v : jsval) : bool :=
  match v with JNum _ => true | _ => false end.


(** [{ ...(v !== undefined ? { name: v } : {}) }] *)
Definition optional_prop (name : string) (v : jsval) : list (string * jsval) :=
  match v with
  | JUndefined => []
  | _ => [(name, v)]
  end.

(** ** The Node runtime *)

(** What the transports take from Node's [crypto], [Buffer] and [JSON].
    The cipher functions stand for [createCipheriv('aes-128-cbc', key,
    iv)] followed by [update] and [final] (PKCS#7 padding included);
    [rsa_decrypt_raw] is [privateDecrypt] with [RSA_NO_PADDING].  [None]
    is the failure of the operation: a key or IV of the wrong size, bad
    padding, an undecodable key, text that is not JSON. *)
Class Runtime : Type := {
  sha256 : bytes -> bytes;
  sha1 : bytes -> bytes;
  md5 : bytes -> bytes;
  aes_encrypt : bytes -> bytes -> bytes -> option bytes;
  aes_decrypt : bytes -> bytes -> bytes -> option bytes;
  rsa_decrypt_raw : string -> bytes -> option bytes;
  from_utf8 : string -> bytes;
  toString_utf8 : bytes -> string;
  from_base64 : string -> bytes;
  toString_base64 : bytes -> string;
  json_parse : string -> option jsval;
  JSON_stringify : jsval -> string;
  encodeURIComponent : string -> string;
}.

(** The facts about the runtime that the round-trip properties rest on. *)
Record RuntimeLaws `{Runtime} : Prop := {
  sha256_length : forall payload, length (sha256 payload) = 32%nat;
  aes_encrypt_defined : forall key iv plain,
    length key = 16%nat -> length iv = 16%nat ->
    is_Some (aes_encrypt key iv plain);
  aes_decrypt_encrypt : forall key iv plain cipher,
    aes_encrypt key iv plain = Some cipher ->
    aes_decrypt key iv cipher = Some plain;
  utf8_round_trip : forall text, toString_utf8 (from_utf8 text) = text;
}.

(** The exceptions of the runtime: errors of the crypto library and the
    [SyntaxError] of [JSON.parse]; none has a [statusCode] or an
    [errorCode]. *)
Definition or_throw {A} (error : exn) (result : option A) : outcome A :=
  match result with
  | Some value => Ok value
  | None => Throw error
  end.

Definition aes_128_cbc_encrypt `{Runtime} (key iv plain : bytes)
  : outcome bytes :=
  or_throw (plainError "aes-128-cbc: encryption failed")
    (aes_encrypt key iv plain).

Definition aes_128_cbc_decrypt `{Runtime} (key iv cipher : bytes)
  : outcome bytes :=
  or_throw (plainError "aes-128-cbc: decryption failed")
    (aes_decrypt key iv cipher).

Definition privateDecrypt_raw `{Runtime} (pem : string) (cipher : bytes)
  : outcome bytes :=
  or_throw (plainError "rsa: decryption failed") (rsa_decrypt_raw pem cipher).

Definition JSON_parse `{Runtime} (text : string) : outcome jsval :=
  or_throw (SyntaxError "JSON.parse") (json_parse text).

(** ** The state-and-exception monad *)

Definition M (St A : Type) : Type := St -> outcome A * St.

#[global] Instance M_ret {St} : MRet (M St) := fun A a st => (Ok a, st).
#[global] Instance M_bind {St} : MBind (M St) := fun A B f m st =>
  match m st with
  | (Ok a, st') => f a st'
  | (Throw e, st') => (Throw e, st')
  end.

Definition throw {St A} (e : exn) : M St A := fun st => (Throw e, st).

Definition lift {St A} (o : outcome A) : M St A := fun st => (o, st).

Definition gets {St A} (f : St -> A) : M St A := fun st => (Ok (f st), st).

Definition modify {St} (f : St -> St) : M St unit := fun st => (Ok tt, f st).

(** [try { body } catch (error) { handler(error) }] *)
Definition try_catch {St A} (body : M St A) (handler : exn -> M St A)
  : M St A := fun st =>
  match body st with
  | (Ok a, st') => (Ok a, st')
  | (Throw e, st') => handler e st'
  end.

(** What a posted request meets: a response of the device, or a failure
    of the connection (refused, reset, timed out), which rejects the promise
    with an ordinary [Error] that has no [statusCode]. *)
Inductive reply (A : Type) : Type :=
| Response (response : A)
| Failure (message : string).

Arguments Response {A} response.
Arguments Failure {A} message.

(** ** Cookies and session expiry, common to both transports *)

Definition ONE_DAY_SECONDS : Z := 86400.
Definition SESSION_EXPIRE_BUFFER_SECONDS : Z := 60 * 20.
Definition SESSION_COOKIE_NAME : string := "TP_SESSIONID".
Definition SESSION_COOKIE_NAME_FALLBACK : string := "SESSIONID".
Definition TIMEOUT_COOKIE_NAME : string := "TIMEOUT".

(** The [set-cookie] entry of [IncomingHttpHeaders]. *)
Inductive set_cookie_header : Type :=
| NoSetCookie
| OneSetCookie (cookie : string)
| SetCookies (cookies : list string).

Definition parseSetCookie (header : set_cookie_header) : list string :=
  match header with
  | NoSetCookie => []
  | SetCookies cookies => cookies
  | OneSetCookie cookie => [cookie]
  end.

Fixpoint getCookieValue (cookies : list string) (name : string)
  : option string :=
  match cookies with
  | [] => None
  | cookie :: rest =>
      match split_on ";" cookie with
      | firstEntry :: _ =>
          match split_on "=" firstEntry with
          | cookieName :: cookieValue :: _ =>
              if decide (cookieName = name) then Some cookieValue
              else getCookieValue rest name
          | _ => getCookieValue rest name
          end
      | [] => getCookieValue rest name
      end
  end.

(** [timeoutCookie !== undefined ? parseInt(timeoutCookie, 10) :
    ONE_DAY_SECONDS]; [None] is [NaN]. *)
Definition timeoutSeconds_of (timeoutCookie : option string) : option Z :=
  match timeoutCookie with
  | Some text => parseInt text
  | None => Some ONE_DAY_SECONDS
  end.

(** [Math.max(1, (Number.isNaN(timeoutSeconds) ? ONE_DAY_SECONDS :
    timeoutSeconds) - SESSION_EXPIRE_BUFFER_SECONDS)] *)
Definition adjustedSessionSeconds (timeoutSeconds : option Z) : Z :=
  Z.max 1 (default ONE_DAY_SECONDS timeoutSeconds
           - SESSION_EXPIRE_BUFFER_SECONDS).

(** [Credentials] of credentials.ts. *)
Module Creds.
Record Credentials : Type := {
  username : string;
  password : string;
}.
End Creds.

Abbreviation Credentials := Creds.Credentials.

(** * KLAP transport (klap-connection.ts) *)

Module Klap.
Section WithRuntime.
Context `{RT : Runtime}.

Inductive KlapHashVersion : Type := v1 | v2.

#[global] Instance KlapHashVersion_eq_dec : EqDecision KlapHashVersion.
Proof. solve_decision. Defined.

Definition version_name (version : KlapHashVersion) : string :=
  match version with v1 => "v1" | v2 => "v2" end.

Record KlapAuthCandidate : Type := {
  label : string;
  version : KlapHashVersion;
  authHash : bytes;
}.

Record KlapHttpResponse : Type := {
  statusCode : Z;
  body : bytes;
  headers : set_cookie_header;
}.

Record KlapRequestOptions : Type := {
  query : option (list (string * Z));
  cookie : option string;
}.

Record KlapEncryptionSession : Type := {
  key : bytes;
  ivPrefix : bytes;
  signaturePrefix : bytes;
  sequence : Z;
}.

Definition KLAP_PROTOCOL_PATH : string := "/app".
Definition SIGNATURE_LENGTH : nat := 32.

Definition DEFAULT_CREDENTIALS_BASE64 : list (string * (string * string)) :=
  [ ("KASA", ("a2FzYUB0cC1saW5rLm5ldA==", "a2FzYVNldHVw"));
    ("TAPO", ("dGVzdEB0cC1saW5rLm5ldA==", "dGVzdA==")) ].

Definition decodeBase64 (value : string) : string :=
  toString_utf8 (from_base64 value).

Definition createKlapEncryptionSession (localSeed remoteSeed authHash : bytes)
  : outcome KlapEncryptionSession :=
  let key := subarray
    (sha256 (from_utf8 "lsk" ++ localSeed ++ remoteSeed ++ authHash)) 0 16 in
  let fullIv :=
    sha256 (from_utf8 "iv" ++ localSeed ++ remoteSeed ++ authHash) in
  let ivPrefix := subarray fullIv 0 12 in
  sequence ← readInt32BE fullIv (length fullIv - 4);
  let signaturePrefix := subarray
    (sha256 (from_utf8 "ldk" ++ localSeed ++ remoteSeed ++ authHash)) 0 28 in
  Ok {| key := key; ivPrefix := ivPrefix;
        signaturePrefix := signaturePrefix; sequence := sequence |}.

(** The pair [{ payload, seq }] that [encryptKlapPayload] returns. *)
Record KlapEncrypted : Type := {
  enc_payload : bytes;
  enc_seq : Z;
}.

Definition encryptKlapPayload (session : KlapEncryptionSession)
  (message : string) : outcome KlapEncrypted :=
  let sequence := incrementSignedInt32 session.(sequence) in
  seqBuffer ← signedInt32Buffer sequence;
  let iv := session.(ivPrefix) ++ seqBuffer in
  ciphertext ← aes_128_cbc_encrypt session.(key) iv (from_utf8 message);
  let signature :=
    sha256 (session.(signaturePrefix) ++ seqBuffer ++ ciphertext) in
  Ok {| enc_payload := signature ++ ciphertext; enc_seq := sequence |}.

Definition decryptKlapPayload (session : KlapEncryptionSession)
  (message : bytes) (seq : Z) : outcome string :=
  if (length message <? SIGNATURE_LENGTH)%nat
  then Throw (plainError "KLAP response payload is too short")
  else
    seqBuffer ← signedInt32Buffer seq;
    let iv := session.(ivPrefix) ++ seqBuffer in
    plaintext ← aes_128_cbc_decrypt session.(key) iv
                  (subarray_from message SIGNATURE_LENGTH);
    Ok (toString_utf8 plaintext).

(** *** The connection object *)

Record KlapRequest : Type := {
  req_path : string;
  req_data : bytes;
  req_options : KlapRequestOptions;
}.

(** The fields of a [KlapConnection] that change, followed by the
    environment: the requests posted so far (oldest first), the replies the
    device will give, the clock
    read by [Date.now()] and the source of [randomBytes]. *)
Record State : Type := {
  session : option KlapEncryptionSession;
  sessionCookie : option string;
  sessionExpiresAt : Z;
  requests : list KlapRequest;
  replies : list (reply KlapHttpResponse);
  clock : nat -> Z;
  ticks : nat;
  entropy : nat -> bytes;
  draws : nat;
}.

(** The read-only fields set by the constructor. *)
Record Options : Type := {
  credentials : option Credentials;
  credentialsHash : option string;
}.

Definition Date_now : M State Z := fun st =>
  (Ok (st.(clock) st.(ticks)),
   {| session := st.(session); sessionCookie := st.(sessionCookie);
      sessionExpiresAt := st.(sessionExpiresAt);
      requests := st.(requests); replies := st.(replies);
      clock := st.(clock); ticks := S st.(ticks);
      entropy := st.(entropy); draws := st.(draws) |}).

Definition randomBytes (size : nat) : M State bytes := fun st =>
  (Ok (resize size x00 (st.(entropy) st.(draws))),
   {| session := st.(session); sessionCookie := st.(sessionCookie);
      sessionExpiresAt := st.(sessionExpiresAt);
      requests := st.(requests); replies := st.(replies);
      clock := st.(clock); ticks := st.(ticks);
      entropy := st.(entropy); draws := S st.(draws) |}).

Definition set_session_fields (session : option KlapEncryptionSession)
  (sessionCookie : option string) (sessionExpiresAt : Z) (st : State)
  : State :=
  {| session := session; sessionCookie := sessionCookie;
     sessionExpiresAt := sessionExpiresAt;
     requests := st.(requests); replies := st.(replies);
     clock := st.(clock); ticks := st.(ticks);
     entropy := st.(entropy); draws := st.(draws) |}.

Definition resetSession : M State unit :=
  modify (set_session_fields None None 0).

Definition isSessionExpired : M State bool :=
  expiresAt ← gets sessionExpiresAt;
  if decide (expiresAt = 0) then mret true
  else now ← Date_now; mret (expiresAt <=? now).

(** *** Authentication candidates *)

Definition authHashV1 (credentials : Credentials) : bytes :=
  md5 (md5 (from_utf8 credentials.(Creds.username))
       ++ md5 (from_utf8 credentials.(Creds.password))).

Definition authHashV2 (credentials : Credentials) : bytes :=
  sha256 (sha1 (from_utf8 credentials.(Creds.username))
          ++ sha1 (from_utf8 credentials.(Creds.password))).

(** The local [candidates] array and [seen] set of [buildAuthCandidates]. *)
Definition candidate_acc : Type := list KlapAuthCandidate * gset string.

Definition candidate_key (version : KlapHashVersion) (authHash : bytes)
  : string :=
  version_name version +:+ ":" +:+ toString_hex authHash.

Definition addCandidate (label : string) (version : KlapHashVersion)
  (authHash : bytes) (acc : candidate_acc) : candidate_acc :=
  let key := candidate_key version authHash in
  if decide (key ∈ acc.2) then acc
  else (acc.1 ++ [ {| label := label; version := version;
                      authHash := authHash |} ],
        {[ key ]} ∪ acc.2).

Definition addCredentialPair (label : string) (creds : Credentials)
  (acc : candidate_acc) : candidate_acc :=
  addCandidate label v1 (authHashV1 creds)
    (addCandidate label v2 (authHashV2 creds) acc).

Definition buildAuthCandidates (this : Options)
  : outcome (list KlapAuthCandidate) :=
  acc ← match this.(credentialsHash) with
        | Some hash =>
            let decodedHash := from_base64 hash in
            if decide (length decodedHash = 0%nat)
            then Throw (TypeError
              "credentialsHash must be a valid base64 encoded KLAP auth hash")
            else Ok (addCandidate "credentialsHash" v1 decodedHash
                       (addCandidate "credentialsHash" v2 decodedHash
                          ([], ∅)))
        | None => Ok ([], ∅)
        end;
  let acc :=
    match this.(credentials) with
    | Some creds => addCredentialPair "credentials" creds acc
    | None => acc
    end in
  let acc :=
    foldl (fun acc defaultCredential =>
             addCredentialPair defaultCredential.1
               {| Creds.username := decodeBase64 defaultCredential.2.1;
                  Creds.password := decodeBase64 defaultCredential.2.2 |}
               acc)
          acc DEFAULT_CREDENTIALS_BASE64 in
  let acc := addCredentialPair "blank"
               {| Creds.username := EmptyString;
                  Creds.password := EmptyString |} acc in
  Ok acc.1.

Definition handshake1SeedAuthHash (localSeed remoteSeed authHash : bytes)
  (version : KlapHashVersion) : bytes :=
  match version with
  | v1 => sha256 (localSeed ++ authHash)
  | v2 => sha256 (localSeed ++ remoteSeed ++ authHash)
  end.

Definition handshake2SeedAuthHash (localSeed remoteSeed authHash : bytes)
  (version : KlapHashVersion) : bytes :=
  match version with
  | v1 => sha256 (remoteSeed ++ authHash)
  | v2 => sha256 (remoteSeed ++ localSeed ++ authHash)
  end.

(** The [for (const candidate of ...)] loop of [selectAuthCandidate]. *)
Fixpoint selectAuthCandidate_loop (candidates : list KlapAuthCandidate)
  (localSeed remoteSeed serverHash : bytes) : outcome KlapAuthCandidate :=
  match candidates with
  | [] => Throw (plainError "authentication failed (challenge mismatch)")
  | candidate :: rest =>
      let challenge := handshake1SeedAuthHash localSeed remoteSeed
                         candidate.(authHash) candidate.(version) in
      if decide (challenge = serverHash) then Ok candidate
      else selectAuthCandidate_loop rest localSeed remoteSeed serverHash
  end.

Definition selectAuthCandidate (this : Options)
  (localSeed remoteSeed serverHash : bytes) : outcome KlapAuthCandidate :=
  candidates ← buildAuthCandidates this;
  selectAuthCandidate_loop candidates localSeed remoteSeed serverHash.

(** *** The candidate list as the specification words it

    Used only to state that [buildAuthCandidates] and
    [selectAuthCandidate] refine it. *)

Definition candidate_pair (label : string) (hashV2 hashV1 : bytes)
  : list KlapAuthCandidate :=
  [ {| label := label; version := v2; authHash := hashV2 |};
    {| label := label; version := v1; authHash := hashV1 |} ].

Definition credential_pair (label : string) (creds : Credentials)
  : list KlapAuthCandidate :=
  candidate_pair label (authHashV2 creds) (authHashV1 creds).

Definition kasa_defaults : Credentials :=
  {| Creds.username := decodeBase64 "a2FzYUB0cC1saW5rLm5ldA==";
     Creds.password := decodeBase64 "a2FzYVNldHVw" |}.

Definition tapo_defaults : Credentials :=
  {| Creds.username := decodeBase64 "dGVzdEB0cC1saW5rLm5ldA==";
     Creds.password := decodeBase64 "dGVzdA==" |}.

(** user hash (v2, v1); user credentials (v2, v1); KASA defaults (v2, v1);
    TAPO defaults (v2, v1); blank (v2, v1) *)
Definition candidate_order (this : Options) : list KlapAuthCandidate :=
  match this.(credentialsHash) with
  | Some hash =>
      candidate_pair "credentialsHash" (from_base64 hash) (from_base64 hash)
  | None => []
  end
  ++ match this.(credentials) with
     | Some creds => credential_pair "credentials" creds
     | None => []
     end
  ++ credential_pair "KASA" kasa_defaults
  ++ credential_pair "TAPO" tapo_defaults
  ++ credential_pair "blank" {| Creds.username := EmptyString;
                  Creds.password := EmptyString |}.

(** Keeps a candidate unless an earlier one has the same version and
    hash. *)
Fixpoint dedup_from (seen : list (KlapHashVersion * bytes))
  (candidates : list KlapAuthCandidate) : list KlapAuthCandidate :=
  match candidates with
  | [] => []
  | candidate :: rest =>
      let k := (candidate.(version), candidate.(authHash)) in
      if decide (k ∈ seen) then dedup_from seen rest
      else candidate :: dedup_from (k :: seen) rest
  end.

Definition dedup_by_version_hash (candidates : list KlapAuthCandidate)
  : list KlapAuthCandidate :=
  dedup_from [] candidates.

(** v2: sha256(localSeed ‖ remoteSeed ‖ authHash);
    v1: sha256(localSeed ‖ authHash) *)
Definition challenge_of (localSeed remoteSeed : bytes)
  (candidate : KlapAuthCandidate) : bytes :=
  match candidate.(version) with
  | v2 => sha256 (localSeed ++ remoteSeed ++ candidate.(authHash))
  | v1 => sha256 (localSeed ++ candidate.(authHash))
  end.

(** *** Requests *)

(** [post]: the request is recorded (path and query separately) and the
    next scripted reply is its result; an exhausted script is a refused
    connection.  The [timeout] only arms a timer whose expiry is one of the
    scripted errors. *)
Definition post (path : string) (data : bytes) (timeout : Z)
  (options : KlapRequestOptions) : M State KlapHttpResponse := fun st =>
  let sent := st.(requests) ++ [ {| req_path := path; req_data := data;
                                    req_options := options |} ] in
  let next rest :=
    {| session := st.(session); sessionCookie := st.(sessionCookie);
       sessionExpiresAt := st.(sessionExpiresAt);
       requests := sent; replies := rest;
       clock := st.(clock); ticks := st.(ticks);
       entropy := st.(entropy); draws := st.(draws) |} in
  match st.(replies) with
  | Response response :: rest => (Ok response, next rest)
  | Failure message :: rest => (Throw (plainError message), next rest)
  | [] => (Throw (plainError "connect ECONNREFUSED"), next [])
  end.

Definition no_options : KlapRequestOptions :=
  {| query := None; cookie := None |}.

Definition ensureSession (this : Options) (timeout : Z) : M State unit :=
  current ← gets session;
  live ← match current with
         | Some _ => expired ← isSessionExpired; mret (negb expired)
         | None => mret false
         end;
  if live : bool then mret tt
  else
    resetSession;;
    localSeed ← randomBytes 16;
    handshake1Response ←
      post (KLAP_PROTOCOL_PATH +:+ "/handshake1") localSeed timeout no_options;
    if decide (handshake1Response.(statusCode) ≠ 200)
    then throw (plainError "handshake1 failed with status")
    else
      let responseData := handshake1Response.(body) in
      if (length responseData <? 48)%nat
      then throw (plainError "handshake1 response is invalid")
      else
        let remoteSeed := subarray responseData 0 16 in
        let serverHash := subarray_from responseData 16 in
        if decide (length serverHash ≠ 32%nat)
        then throw (plainError "handshake1 hash length is invalid")
        else
          matchedCandidate ←
            lift (selectAuthCandidate this localSeed remoteSeed serverHash);
          let handshake2Payload :=
            handshake2SeedAuthHash localSeed remoteSeed
              matchedCandidate.(authHash) matchedCandidate.(version) in
          let setCookies := parseSetCookie handshake1Response.(headers) in
          let timeoutCookie := getCookieValue setCookies TIMEOUT_COOKIE_NAME in
          let timeoutSeconds := timeoutSeconds_of timeoutCookie in
          let sessionId := getCookieValue setCookies SESSION_COOKIE_NAME in
          let cookieHeader :=
            (fun id => SESSION_COOKIE_NAME +:+ "=" +:+ id) <$> sessionId in
          handshake2Response ←
            post (KLAP_PROTOCOL_PATH +:+ "/handshake2") handshake2Payload
              timeout {| query := None; cookie := cookieHeader |};
          if decide (handshake2Response.(statusCode) ≠ 200)
          then throw (plainError "handshake2 failed with status")
          else
            let adjusted := adjustedSessionSeconds timeoutSeconds in
            newSession ← lift (createKlapEncryptionSession localSeed
                                 remoteSeed matchedCandidate.(authHash));
            now ← Date_now;
            modify (set_session_fields (Some newSession) cookieHeader
                      (now + adjusted * 1000)).

Definition set_sequence (session : KlapEncryptionSession) (sequence : Z)
  : KlapEncryptionSession :=
  {| key := session.(key); ivPrefix := session.(ivPrefix);
     signaturePrefix := session.(signaturePrefix); sequence := sequence |}.

(** [this.session] is read once: nothing else runs between the request
    and its response, the queue admits one [send] at a time. *)
Definition sendEncryptedRequest (payload : string) (timeout : Z)
  : M State string :=
  current ← gets session;
  match current with
  | None => throw (plainError "session is not initialized")
  | Some session =>
      encrypted ← lift (encryptKlapPayload session payload);
      let session := set_sequence session encrypted.(enc_seq) in
      st ← gets id;
      modify (set_session_fields (Some session) st.(sessionCookie)
                st.(sessionExpiresAt));;
      requestResponse ←
        post (KLAP_PROTOCOL_PATH +:+ "/request") encrypted.(enc_payload) timeout
          {| query := Some [("seq", encrypted.(enc_seq))];
             cookie := st.(sessionCookie) |};
      if decide (requestResponse.(statusCode) = 403)
      then throw (Error "request rejected by device security policy"
                    (Some 403) None)
      else if decide (requestResponse.(statusCode) ≠ 200)
      then throw (plainError "request failed with status")
      else lift (decryptKlapPayload session requestResponse.(body)
                   encrypted.(enc_seq))
  end.

(** [typeof error.statusCode === 'number' ? error.statusCode : undefined] *)
Definition error_statusCode (error : exn) : option Z :=
  match error with
  | Error _ statusCode _ => statusCode
  | _ => None
  end.

(** The body that [send] puts on the queue. *)
Definition send (this : Options) (payload : string) (timeout : Z)
  : M State string :=
  try_catch
    (ensureSession this timeout;;
     sendEncryptedRequest payload timeout)
    (fun error =>
       if decide (error_statusCode error = Some 403)
       then
         resetSession;;
         ensureSession this timeout;;
         sendEncryptedRequest payload timeout
       else throw error).

Definition close : M State unit := resetSession.

(** The number of requests posted to the data path so far. *)
Definition data_posts (st : State) : nat :=
  length (filter (fun request => request.(req_path) = "/app/request")
            st.(requests)).

(** The string set [seen] holds exactly the keys of the pairs in [pairs]. *)
Definition seen_agrees (seen : gset string)
  (pairs : list (KlapHashVersion * bytes)) : Prop :=
  forall version hash,
    candidate_key version hash ∈ seen <-> (version, hash) ∈ pairs.

End WithRuntime.
End Klap.

(** * AES transport (aes-connection.ts) *)

Module Aes.
Section WithRuntime.
Context `{RT : Runtime}.

Record AesHttpResponse : Type := {
  statusCode : Z;
  body : string;
  headers : set_cookie_header;
}.

Record AesRequestOptions : Type := {
  opt_headers : list (string * string);
  cookie : option string;
}.

Record AesEncryptionSession : Type := {
  key : bytes;
  iv : bytes;
}.

Record AesLoginParams : Type := {
  username : string;
  password : option string;
  password2 : option string;
}.

Record AesLoginCandidate : Type := {
  label : string;
  params : AesLoginParams;
}.

Definition AES_PROTOCOL_PATH : string := "/app".

Definition AES_AUTH_ERROR_CODES : gset Z :=
  {[ -1501; 1111; -1005; 1100; 1003; -40412 ]}.

Definition DEFAULT_TAPO_CREDENTIAL_BASE64 : string * string :=
  ("dGVzdEB0cC1saW5rLm5ldA==", "dGVzdA==").

Definition decodeBase64 (value : string) : string :=
  toString_utf8 (from_base64 value).

Definition sha1Hex (payload : string) : string :=
  toString_hex (sha1 (from_utf8 payload)).

Definition base64EncodeString (payload : string) : string :=
  toString_base64 (from_utf8 payload).

Definition encryptAesPayload (session : AesEncryptionSession)
  (payload : string) : outcome string :=
  encrypted ← aes_128_cbc_encrypt session.(key) session.(iv)
                (from_utf8 payload);
  Ok (toString_base64 encrypted).

Definition decryptAesPayload (session : AesEncryptionSession)
  (payload : string) : outcome string :=
  decrypted ← aes_128_cbc_decrypt session.(key) session.(iv)
                (from_base64 payload);
  Ok (toString_utf8 decrypted).

(** The [for] loop of [decryptPkcs1v15], entered at [index]: the index of
    the first zero byte, [-1] when there is none. *)
Fixpoint separatorIndex_from (rest : bytes) (index : Z) : Z :=
  match rest with
  | [] => -1
  | b :: rest' =>
      if decide (b = x00) then index
      else separatorIndex_from rest' (index + 1)
  end.

Definition decryptPkcs1v15 (privateKeyPem : string)
  (encryptedPayload : bytes) : outcome bytes :=
  decryptedBlock ← privateDecrypt_raw privateKeyPem encryptedPayload;
  if (length decryptedBlock <? 11)%nat
  then Throw (plainError "PKCS#1 block too short")
  else if negb (bool_decide (decryptedBlock !! 0%nat = Some x00))
          || negb (bool_decide (decryptedBlock !! 1%nat = Some x02))
  then Throw (plainError "Invalid PKCS#1 block prefix")
  else
    let separatorIndex := separatorIndex_from (drop 2 decryptedBlock) 2 in
    if separatorIndex <? 10
    then Throw (plainError "Invalid PKCS#1 padding length")
    else Ok (subarray_from decryptedBlock (Z.to_nat (separatorIndex + 1))).

(** *** The connection object *)

Record AesRequest : Type := {
  req_path : string;
  req_data : string;
  req_options : AesRequestOptions;
}.

(** The fields of an [AesConnection] that change, followed by the
    environment: the requests posted so far (oldest first), the replies the
    device will give, the clock read by [Date.now()] and the key pairs
    (public, private) that [generateKeyPairSync] will produce. *)
Record State : Type := {
  session : option AesEncryptionSession;
  sessionCookie : option string;
  sessionExpiresAt : Z;
  token : option string;
  requests : list AesRequest;
  replies : list (reply AesHttpResponse);
  clock : nat -> Z;
  ticks : nat;
  keypairs : nat -> string * string;
  draws : nat;
}.

(** The read-only fields set by the constructor. *)
Record Options : Type := {
  credentials : option Credentials;
  credentialsHash : option string;
}.

Definition Date_now : M State Z := fun st =>
  (Ok (st.(clock) st.(ticks)),
   {| session := st.(session); sessionCookie := st.(sessionCookie);
      sessionExpiresAt := st.(sessionExpiresAt); token := st.(token);
      requests := st.(requests); replies := st.(replies);
      clock := st.(clock); ticks := S st.(ticks);
      keypairs := st.(keypairs); draws := st.(draws) |}).

Definition generateKeyPairSync : M State (string * string) := fun st =>
  (Ok (st.(keypairs) st.(draws)),
   {| session := st.(session); sessionCookie := st.(sessionCookie);
      sessionExpiresAt := st.(sessionExpiresAt); token := st.(token);
      requests := st.(requests); replies := st.(replies);
      clock := st.(clock); ticks := st.(ticks);
      keypairs := st.(keypairs); draws := S st.(draws) |}).

Definition set_session_fields (session : option AesEncryptionSession)
  (sessionCookie : option string) (sessionExpiresAt : Z)
  (token : option string) (st : State) : State :=
  {| session := session; sessionCookie := sessionCookie;
     sessionExpiresAt := sessionExpiresAt; token := token;
     requests := st.(requests); replies := st.(replies);
     clock := st.(clock); ticks := st.(ticks);
     keypairs := st.(keypairs); draws := st.(draws) |}.

Definition resetSession : M State unit :=
  modify (set_session_fields None None 0 None).

Definition isSessionExpired : M State bool :=
  expiresAt ← gets sessionExpiresAt;
  if decide (expiresAt = 0) then mret true
  else now ← Date_now; mret (expiresAt <=? now).

(** *** Login candidates *)

Definition hashLoginCredentials (loginV2 : bool) (credentials : Credentials)
  : AesLoginParams :=
  let username := base64EncodeString (sha1Hex credentials.(Creds.username)) in
  if loginV2
  then {| username := username; password := None;
          password2 :=
            Some (base64EncodeString (sha1Hex credentials.(Creds.password))) |}
  else {| username := username;
          password := Some (base64EncodeString credentials.(Creds.password));
          password2 := None |}.

Definition string_prop (v : jsval) (name : string) : option string :=
  match get_prop v name with
  | JStr text => Some text
  | _ => None
  end.

Definition parseCredentialsHash (credentialsHash : string)
  : outcome AesLoginParams :=
  let decoded := toString_utf8 (from_base64 credentialsHash) in
  match json_parse decoded with
  | None => Throw (TypeError
      "credentialsHash must be base64-encoded AES login params JSON for aes transport")
  | Some parsed =>
      match (if isObjectLike parsed then string_prop parsed "username"
             else None) with
      | None => Throw (TypeError
          "credentialsHash decoded AES login params must include username")
      | Some username =>
          match string_prop parsed "password",
                string_prop parsed "password2" with
          | None, None => Throw (TypeError
              "credentialsHash decoded AES login params must include password or password2")
          | password, password2 =>
              Ok {| username := username; password := password;
                    password2 := password2 |}
          end
      end
  end.

(** The login params as the object that is serialised. *)
Definition params_object (params : AesLoginParams) : jsval :=
  JObj ([("username", JStr params.(username))]
        ++ match params.(password) with
           | Some text => [("password", JStr text)]
           | None => []
           end
        ++ match params.(password2) with
           | Some text => [("password2", JStr text)]
           | None => []
           end).

(** The local [candidates] array and [seen] set of
    [buildLoginCandidates]. *)
Definition candidate_acc : Type := list AesLoginCandidate * gset string.

Definition addCandidate (label : string) (params : AesLoginParams)
  (acc : candidate_acc) : candidate_acc :=
  let key := JSON_stringify (params_object params) in
  if decide (key ∈ acc.2) then acc
  else (acc.1 ++ [ {| label := label; params := params |} ],
        {[ key ]} ∪ acc.2).

Definition buildLoginCandidates (this : Options)
  : outcome (list AesLoginCandidate) :=
  acc ← match this.(credentialsHash) with
        | Some hash =>
            params ← parseCredentialsHash hash;
            Ok (addCandidate "credentialsHash" params ([], ∅))
        | None => Ok ([], ∅)
        end;
  let acc :=
    match this.(credentials) with
    | Some creds =>
        addCandidate "credentials-v1" (hashLoginCredentials false creds)
          (addCandidate "credentials-v2" (hashLoginCredentials true creds)
             acc)
    | None => acc
    end in
  let defaultTapoCredentials :=
    {| Creds.username := decodeBase64 DEFAULT_TAPO_CREDENTIAL_BASE64.1;
       Creds.password := decodeBase64 DEFAULT_TAPO_CREDENTIAL_BASE64.2 |} in
  let acc :=
    addCandidate "default-tapo-v1"
      (hashLoginCredentials false defaultTapoCredentials)
      (addCandidate "default-tapo-v2"
         (hashLoginCredentials true defaultTapoCredentials) acc) in
  Ok acc.1.

(** [typeof error.errorCode === 'number' ? error.errorCode : undefined] *)
Definition extractErrorCode (error : exn) : option Z :=
  match error with
  | Error _ _ errorCode => errorCode
  | SmartError _ errorCode _ _ _ => Some errorCode
  | _ => None
  end.

Definition extractStatusCode (error : exn) : option Z :=
  match error with
  | Error _ statusCode _ => statusCode
  | _ => None
  end.

Definition assertResponseSuccess (response : jsval) (context : string)
  : M State jsval :=
  match (if isObjectLike response then get_prop response "error_code"
         else JUndefined) with
  | JNum error_code =>
      if decide (error_code ≠ 0)
      then
        (if decide (error_code ∈ AES_AUTH_ERROR_CODES)
         then resetSession else mret tt);;
        throw (Error (context +:+ " failed with error_code") None
                 (Some error_code))
      else mret response
  | _ => throw (plainError ("unexpected " +:+ context +:+ " response"))
  end.

(** *** Requests *)

(** [post]: the request is recorded and the next scripted reply is its
    result; an exhausted script is a refused connection. *)
Definition post (path : string) (data : string) (timeout : Z)
  (options : AesRequestOptions) : M State AesHttpResponse := fun st =>
  let sent := st.(requests) ++ [ {| req_path := path; req_data := data;
                                    req_options := options |} ] in
  let next rest :=
    {| session := st.(session); sessionCookie := st.(sessionCookie);
       sessionExpiresAt := st.(sessionExpiresAt); token := st.(token);
       requests := sent; replies := rest;
       clock := st.(clock); ticks := st.(ticks);
       keypairs := st.(keypairs); draws := st.(draws) |} in
  match st.(replies) with
  | Response response :: rest => (Ok response, next rest)
  | Failure message :: rest => (Throw (plainError message), next rest)
  | [] => (Throw (plainError "connect ECONNREFUSED"), next [])
  end.

Definition app_headers : list (string * string) :=
  [("requestByApp", "true"); ("Accept", "application/json")].

Definition performHandshake (timeout : Z) : M State unit :=
  resetSession;;
  '(publicKey, privateKey) ← generateKeyPairSync;
  handshakeResponse ←
    post AES_PROTOCOL_PATH
      (JSON_stringify
         (JObj [("method", JStr "handshake");
                ("params", JObj [("key", JStr publicKey)])]))
      timeout {| opt_headers := app_headers; cookie := None |};
  if decide (handshakeResponse.(statusCode) ≠ 200)
  then throw (plainError "handshake failed with status")
  else
    parsedResponse ← lift (JSON_parse handshakeResponse.(body));
    handshakeResult ← assertResponseSuccess parsedResponse "handshake";
    match (if isObjectLike (get_prop handshakeResult "result")
           then get_prop (get_prop handshakeResult "result") "key"
           else JUndefined) with
    | JStr encodedKey =>
        unpaddedKeyMaterial ←
          lift (decryptPkcs1v15 privateKey (from_base64 encodedKey));
        if (length unpaddedKeyMaterial <? 32)%nat
        then throw (plainError "handshake key material is invalid")
        else
          let newSession :=
            {| key := subarray unpaddedKeyMaterial 0 16;
               iv := subarray unpaddedKeyMaterial 16 32 |} in
          let setCookies := parseSetCookie handshakeResponse.(headers) in
          let timeoutCookie := getCookieValue setCookies TIMEOUT_COOKIE_NAME in
          let timeoutSeconds := timeoutSeconds_of timeoutCookie in
          let sessionId :=
            match getCookieValue setCookies SESSION_COOKIE_NAME with
            | Some id => Some id
            | None => getCookieValue setCookies SESSION_COOKIE_NAME_FALLBACK
            end in
          let cookieHeader :=
            (fun id => SESSION_COOKIE_NAME +:+ "=" +:+ id) <$> sessionId in
          let adjusted := adjustedSessionSeconds timeoutSeconds in
          now ← Date_now;
          token ← gets token;
          modify (set_session_fields (Some newSession) cookieHeader
                    (now + adjusted * 1000) token)
    | _ => throw (plainError "handshake response is invalid")
    end.

(** The state in which [performHandshake] leaves the connection when it
    fails after its request was posted: the session fields reset, one key
    pair drawn, the request recorded and one reply consumed. *)
Definition after_failed_handshake (st : State) : State :=
  {| session := None; sessionCookie := None; sessionExpiresAt := 0;
     token := None;
     requests :=
       st.(requests)
       ++ [ {| req_path := "/app";
               req_data := JSON_stringify
                 (JObj [("method", JStr "handshake");
                        ("params",
                         JObj [("key", JStr (st.(keypairs) st.(draws)).1)])]);
               req_options := {| opt_headers := app_headers;
                                 cookie := None |} |} ];
     replies := tail st.(replies);
     clock := st.(clock); ticks := st.(ticks);
     keypairs := st.(keypairs); draws := S st.(draws) |}.

Definition sendSecurePassthrough (payload : string) (timeout : Z)
  : M State jsval :=
  current ← gets session;
  match current with
  | None => throw (plainError "session is not initialized")
  | Some session =>
      encryptedPayload ← lift (encryptAesPayload session payload);
      token ← gets token;
      let path :=
        match token with
        | Some token =>
            AES_PROTOCOL_PATH +:+ "?token=" +:+ encodeURIComponent token
        | None => AES_PROTOCOL_PATH
        end in
      sessionCookie ← gets sessionCookie;
      response ←
        post path
          (JSON_stringify
             (JObj [("method", JStr "securePassthrough");
                    ("params", JObj [("request", JStr encryptedPayload)])]))
          timeout {| opt_headers := app_headers; cookie := sessionCookie |};
      if decide (response.(statusCode) = 403)
      then
        resetSession;;
        throw (Error "request rejected with 403" (Some 403) None)
      else if decide (response.(statusCode) ≠ 200)
      then throw (plainError "request failed with status")
      else
        parsedResponse ← lift (JSON_parse response.(body));
        passthroughResponse ←
          assertResponseSuccess parsedResponse "securePassthrough";
        match (if isObjectLike (get_prop passthroughResponse "result")
               then get_prop (get_prop passthroughResponse "result")
                      "response"
               else JUndefined) with
        | JStr inner =>
            match (decryptedResponse ← decryptAesPayload session inner;
                   JSON_parse decryptedResponse) with
            | Ok parsed => mret parsed
            | Throw _ => lift (JSON_parse inner)
            end
        | _ => throw (plainError
                 "securePassthrough response payload is invalid")
        end
  end.

Definition tryLogin (loginParams : AesLoginParams) (timeout : Z)
  : M State unit :=
  now ← Date_now;
  loginResponse ←
    sendSecurePassthrough
      (JSON_stringify
         (JObj [("method", JStr "login_device");
                ("params", params_object loginParams);
                ("request_time_milis", JNum now)]))
      timeout;
  loginResult ← assertResponseSuccess loginResponse "login";
  match (if isObjectLike (get_prop loginResult "result")
         then get_prop (get_prop loginResult "result") "token"
         else JUndefined) with
  | JStr newToken =>
      st ← gets id;
      modify (set_session_fields st.(session) st.(sessionCookie)
                st.(sessionExpiresAt) (Some newToken))
  | _ => throw (plainError "login response missing token")
  end.

(** [performLoginForCandidate(candidates, timeout, index)].  The function
    calls itself with [index + 1] only when [index < candidates.length - 1];
    [remaining] counts the indices left and is [candidates.length - index]
    at every call. *)
Fixpoint performLoginForCandidate_from (remaining : nat)
  (candidates : list AesLoginCandidate) (timeout : Z) (index : nat)
  : M State unit :=
  match candidates !! index with
  | None => throw (plainError "no login candidates succeeded")
  | Some candidate =>
      try_catch
        (tryLogin candidate.(params) timeout)
        (fun error =>
           (if bool_decide (is_Some (extractErrorCode error))
               && bool_decide (default 0 (extractErrorCode error)
                               ∈ AES_AUTH_ERROR_CODES)
               && (index <? length candidates - 1)%nat
            then
              performHandshake timeout;;
              match remaining with
              | S remaining' =>
                  performLoginForCandidate_from remaining' candidates
                    timeout (index + 1)
              | O => throw (plainError "no login candidates succeeded")
              end
            else mret tt);;
           throw error)
  end.

Definition performLoginForCandidate (candidates : list AesLoginCandidate)
  (timeout : Z) (index : nat) : M State unit :=
  performLoginForCandidate_from (length candidates - index) candidates
    timeout index.

Definition performLogin (this : Options) (timeout : Z) : M State unit :=
  loginCandidates ← lift (buildLoginCandidates this);
  if decide (length loginCandidates = 0%nat)
  then throw (plainError "no login candidates available")
  else performLoginForCandidate loginCandidates timeout 0.

Definition ensureSession (this : Options) (timeout : Z) : M State unit :=
  st ← gets id;
  live ← match st.(session), st.(token) with
         | Some _, Some _ => expired ← isSessionExpired; mret (negb expired)
         | _, _ => mret false
         end;
  if live : bool then mret tt
  else
    performHandshake timeout;;
    performLogin this timeout.

(** [sendWithRetry(payload, timeout, attempt)].  The function calls
    itself, with [attempt] 1, only when [attempt] is 0; [retries] is 1 at
    the call with [attempt] 0 that [send] makes. *)
Fixpoint sendWithRetry_from (retries : nat) (this : Options)
  (payload : string) (timeout : Z) (attempt : Z) : M State string :=
  try_catch
    (ensureSession this timeout;;
     response ← sendSecurePassthrough payload timeout;
     mret (JSON_stringify response))
    (fun error =>
       let statusCode := extractStatusCode error in
       let errorCode := extractErrorCode error in
       if bool_decide (attempt = 0)
          && (bool_decide (statusCode = Some 403)
              || (bool_decide (is_Some errorCode)
                  && bool_decide (default 0 errorCode
                                  ∈ AES_AUTH_ERROR_CODES)))
       then
         resetSession;;
         match retries with
         | S retries' => sendWithRetry_from retries' this payload timeout 1
         | O => throw error
         end
       else throw error).

Definition sendWithRetry (this : Options) (payload : string) (timeout : Z)
  (attempt : Z) : M State string :=
  sendWithRetry_from 1 this payload timeout attempt.

(** The body that [send] puts on the queue. *)
Definition send (this : Options) (payload : string) (timeout : Z)
  : M State string :=
  sendWithRetry this payload timeout 0.

Definition close : M State unit := resetSession.

End WithRuntime.
End Aes.

(** * SMART request layer (device/index.ts) *)

Module Smart.
Section WithRuntime.
Context `{RT : Runtime}.

Inductive Transport : Type := udp | tcp | klap | aes.

#[global] Instance Transport_eq_dec : EqDecision Transport.
Proof. solve_decision. Defined.

Record SendOptions : Type := {
  timeout : option Z;
  transport : option Transport;
}.

(** [{ method, params? }]; an absent [params] is [JUndefined]. *)
Record SmartMethodRequest : Type := {
  method : string;
  params : jsval;
}.

(** The [childIds] argument: [undefined], a string or an array. *)
Inductive ChildIds : Type :=
| NoChildIds
| OneChildId (childId : string)
| ChildIdList (childIds : list string).

(** The fields of a [Device] that the SMART methods read. *)
Record Device : Type := {
  deviceId : string;
  smartTerminalUuid : string;
  defaultSendOptions : SendOptions;
  childId : option string;
}.

(** The connections of the device as the SMART layer sees them: the
    payloads handed to [connection.send] so far (oldest first, with the
    transport chosen), the results of the coming calls, and the clock. *)
Record State : Type := {
  sent : list (Transport * string);
  replies : list (outcome string);
  clock : nat -> Z;
  ticks : nat;
}.

Definition Date_now : M State Z := fun st =>
  (Ok (st.(clock) st.(ticks)),
   {| sent := st.(sent); replies := st.(replies);
      clock := st.(clock); ticks := S st.(ticks) |}).

(** [connection.send(payloadString, ...)] on the connection of
    [transport]. *)
Definition connection_send (transport : Transport) (payloadString : string)
  : M State string := fun st =>
  let record rest :=
    {| sent := st.(sent) ++ [(transport, payloadString)]; replies := rest;
       clock := st.(clock); ticks := st.(ticks) |} in
  match st.(replies) with
  | result :: rest => (result, record rest)
  | [] => (Throw (plainError "connect ECONNREFUSED"), record [])
  end.

(** [Device.send] with an object payload: the options are the defaults
    overridden by [sendOptions]. *)
Definition send (this : Device) (payload : jsval) (sendOptions : SendOptions)
  : M State string :=
  let payloadString := JSON_stringify payload in
  match (match sendOptions.(transport) with
         | Some chosen => Some chosen
         | None => this.(defaultSendOptions).(transport)
         end) with
  | Some chosen => connection_send chosen payloadString
  | None => throw (TypeError "Cannot read properties of undefined")
  end.

(** [castArray] of lodash. *)
Definition castArray (childIds : ChildIds) : list string :=
  match childIds with
  | NoChildIds => []
  | OneChildId childId => [childId]
  | ChildIdList childIds => childIds
  end.

(** [childId.length] counts UTF-16 code units; [String.length] agrees
    with it on ASCII identifiers. *)
Definition normalizeChildId (this : Device) (childId : string) : string :=
  if decide (String.length childId = 1%nat)
  then this.(deviceId) +:+ "0" +:+ childId
  else if decide (String.length childId = 2%nat)
  then this.(deviceId) +:+ childId
  else childId.

Definition createSmartRequestPayload (this : Device)
  (request : SmartMethodRequest) : M State jsval :=
  now ← Date_now;
  mret (JObj ([("method", JStr request.(method))]
              ++ optional_prop "params" request.(params)
              ++ [("request_time_milis", JNum now);
                  ("terminal_uuid", JStr this.(smartTerminalUuid))])).

Definition getSingleSmartChildId (this : Device) (childIds : ChildIds)
  : outcome (option string) :=
  match childIds with
  | NoChildIds => Ok None
  | _ =>
      let childIdArray := normalizeChildId this <$> castArray childIds in
      if (1 <? length childIdArray)%nat
      then Throw (plainError "SMART control_child supports a single child id")
      else Ok (childIdArray !! 0%nat)
  end.

Definition isSmartResponse (candidate : jsval) : bool :=
  isObjectLike candidate && is_number (get_prop candidate "error_code").

Definition assertSmartSuccess (response : jsval) (method : string)
  (request : jsval) : outcome jsval :=
  if negb (isSmartResponse response)
  then Throw (plainError "Unexpected SMART response")
  else
    match get_prop response "error_code" with
    | JNum error_code =>
        if decide (error_code ≠ 0)
        then Throw (SmartError "SMART request failed" error_code method
                      (JSON_stringify response) (JSON_stringify request))
        else Ok response
    | _ => Throw (plainError "Unexpected SMART response")
    end.

(** The [forEach] over [result.responses], with [multiResults] as
    accumulator. *)
Fixpoint processResponseEntries (responses : list jsval) (request : jsval)
  (multiResults : list (string * jsval)) : outcome (list (string * jsval)) :=
  match responses with
  | [] => Ok multiResults
  | responseEntry :: rest =>
      match (if isObjectLike responseEntry
             then Some (get_prop responseEntry "method",
                        get_prop responseEntry "error_code")
             else None) with
      | Some (JStr entryMethod, JNum error_code) =>
          if decide (error_code ≠ 0)
          then Throw (SmartError "SMART request failed" error_code
                        entryMethod (JSON_stringify responseEntry)
                        (JSON_stringify request))
          else
            processResponseEntries rest request
              (assoc_set multiResults entryMethod
                 (if has_prop responseEntry "result"
                  then get_prop responseEntry "result"
                  else JUndefined))
      | _ => Throw (plainError "Unexpected SMART response entry")
      end
  end.

Definition processSmartResponse (response : jsval) (method : string)
  (request : jsval) : outcome jsval :=
  smartResponse ← assertSmartSuccess response method request;
  if negb (bool_decide (method = "multipleRequest"))
  then Ok (get_prop smartResponse "result")
  else
    match (if isObjectLike (get_prop smartResponse "result")
              && has_prop (get_prop smartResponse "result") "responses"
           then get_prop (get_prop smartResponse "result") "responses"
           else JUndefined) with
    | JArr responses =>
        multiResults ← processResponseEntries responses request [];
        Ok (JObj multiResults)
    | _ => Throw (plainError "Unexpected SMART multipleRequest response")
    end.

Definition sendSmartCommand (this : Device) (method : string)
  (params : jsval) (childIds : ChildIds) (sendOptions : option SendOptions)
  : M State jsval :=
  let childIds :=
    match childIds with
    | NoChildIds =>
        match this.(childId) with
        | Some own => OneChildId own
        | None => NoChildIds
        end
    | given => given
    end in
  let smartSendOptions :=
    {| timeout := sendOptions ≫= timeout;
       transport :=
         match sendOptions ≫= transport with
         | Some chosen => Some chosen
         | None =>
             match this.(defaultSendOptions).(transport) with
             | Some klap => Some klap
             | Some aes => Some aes
             | _ => Some klap
             end
         end |} in
  childId ← lift (getSingleSmartChildId this childIds);
  request ← createSmartRequestPayload this
              {| method := method; params := params |};
  requestToSend ←
    match childId with
    | Some childId =>
        createSmartRequestPayload this
          {| method := "control_child";
             params :=
               JObj [("device_id", JStr childId);
                     ("requestData",
                      JObj ([("method", get_prop request "method")]
                            ++ optional_prop "params"
                                 (get_prop request "params")))] |}
    | None => mret request
    end;
  responseString ← send this requestToSend smartSendOptions;
  responseObj ←
    match json_parse responseString with
    | Some parsed => mret parsed
    | None => throw (plainError "Could not parse SMART response")
    end;
  match childId with
  | Some _ =>
      _ ← lift (assertSmartSuccess responseObj "control_child"
                  requestToSend);
      if negb (isObjectLike responseObj
               && has_prop responseObj "result"
               && isObjectLike (get_prop responseObj "result")
               && has_prop (get_prop responseObj "result") "responseData")
      then throw (plainError "Unexpected SMART control_child response")
      else
        lift (processSmartResponse
                (get_prop (get_prop responseObj "result") "responseData")
                method requestToSend)
  | None => lift (processSmartResponse responseObj method requestToSend)
  end.

Definition sendSmartRequests (this : Device)
  (requests : list SmartMethodRequest) (childIds : ChildIds)
  (sendOptions : option SendOptions) : M State jsval :=
  if decide (length requests = 0%nat)
  then mret (JObj [])
  else
    response ←
      sendSmartCommand this "multipleRequest"
        (JObj [("requests",
                JArr ((fun request =>
                         JObj ([("method", JStr request.(method))]
                               ++ optional_prop "params" request.(params)))
                      <$> requests))])
        childIds sendOptions;
    if negb (isObjectLike response)
    then throw (plainError "Unexpected SMART multipleRequest response")
    else mret response.

(** *** Words of the specification about batch entries *)

(** The method and error code of an entry that is an object with a string
    [method] and a numeric [error_code]; [None] for any other entry. *)
Definition entry_fields (responseEntry : jsval) : option (string * Z) :=
  if isObjectLike responseEntry
  then match get_prop responseEntry "method",
             get_prop responseEntry "error_code" with
       | JStr entryMethod, JNum error_code => Some (entryMethod, error_code)
       | _, _ => None
       end
  else None.

(** The [result] of an entry, [undefined] when it has none. *)
Definition entry_result (responseEntry : jsval) : jsval :=
  if has_prop responseEntry "result" then get_prop responseEntry "result"
  else JUndefined.

(** An entry that succeeded. *)
Definition entry_succeeded (responseEntry : jsval) : Prop :=
  exists entryMethod, entry_fields responseEntry = Some (entryMethod, 0).

(** The last entry of the batch answering [name]. *)
Definition last_entry_for (name : string) (responses : list jsval)
  : option jsval :=
  last (filter (fun responseEntry =>
                  fst <$> entry_fields responseEntry = Some name) responses).

(** The transport that [sendSmartCommand] selects. *)
Definition smart_transport (this : Device) (sendOptions : option SendOptions)
  : Transport :=
  match sendOptions ≫= transport with
  | Some chosen => chosen
  | None =>
      match this.(defaultSendOptions).(transport) with
      | Some aes => aes
      | _ => klap
      end
  end.

(** The envelope that wraps a request for a child. *)
Definition control_child_payload (this : Device) (childId method : string)
  (params : jsval) (now : Z) : jsval :=
  JObj [("method", JStr "control_child");
        ("params",
         JObj [("device_id", JStr childId);
               ("requestData",
                JObj ([("method", JStr method)]
                      ++ optional_prop "params" params))]);
        ("request_time_milis", JNum now);
        ("terminal_uuid", JStr this.(smartTerminalUuid))].

(** The envelope of a request that is not for a child. *)
Definition smart_payload (this : Device) (method : string) (params : jsval)
  (now : Z) : jsval :=
  JObj ([("method", JStr method)] ++ optional_prop "params" params
        ++ [("request_time_milis", JNum now);
            ("terminal_uuid", JStr this.(smartTerminalUuid))]).

(** The state after [sendSmartCommand] has read the clock [reads] times
    and handed [payload] to the connection. *)
Definition after_send (this : Device) (sendOptions : option SendOptions)
  (payload : jsval) (reads : nat) (st : State) : State :=
  {| sent := st.(sent)
             ++ [(smart_transport this sendOptions, JSON_stringify payload)];
     replies := tail st.(replies);
     clock := st.(clock); ticks := (reads + st.(ticks))%nat |}.

End WithRuntime.
End Smart.

(** * A small runtime for examples

    A stand-in for Node in the examples at concrete inputs.  Text is its
    own byte sequence, also as base64.  A digest is the end of its input,
    reversed and padded with zeros, so that it depends on what is hashed.
    The cipher wraps the plain text in the key and the IV and unwraps it
    only under the same key and IV.  The RSA operation copies its input.
    [JSON.parse] reads the few documents the example devices send, and
    [JSON.stringify] is a serialiser without escapes. *)

Module Toy.

Definition zeros (n : nat) : bytes := replicate n x00.

Definition digest (size : nat) (payload : bytes) : bytes :=
  resize size x00 (reverse payload).

Definition wrap (key iv plain : bytes) : option bytes :=
  Some (key ++ iv ++ plain).

Definition unwrap (key iv cipher : bytes) : option bytes :=
  if decide (take (length (key ++ iv)) cipher = key ++ iv)
  then Some (drop (length (key ++ iv)) cipher)
  else None.

(** The key material of the example AES device, and a raw RSA block that
    carries it behind eight non-zero padding bytes. *)
Definition aes_key : bytes := replicate 16 x0a.
Definition aes_iv : bytes := replicate 16 x0b.

Definition rsa_block : bytes :=
  [x00; x02] ++ replicate 8 x01 ++ [x00] ++ aes_key ++ aes_iv.

(** An inner document as the example AES device sends it: wrapped under
    its key and IV. *)
Definition sealed (document : string) : string :=
  string_of_list_byte (aes_key ++ aes_iv ++ list_byte_of_string document).

(** The documents the example devices send. *)
Definition parse (text : string) : option jsval :=
  if decide (text = "{ok}") then
    Some (JObj [("error_code", JNum 0); ("result", JObj [("ok", JBool true)])])
  else if decide (text = "{handshake}") then
    Some (JObj [("error_code", JNum 0);
                ("result",
                 JObj [("key", JStr (string_of_list_byte rsa_block))])])
  else if decide (text = "{login-denied}") then
    Some (JObj [("error_code", JNum 0);
                ("result", JObj [("response", JStr (sealed "{denied}"))])])
  else if decide (text = "{denied}") then
    Some (JObj [("error_code", JNum (-1501))])
  else if decide (text = "{login-granted}") then
    Some (JObj [("error_code", JNum 0);
                ("result", JObj [("response", JStr (sealed "{granted}"))])])
  else if decide (text = "{granted}") then
    Some (JObj [("error_code", JNum 0);
                ("result", JObj [("token", JStr "tok")])])
  else if decide (text = "{child-applied}") then
    Some (JObj [("error_code", JNum 0);
                ("result",
                 JObj [("responseData",
                        JObj [("error_code", JNum 0);
                              ("result", JObj [("applied", JBool true)])])])])
  else if decide (text = "{child-batch}") then
    Some (JObj [("error_code", JNum 0);
                ("result",
                 JObj [("responseData",
                        JObj [("error_code", JNum 0);
                              ("result", JObj [("responses", JArr [])])])])])
  else None.

Definition quote : string := String (ascii_of_nat 34) EmptyString.

Definition quoted (text : string) : string := quote +:+ text +:+ quote.

Fixpoint stringify (v : jsval) : string :=
  match v with
  | JUndefined => "undefined"
  | JNull => "null"
  | JBool true => "true"
  | JBool false => "false"
  | JNum n => pretty n
  | JStr text => quoted text
  | JArr items =>
      "[" +:+ (fix join (l : list jsval) : string :=
                 match l with
                 | [] => EmptyString
                 | [x] => stringify x
                 | x :: rest => stringify x +:+ "," +:+ join rest
                 end) items +:+ "]"
  | JObj props =>
      "{" +:+ (fix join (l : list (string * jsval)) : string :=
                 match l with
                 | [] => EmptyString
                 | [(k, x)] => quoted k +:+ ":" +:+ stringify x
                 | (k, x) :: rest =>
                     quoted k +:+ ":" +:+ stringify x +:+ "," +:+ join rest
                 end) props +:+ "}"
  end.

#[global] Instance runtime : Runtime := {|
  sha256 := digest 32;
  sha1 := digest 20;
  md5 := digest 16;
  aes_encrypt := wrap;
  aes_decrypt := unwrap;
  rsa_decrypt_raw := fun pem cipher => Some cipher;
  from_utf8 := list_byte_of_string;
  toString_utf8 := string_of_list_byte;
  from_base64 := list_byte_of_string;
  toString_base64 := string_of_list_byte;
  json_parse := parse;
  JSON_stringify := stringify;
  encodeURIComponent := fun text => text;
|}.

(** *** A KLAP device *)

Definition user : Credentials :=
  {| Creds.username := "user@example.com"; Creds.password := "secret" |}.

Definition klap_options : Klap.Options :=
  {| Klap.credentials := Some user; Klap.credentialsHash := None |}.

(** The seeds of the examples: the random generator yields zeros, the
    device answers with fives. *)
Definition localSeed : bytes := zeros 16.
Definition remoteSeed : bytes := replicate 16 x05.

(** The [handshake1] response of a device that holds the given auth hash
    for the given version, with the given TIMEOUT cookie. *)
Definition handshake1_response (authHash : bytes)
  (version : Klap.KlapHashVersion) (timeoutCookie : string)
  : Klap.KlapHttpResponse :=
  {| Klap.statusCode := 200;
     Klap.body :=
       remoteSeed
       ++ Klap.handshake1SeedAuthHash localSeed remoteSeed authHash version;
     Klap.headers :=
       SetCookies [ "TP_SESSIONID=abc; Path=/";
                    "TIMEOUT=" +:+ timeoutCookie +:+ "; Path=/" ] |}.

(** The device of the user, which holds the v2 hash of the user's
    credentials. *)
Definition user_handshake1 (timeoutCookie : string)
  : Klap.KlapHttpResponse :=
  handshake1_response (Klap.authHashV2 user) Klap.v2 timeoutCookie.

Definition klap_status (status : Z) : Klap.KlapHttpResponse :=
  {| Klap.statusCode := status; Klap.body := [];
     Klap.headers := NoSetCookie |}.

(** A session at the last sequence number before the wrap. *)
Definition klap_session : Klap.KlapEncryptionSession :=
  {| Klap.key := zeros 16; Klap.ivPrefix := zeros 12;
     Klap.signaturePrefix := zeros 28; Klap.sequence := 0x7fffffff |}.

(** The session that the handshake with the user's device establishes. *)
Definition user_session : Klap.KlapEncryptionSession :=
  match Klap.createKlapEncryptionSession localSeed remoteSeed
          (Klap.authHashV2 user) with
  | Ok session => session
  | Throw _ => klap_session
  end.

(** The response of the user's device to the first request of a session:
    32 bytes in the place of the signature, then the document wrapped under
    the key and the IV of that request. *)
Definition klap_data_response (document : string) : Klap.KlapHttpResponse :=
  {| Klap.statusCode := 200;
     Klap.body :=
       zeros 32
       ++ user_session.(Klap.key)
       ++ (user_session.(Klap.ivPrefix)
           ++ int32BE (incrementSignedInt32 user_session.(Klap.sequence)))
       ++ list_byte_of_string document;
     Klap.headers := NoSetCookie |}.

(** A KLAP connection without a session, at time 5000, in front of a
    device that gives the listed replies. *)
Definition klap_state (replies : list (reply Klap.KlapHttpResponse))
  : Klap.State :=
  {| Klap.session := None; Klap.sessionCookie := None;
     Klap.sessionExpiresAt := 0; Klap.requests := [];
     Klap.replies := replies; Klap.clock := fun _ => 5000;
     Klap.ticks := 0%nat; Klap.entropy := fun _ => localSeed;
     Klap.draws := 0%nat |}.

(** *** An AES device *)

Definition aes_options : Aes.Options :=
  {| Aes.credentials := Some user; Aes.credentialsHash := None |}.

Definition aes_response (body : string) : Aes.AesHttpResponse :=
  {| Aes.statusCode := 200; Aes.body := body;
     Aes.headers := SetCookies [ "TP_SESSIONID=sid-1; Path=/";
                                 "TIMEOUT=86400; Path=/" ] |}.

(** An AES connection without a session, at time 5000, in front of a
    device that gives the listed replies. *)
Definition aes_state (replies : list (reply Aes.AesHttpResponse))
  : Aes.State :=
  {| Aes.session := None; Aes.sessionCookie := None;
     Aes.sessionExpiresAt := 0; Aes.token := None; Aes.requests := [];
     Aes.replies := replies; Aes.clock := fun _ => 5000;
     Aes.ticks := 0%nat; Aes.keypairs := fun _ => ("public", "private");
     Aes.draws := 0%nat |}.

(** A device that accepts only the v1 login of the user: it denies the
    first candidate (credentials-v2) with -1501 and grants the second
    (credentials-v1) after the new handshake. *)
Definition v1_only_device : list (reply Aes.AesHttpResponse) :=
  [ Response (aes_response "{handshake}");
    Response (aes_response "{login-denied}");
    Response (aes_response "{handshake}");
    Response (aes_response "{login-granted}") ].

(** *** A SMART device *)

Definition device : Smart.Device :=
  {| Smart.deviceId := "D"; Smart.smartTerminalUuid := "uuid";
     Smart.defaultSendOptions :=
       {| Smart.timeout := Some 1500; Smart.transport := Some Smart.klap |};
     Smart.childId := None |}.

(** A device connection at time 5000 that gives the listed results. *)
Definition smart_state (replies : list (outcome string)) : Smart.State :=
  {| Smart.sent := []; Smart.replies := replies;
     Smart.clock := fun _ => 5000; Smart.ticks := 0%nat |}.

End Toy.


(** * Further parts of the library

    The definitions below embed code around the entry points of the three
    transports: the credential options of [src/credentials.ts], which the
    connections normalise and the device merges, and the getters and
    commands of [src/device/index.ts] that decide whether a device is
    addressed with SMART methods. *)

(** ** Predicates used to state properties *)

(** The character [c] occurs in [s]. *)
Fixpoint has_char (c : ascii) (s : string) : bool :=
  match s with
  | EmptyString => false
  | String c' rest => bool_decide (c' = c) || has_char c rest
  end.

(** A KLAP session of the shape [createKlapEncryptionSession] produces
    under SHA-256: a 16-byte key, 12 bytes of IV prefix, 28 bytes of
    signature prefix and a signed 32-bit sequence number. *)
Definition klap_session_ok (s : Klap.KlapEncryptionSession) : Prop :=
  length s.(Klap.key) = 16%nat
  /\ length s.(Klap.ivPrefix) = 12%nat
  /\ length s.(Klap.signaturePrefix) = 28%nat
  /\ is_int32 s.(Klap.sequence).

(** The session of a KLAP connection, if there is one, has that shape. *)
Definition klap_state_ok (st : Klap.State) : Prop :=
  forall s, st.(Klap.session) = Some s -> klap_session_ok s.

(** A request to one of the three paths of the KLAP protocol. *)
Definition klap_path (request : Klap.KlapRequest) : Prop :=
  request.(Klap.req_path) = "/app/handshake1"
  \/ request.(Klap.req_path) = "/app/handshake2"
  \/ request.(Klap.req_path) = "/app/request".

(** The key under which [buildLoginCandidates] remembers a candidate. *)
Definition aes_candidate_key `{Runtime} (c : Aes.AesLoginCandidate) : string :=
  JSON_stringify (Aes.params_object c.(Aes.params)).

(** An AES connection does not hold a token without a session. *)
Definition aes_state_ok (st : Aes.State) : Prop :=
  is_Some st.(Aes.token) -> is_Some st.(Aes.session).

(** * Credential options (credentials.ts)

    The functions take what JavaScript callers may pass, so their arguments
    are [jsval]s; an absent argument or property is [JUndefined]. *)

Module CredentialOptions.

Definition REDACTED : string := "[REDACTED]".

(** [v == null] *)
Definition is_nullish (v : jsval) : bool :=
  match v with
  | JUndefined | JNull => true
  | _ => false
  end.

(** [a ?? b] *)
Definition nullish_or (a b : jsval) : jsval :=
  if is_nullish a then b else a.

(** [typeof v === 'string' && v.length !== 0] *)
Definition is_nonempty_string (v : jsval) : bool :=
  match v with
  | JStr text => negb (String.length text =? 0)%nat
  | _ => false
  end.

Definition assertCredentialPair (credentials : jsval) (context : string)
  : outcome unit :=
  if is_nullish credentials then Ok tt
  else if negb (is_nonempty_string (get_prop credentials "username"))
  then Throw (TypeError (context +:+ ": credentials.username is required"))
  else if negb (is_nonempty_string (get_prop credentials "password"))
  then Throw (TypeError (context +:+ ": credentials.password is required"))
  else Ok tt.

Definition assertCredentialsHash (credentialsHash : jsval) (context : string)
  : outcome unit :=
  if is_nullish credentialsHash then Ok tt
  else if negb (is_nonempty_string credentialsHash)
  then Throw (TypeError
                (context +:+ ": credentialsHash must be a non-empty string"))
  else Ok tt.

Definition normalizeCredentialOptions (options : jsval) (context : string)
  : outcome jsval :=
  let credentials :=
    if is_nullish (get_prop options "credentials") then JUndefined
    else JObj [("username",
                get_prop (get_prop options "credentials") "username");
               ("password",
                get_prop (get_prop options "credentials") "password")] in
  let credentialsHash := get_prop options "credentialsHash" in
  assertCredentialPair credentials context;;
  assertCredentialsHash credentialsHash context;;
  Ok (JObj [("credentials", credentials);
            ("credentialsHash", credentialsHash)]).

Definition mergeCredentialOptions (clientOptions deviceOptions : jsval)
  (context : string) : outcome jsval :=
  clientNormalized ←
    normalizeCredentialOptions clientOptions
      (context +:+ " (client defaults)");
  deviceNormalized ←
    normalizeCredentialOptions deviceOptions
      (context +:+ " (device overrides)");
  Ok (JObj [("credentials",
             nullish_or (get_prop deviceNormalized "credentials")
               (get_prop clientNormalized "credentials"));
            ("credentialsHash",
             nullish_or (get_prop deviceNormalized "credentialsHash")
               (get_prop clientNormalized "credentialsHash"))]).

(** [{ ...v }] for an object-like [v]: the own properties of an object,
    the elements of an array under their indices. *)
Definition spread (v : jsval) : list (string * jsval) :=
  match v with
  | JObj props => props
  | JArr items => imap (fun index item => (pretty index, item)) items
  | _ => []
  end.

(** The first [if] of [redactCredentialOptions], on the properties of
    [redacted]. *)
Definition redact_credentials (redacted : list (string * jsval))
  : list (string * jsval) :=
  if has_prop (JObj redacted) "credentials"
     && isObjectLike (get_prop (JObj redacted) "credentials")
  then
    let credentials := get_prop (JObj redacted) "credentials" in
    assoc_set redacted "credentials"
      (JObj (match get_prop credentials "password" with
             | JUndefined => spread credentials
             | _ => assoc_set (spread credentials) "password" (JStr REDACTED)
             end))
  else redacted.

(** The second [if]. *)
Definition redact_hash (redacted : list (string * jsval))
  : list (string * jsval) :=
  if has_prop (JObj redacted) "credentialsHash"
     && negb (is_nullish (get_prop (JObj redacted) "credentialsHash"))
  then assoc_set redacted "credentialsHash" (JStr REDACTED)
  else redacted.

Definition redactCredentialOptions (options : jsval) : jsval :=
  if negb (isObjectLike options) then options
  else JObj (redact_hash (redact_credentials (spread options))).

(** What a value that passed [normalizeCredentialOptions] looks like. *)
Definition normalized (options : jsval) : Prop :=
  exists credentials credentialsHash,
    options = JObj [("credentials", credentials);
                    ("credentialsHash", credentialsHash)]
    /\ (credentials = JUndefined
        \/ exists username password,
             credentials = JObj [("username", JStr username);
                                 ("password", JStr password)]
             /\ username <> EmptyString /\ password <> EmptyString)
    /\ (is_nullish credentialsHash = true
        \/ exists hash, credentialsHash = JStr hash /\ hash <> EmptyString).

End CredentialOptions.

(** * Getters and commands of [Device] (device/index.ts)

    [sysInfo] is the cached [system.sysinfo] object, given by its
    properties. *)

Module DeviceInfo.
Section WithRuntime.
Context `{RT : Runtime}.

Definition sysinfo : Type := list (string * jsval).

(** [get type()] *)
Definition type (sysInfo : sysinfo) : jsval :=
  if has_prop (JObj sysInfo) "type" then get_prop (JObj sysInfo) "type"
  else if has_prop (JObj sysInfo) "mic_type"
  then get_prop (JObj sysInfo) "mic_type"
  else JStr EmptyString.

Definition isSmartProtocolDevice (sysInfo : sysinfo) : bool :=
  match type sysInfo with
  | JStr typeValue => String.prefix "SMART." typeValue
  | _ => false
  end.

Definition shouldUseSmartMethods (this : Smart.Device) (sysInfo : sysinfo)
  (sendOptions : option Smart.SendOptions) : bool :=
  if negb (isSmartProtocolDevice sysInfo) then false
  else
    let transport :=
      match sendOptions ≫= Smart.transport with
      | Some chosen => Some chosen
      | None => this.(Smart.defaultSendOptions).(Smart.transport)
      end in
    bool_decide (transport = Some Smart.klap)
    || bool_decide (transport = Some Smart.aes).


(** The class [[A-Za-z0-9]] and [toUpperCase] on it. *)
Definition is_alnum (c : ascii) : bool :=
  let n := nat_of_ascii c in
  ((48 <=? n) && (n <=? 57) || (65 <=? n) && (n <=? 90)
   || (97 <=? n) && (n <=? 122))%nat.

Definition toUpperCase_char (c : ascii) : ascii :=
  let n := nat_of_ascii c in
  if ((97 <=? n) && (n <=? 122))%nat then ascii_of_nat (n - 32) else c.

(** [s.replace(/[^A-Za-z0-9]/g, '').toUpperCase()] *)
Fixpoint normalizeMacString (s : string) : string :=
  match s with
  | EmptyString => EmptyString
  | String c rest =>
      if is_alnum c then String (toUpperCase_char c) (normalizeMacString rest)
      else normalizeMacString rest
  end.



Fixpoint all_chars (p : ascii -> bool) (s : string) : bool :=
  match s with
  | EmptyString => true
  | String c rest => p c && all_chars p rest
  end.

(** *** Commands with a legacy and a SMART form

    [sendCommand] belongs to the legacy protocol, whose response
    processing lives in [src/utils.ts]; the commands below are given for
    any [sendCommand].  [system] is [this.apiModules.system]. *)

Section Commands.
Variable sendCommand :
  jsval -> Smart.ChildIds -> option Smart.SendOptions -> M Smart.State jsval.
Variable system : string.

Definition reboot (this : Smart.Device) (sysInfo : sysinfo) (delay : Z)
  (sendOptions : option Smart.SendOptions) : M Smart.State jsval :=
  if shouldUseSmartMethods this sysInfo sendOptions
  then Smart.sendSmartCommand this "device_reboot"
         (JObj [("delay", JNum delay)]) Smart.NoChildIds sendOptions
  else sendCommand
         (JObj [(system, JObj [("reboot", JObj [("delay", JNum delay)])])])
         Smart.NoChildIds sendOptions.

Definition reset (this : Smart.Device) (sysInfo : sysinfo) (delay : Z)
  (sendOptions : option Smart.SendOptions) : M Smart.State jsval :=
  if shouldUseSmartMethods this sysInfo sendOptions
  then Smart.sendSmartCommand this "device_reset" JUndefined
         Smart.NoChildIds sendOptions
  else sendCommand
         (JObj [(system, JObj [("reset", JObj [("delay", JNum delay)])])])
         Smart.NoChildIds sendOptions.

End Commands.

End WithRuntime.
End DeviceInfo.

(** * Further example devices

    The example runtime with two more documents: login params as a
    [credentialsHash] carries them, and a passthrough response whose inner
    document the device did not encrypt. *)

Module Examples.

Definition parse (text : string) : option jsval :=
  if decide (text = "{params}") then
    Some (JObj [("username", JStr "dXNlcg=="); ("password2", JStr "cGFzcw==")])
  else if decide (text = "{plain-reply}") then
    Some (JObj [("error_code", JNum 0);
                ("result", JObj [("response", JStr "{granted}")])])
  else Toy.parse text.

Definition runtime : Runtime := {|
  sha256 := Toy.digest 32;
  sha1 := Toy.digest 20;
  md5 := Toy.digest 16;
  aes_encrypt := Toy.wrap;
  aes_decrypt := Toy.unwrap;
  rsa_decrypt_raw := fun pem cipher => Some cipher;
  from_utf8 := list_byte_of_string;
  toString_utf8 := string_of_list_byte;
  from_base64 := list_byte_of_string;
  toString_base64 := string_of_list_byte;
  json_parse := parse;
  JSON_stringify := Toy.stringify;
  encodeURIComponent := fun text => text;
|}.

(** An AES connection that has shaken hands and logged in: it holds the
    example key material, a cookie and the token ["tok"]. *)
Definition logged_in (replies : list (reply Aes.AesHttpResponse))
  : Aes.State :=
  {| Aes.session := Some {| Aes.key := Toy.aes_key; Aes.iv := Toy.aes_iv |};
     Aes.sessionCookie := Some "TP_SESSIONID=sid-1";
     Aes.sessionExpiresAt := 90000; Aes.token := Some "tok";
     Aes.requests := []; Aes.replies := replies;
     Aes.clock := fun _ => 5000; Aes.ticks := 0%nat;
     Aes.keypairs := fun _ => ("public", "private"); Aes.draws := 1%nat |}.

End Examples.
(** * Properties *)

(** *** Facts about the byte encoding *)

Lemma Z_of_byte_range (b : byte) : 0 <= Z_of_byte b < 256.
Proof.
  unfold Z_of_byte. pose proof (Byte.to_N_bounded b) as H.
  split; [apply N2Z.is_nonneg | lia].
Qed.

Lemma Z_of_byte_of_Z (z : Z) : Z_of_byte (byte_of_Z z) = Z.land z 255.
Proof.
  unfold Z_of_byte, byte_of_Z.
  assert (Hr : 0 <= Z.land z 255 < 256).
  { change 255 with (Z.ones 8). rewrite Z.land_ones by lia.
    apply Z.mod_pos_bound. lia. }
  destruct (Byte.of_N (Z.to_N (Z.land z 255))) as [b|] eqn:E.
  - apply Byte.to_of_N in E. simpl. rewrite E. lia.
  - apply Byte.of_N_None_iff in E. lia.
Qed.

Lemma byte_of_Z_of_byte (b : byte) : byte_of_Z (Z_of_byte b) = b.
Proof.
  unfold byte_of_Z.
  pose proof (Z_of_byte_range b) as Hr.
  replace (Z.land (Z_of_byte b) 255) with (Z_of_byte b).
  - unfold Z_of_byte. rewrite N2Z.id, Byte.of_to_N. reflexivity.
  - change 255 with (Z.ones 8). rewrite Z.land_ones by lia.
    symmetry. apply Z.mod_small. lia.
Qed.

Lemma int32BE_length (value : Z) : length (int32BE value) = 4%nat.
Proof. reflexivity. Qed.

Lemma int32_bytes_sum (v : Z) :
  ((Z.shiftr v 24) mod 256) * 16777216 + ((Z.shiftr v 16) mod 256) * 65536
  + ((Z.shiftr v 8) mod 256) * 256 + v mod 256
  = v mod 4294967296.
Proof.
  rewrite !Z.shiftr_div_pow2 by lia.
  change (2 ^ 24) with 16777216. change (2 ^ 16) with 65536.
  change (2 ^ 8) with 256.
  Z.div_mod_to_equations. lia.
Qed.

Lemma land_255 (x : Z) : Z.land x 255 = x mod 256.
Proof. change 255 with (Z.ones 8). rewrite Z.land_ones by lia. reflexivity. Qed.

(** Reading back the four bytes written for a signed 32-bit value gives
    that value. *)
Lemma readInt32BE_int32BE (v : Z) :
  is_int32 v -> readInt32BE (int32BE v) 0 = Ok v.
Proof.
  unfold is_int32, INT32_MIN, INT32_MAX. intros Hv.
  unfold readInt32BE, int32BE. simpl drop. cbv beta iota zeta.
  rewrite !Z_of_byte_of_Z, !land_255, int32_bytes_sum.
  f_equal. destruct (Z.ltb_spec 2147483647 (v mod 4294967296)) as [H|H];
    revert H; Z.div_mod_to_equations; lia.
Qed.

Lemma toSignedInt32_int32 (v : Z) : is_int32 v -> toSignedInt32 v = v.
Proof.
  unfold is_int32, INT32_MAX, toSignedInt32. intros Hv.
  destruct (Z.ltb_spec 2147483647 v); [lia | reflexivity].
Qed.

Lemma signedInt32Buffer_int32 (v : Z) :
  is_int32 v -> signedInt32Buffer v = Ok (int32BE v).
Proof.
  intros Hv. unfold signedInt32Buffer. rewrite toSignedInt32_int32 by exact Hv.
  unfold writeInt32BE. unfold is_int32 in Hv.
  destruct (Z.ltb_spec v INT32_MIN); [lia|].
  destruct (Z.ltb_spec INT32_MAX v); [lia|]. reflexivity.
Qed.

Lemma incrementSignedInt32_spec (seq : Z) :
  is_int32 seq ->
  incrementSignedInt32 seq
  = (if decide (seq = 0x7fffffff) then -0x80000000 else seq + 1)
  /\ is_int32 (incrementSignedInt32 seq).
Proof.
  unfold is_int32, INT32_MIN, INT32_MAX, incrementSignedInt32. intros Hs.
  destruct (Z.leb_spec 2147483647 seq); destruct (decide (seq = 2147483647));
    split; lia.
Qed.

(** * Properties of the KLAP transport *)

Module KlapFacts.
Import Klap.

Section Framing.
Context `{RT : Runtime}.

(** What [encryptKlapPayload] computes once the sequence number is known
    to be a signed 32-bit integer. *)
Lemma encryptKlapPayload_unfold (session : KlapEncryptionSession)
  (message : string) :
  is_int32 session.(sequence) ->
  let seq' := incrementSignedInt32 session.(sequence) in
  encryptKlapPayload session message
  = (ciphertext ← aes_128_cbc_encrypt session.(key)
                    (session.(ivPrefix) ++ int32BE seq') (from_utf8 message);
     Ok {| enc_payload :=
             sha256 (session.(signaturePrefix) ++ int32BE seq' ++ ciphertext)
             ++ ciphertext;
           enc_seq := seq' |}).
Proof.
  intros Hseq seq'. unfold encryptKlapPayload.
  destruct (incrementSignedInt32_spec _ Hseq) as [_ Hnext].
  fold seq'. rewrite (signedInt32Buffer_int32 seq' Hnext). reflexivity.
Qed.

(** One run of [sendEncryptedRequest] on a live session, in terms of the
    reply to the request it posts. *)
Lemma sendEncryptedRequest_run (session : KlapEncryptionSession)
  (encrypted : KlapEncrypted) (message : string) (timeout : Z) (st : State) :
  st.(Klap.session) = Some session ->
  encryptKlapPayload session message = Ok encrypted ->
  let session' := set_sequence session encrypted.(enc_seq) in
  let st1 := set_session_fields (Some session') st.(sessionCookie)
               st.(sessionExpiresAt) st in
  sendEncryptedRequest message timeout st
  = match post "/app/request" encrypted.(enc_payload) timeout
            {| query := Some [("seq", encrypted.(enc_seq))];
               cookie := st.(sessionCookie) |} st1 with
    | (Ok requestResponse, st2) =>
        if decide (requestResponse.(statusCode) = 403)
        then (Throw (Error "request rejected by device security policy"
                       (Some 403) None), st2)
        else if decide (requestResponse.(statusCode) ≠ 200)
        then (Throw (plainError "request failed with status"), st2)
        else (decryptKlapPayload session' requestResponse.(body)
                encrypted.(enc_seq), st2)
    | (Throw error, st2) => (Throw error, st2)
    end.
Proof.
  intros Hsession Henc session' st1.
  unfold sendEncryptedRequest, mbind, M_bind, gets, lift, modify, throw.
  rewrite Hsession, Henc. fold session'. simpl. fold st1.
  change (KLAP_PROTOCOL_PATH +:+ "/request") with "/app/request".
  destruct (post _ _ _ _ st1) as [[requestResponse|error] st2];
    [|reflexivity].
  destruct (decide (statusCode requestResponse = 403)); [reflexivity|].
  destruct (decide (statusCode requestResponse ≠ 200)); reflexivity.
Qed.

Lemma post_requests (path : string) (data : bytes) (timeout : Z)
  (options : KlapRequestOptions) (st : State) :
  let st' := (post path data timeout options st).2 in
  st'.(requests) = st.(requests) ++ [ {| req_path := path; req_data := data;
                                         req_options := options |} ]
  /\ st'.(Klap.session) = st.(Klap.session)
  /\ st'.(sessionCookie) = st.(sessionCookie)
  /\ st'.(sessionExpiresAt) = st.(sessionExpiresAt).
Proof.
  unfold post. destruct (replies st) as [|[response|message] rest]; simpl;
    repeat split; reflexivity.
Qed.

(** C7. For a session whose sequence number [seq] is a signed 32-bit
    integer, the next request uses [seq + 1], or [-0x80000000] when [seq] is
    [0x7FFFFFFF]; that number is again a signed 32-bit integer; the IV given
    to the cipher is the IV prefix followed by the four big-endian
    two's-complement bytes of the new number, so these are its last four
    bytes; and the request that [sendEncryptedRequest] posts carries the new
    number as its [seq] query parameter. *)
Theorem klap_sequence_increment_and_iv (session : KlapEncryptionSession)
  (message : string) (timeout : Z) (st : State) :
  is_int32 session.(sequence) ->
  let seq' := if decide (session.(sequence) = 0x7fffffff)
              then -0x80000000 else session.(sequence) + 1 in
  let iv := session.(ivPrefix) ++ int32BE seq' in
  is_int32 seq'
  /\ drop (length iv - 4) iv = int32BE seq'
  /\ readInt32BE iv (length iv - 4) = Ok seq'
  /\ encryptKlapPayload session message
     = (ciphertext ← aes_128_cbc_encrypt session.(key) iv (from_utf8 message);
        Ok {| enc_payload :=
                sha256 (session.(signaturePrefix) ++ int32BE seq'
                        ++ ciphertext) ++ ciphertext;
              enc_seq := seq' |})
  /\ (forall encrypted,
        encryptKlapPayload session message = Ok encrypted ->
        st.(Klap.session) = Some session ->
        let st' := (sendEncryptedRequest message timeout st).2 in
        st'.(requests)
        = st.(requests)
          ++ [ {| req_path := "/app/request";
                  req_data := encrypted.(enc_payload);
                  req_options :=
                    {| query := Some [("seq", seq')];
                       cookie := st.(sessionCookie) |} |} ]
        /\ st'.(Klap.session) = Some (set_sequence session seq')).
Proof.
  intros Hseq seq' iv.
  destruct (incrementSignedInt32_spec _ Hseq) as [Hinc Hnext].
  fold seq' in Hinc. rewrite Hinc in Hnext.
  assert (Hiv : drop (length iv - 4) iv = int32BE seq').
  { unfold iv. rewrite length_app, int32BE_length.
    replace (length (ivPrefix session) + 4 - 4)%nat
      with (length (ivPrefix session)) by lia.
    apply drop_app_length. }
  split; [exact Hnext|]. split; [exact Hiv|]. split.
  { unfold readInt32BE. rewrite Hiv.
    apply (readInt32BE_int32BE seq' Hnext). }
  split.
  { rewrite (encryptKlapPayload_unfold session message Hseq).
    cbv zeta. rewrite Hinc. reflexivity. }
  intros encrypted Henc Hsession st'.
  assert (Hs : enc_seq encrypted = seq').
  { rewrite (encryptKlapPayload_unfold session message Hseq) in Henc.
    cbv zeta in Henc. rewrite Hinc in Henc.
    destruct (aes_128_cbc_encrypt _ _ _); simpl in Henc; [|discriminate].
    injection Henc as <-. reflexivity. }
  subst st'.
  rewrite (sendEncryptedRequest_run session encrypted message timeout st
             Hsession Henc).
  cbv zeta. rewrite Hs.
  match goal with
  | |- context [post ?p ?d ?t ?o ?s] =>
      pose proof (post_requests p d t o s) as Hpost;
      destruct (post p d t o s) as [[requestResponse|error] st2]
  end; cbv zeta in Hpost; simpl in Hpost;
    destruct Hpost as (Hreq & Hses & _ & _).
  - destruct (decide (statusCode requestResponse = 403));
      [|destruct (decide (statusCode requestResponse ≠ 200))];
      simpl; rewrite Hreq, Hses; split; reflexivity.
  - simpl. rewrite Hreq, Hses. split; reflexivity.
Qed.

(** C8. For a session with a 16-byte key, a 12-byte IV prefix and a
    signed 32-bit sequence number, and a runtime whose cipher decrypts what
    it encrypted and whose text decoding inverts its encoding,
    [encryptKlapPayload] yields a 32-byte signature followed by the
    ciphertext of the message, and [decryptKlapPayload] with the same
    session (before or after its sequence number was advanced) and the
    sequence number of that encryption returns the message; a payload of
    fewer than 32 bytes is rejected whatever the session and number. *)
Theorem klap_framing_round_trip (laws : RuntimeLaws)
  (session : KlapEncryptionSession) (message : string) :
  length session.(key) = 16%nat ->
  length session.(ivPrefix) = 12%nat ->
  is_int32 session.(sequence) ->
  (exists encrypted signature ciphertext,
     encryptKlapPayload session message = Ok encrypted
     /\ encrypted.(enc_payload) = signature ++ ciphertext
     /\ length signature = 32%nat
     /\ aes_128_cbc_encrypt session.(key)
          (session.(ivPrefix) ++ int32BE encrypted.(enc_seq))
          (from_utf8 message) = Ok ciphertext
     /\ decryptKlapPayload session encrypted.(enc_payload)
          encrypted.(enc_seq) = Ok message
     /\ decryptKlapPayload (set_sequence session encrypted.(enc_seq))
          encrypted.(enc_payload) encrypted.(enc_seq) = Ok message)
  /\ (forall (other : KlapEncryptionSession) (short : bytes) (seq : Z),
        (length short < 32)%nat ->
        decryptKlapPayload other short seq
        = Throw (plainError "KLAP response payload is too short")).
Proof.
  intros Hkey Hprefix Hseq. split.
  - destruct (incrementSignedInt32_spec _ Hseq) as [_ Hnext].
    set (seq' := incrementSignedInt32 (sequence session)) in *.
    assert (Hivlen : length (ivPrefix session ++ int32BE seq') = 16%nat).
    { rewrite length_app, int32BE_length, Hprefix. reflexivity. }
    destruct (aes_encrypt_defined laws (key session)
                (ivPrefix session ++ int32BE seq') (from_utf8 message)
                Hkey Hivlen) as [ciphertext Hraw].
    assert (Hcipher : aes_128_cbc_encrypt (key session)
                        (ivPrefix session ++ int32BE seq')
                        (from_utf8 message) = Ok ciphertext).
    { unfold aes_128_cbc_encrypt. rewrite Hraw. reflexivity. }
    pose proof (encryptKlapPayload_unfold session message Hseq) as Henc.
    cbv zeta in Henc. fold seq' in Henc. rewrite Hcipher in Henc.
    simpl in Henc.
    eexists _, _, ciphertext. split; [exact Henc|]. simpl.
    split; [reflexivity|]. split; [apply (sha256_length laws)|].
    split; [exact Hcipher|].
    assert (Hdec : forall other, key other = key session ->
              ivPrefix other = ivPrefix session ->
              decryptKlapPayload other
                (sha256 (signaturePrefix session ++ int32BE seq' ++ ciphertext)
                 ++ ciphertext) seq' = Ok message).
    { intros other Hk Hp. unfold decryptKlapPayload.
      rewrite length_app, (sha256_length laws).
      destruct (Nat.ltb_spec (32 + length ciphertext) SIGNATURE_LENGTH)
        as [Hlt|_]; [unfold SIGNATURE_LENGTH in Hlt; lia|].
      rewrite (signedInt32Buffer_int32 seq' Hnext).
      unfold subarray_from, SIGNATURE_LENGTH.
      rewrite (drop_app_length' _ _ 32)
        by (symmetry; apply (sha256_length laws)).
      cbn [mbind outcome_bind]. rewrite Hk, Hp.
      unfold aes_128_cbc_decrypt.
      rewrite (aes_decrypt_encrypt laws _ _ _ _ Hraw). simpl.
      rewrite (utf8_round_trip laws). reflexivity. }
    split; apply Hdec; reflexivity.
  - intros other short seq Hshort. unfold decryptKlapPayload.
    destruct (Nat.ltb_spec (length short) SIGNATURE_LENGTH) as [_|Hge];
      [reflexivity | unfold SIGNATURE_LENGTH in Hge; lia].
Qed.

End Framing.

(** The example runtime satisfies the runtime laws. *)
Lemma toy_runtime_laws : @RuntimeLaws Toy.runtime.
Proof.
  split; simpl.
  - intros payload. unfold Toy.digest. apply length_resize.
  - intros key iv plain _ _. exists (key ++ iv ++ plain). reflexivity.
  - intros key iv plain cipher H. unfold Toy.wrap in H.
    injection H as <-. unfold Toy.unwrap.
    rewrite (app_assoc key iv plain), take_app_length, drop_app_length.
    rewrite decide_True by reflexivity. reflexivity.
  - apply string_of_list_byte_of_string.
Qed.

Lemma klap_sequence_increment_and_iv_witness :
  is_int32 (sequence Toy.klap_session)
  /\ let seqBytes := [x80; x00; x00; x00] in
     let ciphertext :=
       Toy.zeros 16 ++ (Toy.zeros 12 ++ seqBytes) ++ from_utf8 "{}" in
     encryptKlapPayload Toy.klap_session "{}"
     = Ok {| enc_payload :=
               sha256 (Toy.zeros 28 ++ seqBytes ++ ciphertext) ++ ciphertext;
             enc_seq := -0x80000000 |}.
Proof.
  assert (H : is_int32 (sequence Toy.klap_session))
    by (unfold is_int32, INT32_MIN, INT32_MAX; simpl; lia).
  split; [exact H|].
  destruct (klap_sequence_increment_and_iv Toy.klap_session "{}" 0
              {| Klap.session := None; sessionCookie := None;
                 sessionExpiresAt := 0; requests := []; replies := [];
                 clock := fun _ => 0; ticks := 0%nat;
                 entropy := fun _ => []; draws := 0%nat |} H)
    as (_ & _ & _ & Henc & _).
  rewrite Henc. vm_compute. reflexivity.
Defined.

Lemma klap_framing_round_trip_witness :
  exists encrypted,
    encryptKlapPayload Toy.klap_session "{}" = Ok encrypted
    /\ decryptKlapPayload Toy.klap_session encrypted.(enc_payload)
         encrypted.(enc_seq) = Ok "{}".
Proof.
  destruct (klap_framing_round_trip toy_runtime_laws Toy.klap_session "{}")
    as [(encrypted & sig & ct & Henc & _ & _ & _ & Hdec & _) _].
  - reflexivity.
  - reflexivity.
  - unfold is_int32, INT32_MIN, INT32_MAX; simpl; lia.
  - exists encrypted. split; [exact Henc | exact Hdec].
Defined.

Section Candidates.
Context `{RT : Runtime}.

Lemma byte_of_hex_of_byte (b : byte) : byte_of_hex (hex_of_byte b) = b.
Proof. destruct b; reflexivity. Qed.

Lemma toString_hex_inj (a b : bytes) :
  toString_hex a = toString_hex b -> a = b.
Proof.
  revert b. induction a as [|x a IH]; intros [|y b] H.
  - reflexivity.
  - discriminate H.
  - discriminate H.
  - simpl in H. injection H as Hhi Hlo Hrest.
    f_equal; [|apply IH; exact Hrest].
    rewrite <- (byte_of_hex_of_byte x), <- (byte_of_hex_of_byte y).
    unfold hex_of_byte. rewrite Hhi, Hlo. reflexivity.
Qed.

Lemma candidate_key_inj (va vb : KlapHashVersion) (ha hb : bytes) :
  candidate_key va ha = candidate_key vb hb <-> va = vb /\ ha = hb.
Proof.
  split.
  - unfold candidate_key. intros H.
    destruct va, vb; simpl in H; try discriminate H;
      injection H as H; apply toString_hex_inj in H; auto.
  - intros [-> ->]. reflexivity.
Qed.

Lemma addCandidate_fold (candidates : list KlapAuthCandidate)
  (acc : candidate_acc) (pairs : list (KlapHashVersion * bytes)) :
  seen_agrees acc.2 pairs ->
  (foldl (fun acc c => addCandidate c.(label) c.(version) c.(authHash) acc)
     acc candidates).1
  = acc.1 ++ dedup_from pairs candidates.
Proof.
  revert acc pairs.
  induction candidates as [|c rest IH]; intros [kept seen] pairs Hagree.
  - simpl. rewrite app_nil_r. reflexivity.
  - simpl in *. unfold addCandidate at 2. simpl.
    destruct (decide (candidate_key (version c) (authHash c) ∈ seen))
      as [Hin|Hnot];
      destruct (decide ((version c, authHash c) ∈ pairs)) as [Hin'|Hnot'].
    + apply (IH (kept, seen) pairs Hagree).
    + exfalso. apply Hnot', Hagree, Hin.
    + exfalso. apply Hnot, Hagree, Hin'.
    + destruct c as [l v h]. simpl in *.
      rewrite (IH (kept ++ [ {| label := l; version := v; authHash := h |} ],
                   {[ candidate_key v h ]} ∪ seen) ((v, h) :: pairs)).
      * simpl. rewrite <- app_assoc. reflexivity.
      * intros v' h'. simpl. rewrite elem_of_union, elem_of_singleton,
          elem_of_cons, candidate_key_inj, (Hagree v' h').
        split; intros [H|H]; auto.
        -- left. destruct H as [-> ->]. reflexivity.
        -- left. injection H as -> ->. auto.
Qed.

Lemma buildAuthCandidates_fold (this : Options) :
  buildAuthCandidates this
  = match this.(credentialsHash) with
    | Some hash =>
        if decide (length (from_base64 hash) = 0%nat)
        then Throw (TypeError
          "credentialsHash must be a valid base64 encoded KLAP auth hash")
        else Ok (foldl (fun acc c =>
                          addCandidate c.(label) c.(version) c.(authHash) acc)
                   ([], ∅) (candidate_order this)).1
    | None =>
        Ok (foldl (fun acc c =>
                     addCandidate c.(label) c.(version) c.(authHash) acc)
              ([], ∅) (candidate_order this)).1
    end.
Proof.
  destruct this as [[creds|] [hash|]];
    cbv beta iota zeta delta [buildAuthCandidates candidate_order
      credential_pair candidate_pair addCredentialPair
      DEFAULT_CREDENTIALS_BASE64 kasa_defaults tapo_defaults foldl app
      fst snd label version authHash credentials credentialsHash
      mbind outcome_bind];
    try destruct (decide (length (from_base64 hash) = 0%nat));
    reflexivity.
Qed.

Lemma selectAuthCandidate_loop_spec (candidates : list KlapAuthCandidate)
  (localSeed remoteSeed serverHash : bytes) :
  match selectAuthCandidate_loop candidates localSeed remoteSeed serverHash
  with
  | Ok candidate =>
      exists before after,
        candidates = before ++ candidate :: after
        /\ challenge_of localSeed remoteSeed candidate = serverHash
        /\ Forall (fun earlier =>
                     challenge_of localSeed remoteSeed earlier <> serverHash)
             before
  | Throw error =>
      error = plainError "authentication failed (challenge mismatch)"
      /\ Forall (fun candidate =>
                   challenge_of localSeed remoteSeed candidate <> serverHash)
           candidates
  end.
Proof.
  assert (Hch : forall c, handshake1SeedAuthHash localSeed remoteSeed
                            (authHash c) (version c)
                          = challenge_of localSeed remoteSeed c).
  { intros c. unfold handshake1SeedAuthHash, challenge_of.
    destruct (version c); reflexivity. }
  induction candidates as [|c rest IH]; simpl.
  - split; [reflexivity | constructor].
  - rewrite Hch.
    destruct (decide (challenge_of localSeed remoteSeed c = serverHash))
      as [Heq|Hne].
    + exists [], rest. repeat split; [exact Heq | constructor].
    + destruct (selectAuthCandidate_loop rest localSeed remoteSeed serverHash)
        as [found|error].
      * destruct IH as (before & after & -> & Hfound & Hbefore).
        exists (c :: before), after. repeat split; [exact Hfound|].
        constructor; assumption.
      * destruct IH as [-> Hall]. split; [reflexivity|].
        constructor; assumption.
Qed.

(** C6. Unless a configured credentialsHash decodes to no bytes (then a
    TypeError is raised), [buildAuthCandidates] returns the list
    credentialsHash (v2, v1), user credentials (v2, v1), KASA defaults
    (v2, v1), TAPO defaults (v2, v1), blank (v2, v1), without the candidates
    whose version and hash repeat an earlier one.  [selectAuthCandidate]
    returns the first candidate of that list whose challenge (v2:
    sha256(localSeed ‖ remoteSeed ‖ authHash), v1: sha256(localSeed ‖
    authHash)) equals the server hash, and raises the authentication-failed
    error when no candidate's challenge does. *)
Theorem klap_candidate_selection (this : Options)
  (localSeed remoteSeed serverHash : bytes) :
  let candidates := dedup_by_version_hash (candidate_order this) in
  match this.(credentialsHash) with
  | Some hash => from_base64 hash <> []
  | None => True
  end ->
  buildAuthCandidates this = Ok candidates
  /\ match selectAuthCandidate this localSeed remoteSeed serverHash with
     | Ok candidate =>
         exists before after,
           candidates = before ++ candidate :: after
           /\ challenge_of localSeed remoteSeed candidate = serverHash
           /\ Forall (fun earlier =>
                        challenge_of localSeed remoteSeed earlier
                        <> serverHash) before
     | Throw error =>
         error = plainError "authentication failed (challenge mismatch)"
         /\ Forall (fun candidate =>
                      challenge_of localSeed remoteSeed candidate
                      <> serverHash) candidates
     end.
Proof.
  intros candidates Hhash.
  assert (Hbuild : buildAuthCandidates this = Ok candidates).
  { rewrite buildAuthCandidates_fold.
    rewrite (addCandidate_fold (candidate_order this) ([], ∅) []).
    - simpl. fold (dedup_by_version_hash (candidate_order this)).
      fold candidates.
      destruct (credentialsHash this) as [hash|]; [|reflexivity].
      destruct (decide (length (from_base64 hash) = 0%nat)) as [Hlen|];
        [|reflexivity].
      destruct (from_base64 hash); [contradiction | discriminate Hlen].
    - intros v h. simpl. rewrite elem_of_nil. set_solver. }
  split; [exact Hbuild|].
  unfold selectAuthCandidate. rewrite Hbuild. simpl.
  apply selectAuthCandidate_loop_spec.
Qed.

End Candidates.

Section Sessions.
Context `{RT : Runtime}.

Ltac run_klap H :=
  cbv beta iota zeta delta [ensureSession isSessionExpired resetSession
    randomBytes Date_now post mbind M_bind mret M_ret gets modify lift throw
    set_session_fields no_options
    Klap.session sessionCookie sessionExpiresAt requests replies clock ticks
    entropy draws] in H.

Ltac handshake1_posted :=
  refine (ex_intro _ {| req_path := "/app/handshake1"; req_data := _;
                        req_options := _ |} _);
  split; [reflexivity|].

Ltac fail_after_handshake1 H :=
  injection H as <- <-;
  handshake1_posted; left;
  eexists; split; [reflexivity|]; split; [first [reflexivity|assumption]|];
  split; [reflexivity|]; left; reflexivity.

Ltac handshake2_posted :=
  refine (ex_intro _ {| req_path := "/app/handshake2"; req_data := _;
                        req_options := _ |} _).

Ltac fail_after_handshake2 H :=
  injection H as <- <-;
  handshake1_posted; left;
  eexists; split; [reflexivity|]; split; [first [reflexivity|assumption]|];
  split; [reflexivity|]; right;
  handshake2_posted; split; [reflexivity|];
  cbn; rewrite <- app_assoc; reflexivity.

Lemma buildAuthCandidates_error (this : Options) (error : exn) :
  buildAuthCandidates this = Throw error -> error_statusCode error = None.
Proof.
  rewrite buildAuthCandidates_fold.
  destruct (credentialsHash this) as [hash|]; [|discriminate].
  destruct (decide _); [|discriminate].
  intros H. injection H as <-. reflexivity.
Qed.

Lemma selectAuthCandidate_error (this : Options)
  (localSeed remoteSeed serverHash : bytes) (error : exn) :
  selectAuthCandidate this localSeed remoteSeed serverHash = Throw error ->
  error_statusCode error = None.
Proof.
  unfold selectAuthCandidate.
  destruct (buildAuthCandidates this) as [candidates|e] eqn:Hbuild;
    cbn [mbind outcome_bind].
  - intros H.
    pose proof (selectAuthCandidate_loop_spec candidates localSeed remoteSeed
                  serverHash) as Hloop.
    rewrite H in Hloop. destruct Hloop as [-> _]. reflexivity.
  - intros H. injection H as <-.
    apply (buildAuthCandidates_error this e Hbuild).
Qed.

Lemma createKlapEncryptionSession_error (localSeed remoteSeed hash : bytes)
  (error : exn) :
  createKlapEncryptionSession localSeed remoteSeed hash = Throw error ->
  error_statusCode error = None.
Proof.
  unfold createKlapEncryptionSession, readInt32BE.
  destruct (drop _ _) as [|b0 [|b1 [|b2 [|b3 tl]]]];
    cbn [mbind outcome_bind]; intros H; try discriminate H;
    injection H as <-; reflexivity.
Qed.

Lemma ensureSession_fresh (this : Options) (timeout : Z) (st st' : State)
  (r : outcome unit) :
  st.(session) = None ->
  ensureSession this timeout st = (r, st') ->
  exists h1req,
    h1req.(req_path) = "/app/handshake1"
    /\ ((exists error,
           r = Throw error /\ error_statusCode error = None
           /\ st'.(session) = None
           /\ (st'.(requests) = st.(requests) ++ [h1req]
               \/ exists h2req,
                    h2req.(req_path) = "/app/handshake2"
                    /\ st'.(requests) = st.(requests) ++ [h1req; h2req]))
        \/ (exists h2req h1 rest newSession,
              r = Ok tt
              /\ h2req.(req_path) = "/app/handshake2"
              /\ st'.(requests) = st.(requests) ++ [h1req; h2req]
              /\ st.(replies) = Response h1 :: rest
              /\ st'.(session) = Some newSession
              /\ st'.(ticks) = S st.(ticks)
              /\ st'.(clock) = st.(clock)
              /\ st'.(sessionExpiresAt)
                 = st.(clock) st.(ticks)
                   + adjustedSessionSeconds
                       (timeoutSeconds_of
                          (getCookieValue (parseSetCookie h1.(headers))
                             TIMEOUT_COOKIE_NAME)) * 1000)).
Proof.
  intros Hsession H.
  destruct st as [ses cookie0 expires reqs reps clk tks ent drw].
  cbn [Klap.session] in Hsession. subst ses.
  run_klap H.
  destruct reps as [|[h1|message] rest]; run_klap H;
    [fail_after_handshake1 H | | fail_after_handshake1 H].
  destruct (decide (statusCode h1 ≠ 200)); [fail_after_handshake1 H|].
  destruct (length (body h1) <? 48)%nat; [fail_after_handshake1 H|].
  destruct (decide (length (subarray_from (body h1) 16) ≠ 32%nat));
    [fail_after_handshake1 H|].
  destruct (selectAuthCandidate _ _ _ _) as [matched|error] eqn:Hselect;
    [|pose proof (selectAuthCandidate_error _ _ _ _ _ Hselect);
      fail_after_handshake1 H].
  run_klap H.
  destruct rest as [|[h2|message] rest]; run_klap H;
    [fail_after_handshake2 H | | fail_after_handshake2 H].
  destruct (decide (statusCode h2 ≠ 200)); [fail_after_handshake2 H|].
  destruct (createKlapEncryptionSession _ _ _) as [newSession|error]
    eqn:Hcreate;
    [|pose proof (createKlapEncryptionSession_error _ _ _ _ Hcreate);
      fail_after_handshake2 H].
  run_klap H. injection H as <- <-.
  handshake1_posted. right.
  handshake2_posted. exists h1. eexists. exists newSession. cbn.
  rewrite <- app_assoc. repeat split; reflexivity.
Qed.

(** A stale session is dropped: [ensureSession] then runs as it does
    without a session, after the clock reading that found it expired. *)
Lemma ensureSession_stale (this : Options) (timeout : Z) (st : State)
  (current : KlapEncryptionSession) :
  st.(session) = Some current ->
  (st.(sessionExpiresAt) = 0
   /\ ensureSession this timeout st
      = ensureSession this timeout (set_session_fields None None 0 st))
  \/ (st.(sessionExpiresAt) <> 0
      /\ st.(sessionExpiresAt) <= st.(clock) st.(ticks)
      /\ ensureSession this timeout st
         = ensureSession this timeout
             (set_session_fields None None 0 (Date_now st).2))
  \/ (st.(sessionExpiresAt) <> 0
      /\ st.(clock) st.(ticks) < st.(sessionExpiresAt)
      /\ ensureSession this timeout st = (Ok tt, (Date_now st).2)).
Proof.
  intros Hsession.
  destruct st as [ses cookie0 expires reqs reps clk tks ent drw].
  cbn [Klap.session] in Hsession. subst ses.
  cbn [sessionExpiresAt clock ticks].
  destruct (decide (expires = 0)) as [Hzero|Hnonzero].
  - left. split; [exact Hzero|]. subst expires. reflexivity.
  - right. destruct (Z.leb_spec expires (clk tks)) as [Hle|Hgt].
    + left. split; [exact Hnonzero|]. split; [exact Hle|].
      cbv beta iota zeta delta [ensureSession isSessionExpired resetSession
        Date_now mbind M_bind mret M_ret gets modify set_session_fields
        Klap.session sessionCookie sessionExpiresAt requests replies clock
        ticks entropy draws snd].
      destruct (decide (expires = 0)); [contradiction|].
      cbv beta iota.
      destruct (Z.leb_spec expires (clk tks)); [|lia].
      reflexivity.
    + right. split; [exact Hnonzero|]. split; [exact Hgt|].
      cbv beta iota zeta delta [ensureSession isSessionExpired resetSession
        Date_now mbind M_bind mret M_ret gets modify set_session_fields
        Klap.session sessionCookie sessionExpiresAt requests replies clock
        ticks entropy draws snd].
      destruct (decide (expires = 0)); [contradiction|].
      cbv beta iota.
      destruct (Z.leb_spec expires (clk tks)); [lia|].
      reflexivity.
Qed.

(** The two ways [ensureSession] can go: the live session is kept and
    nothing is posted; or the session is reset and a handshake is
    attempted, which posts [handshake1] and, if that went well,
    [handshake2], fails with an error that has no [statusCode] and leaves
    the session reset, or succeeds and stores a session whose expiry is
    computed from the TIMEOUT cookie of the [handshake1] response and the
    clock reading taken last. *)
Lemma ensureSession_inv (this : Options) (timeout : Z) (st st' : State)
  (r : outcome unit) :
  ensureSession this timeout st = (r, st') ->
  (r = Ok tt /\ is_Some st.(session) /\ st'.(requests) = st.(requests)
   /\ st'.(session) = st.(session)
   /\ st'.(sessionCookie) = st.(sessionCookie)
   /\ st'.(sessionExpiresAt) = st.(sessionExpiresAt)
   /\ st'.(replies) = st.(replies))
  \/ (exists h1req,
        h1req.(req_path) = "/app/handshake1"
        /\ ((exists error,
               r = Throw error /\ error_statusCode error = None
               /\ st'.(session) = None
               /\ (st'.(requests) = st.(requests) ++ [h1req]
                   \/ exists h2req,
                        h2req.(req_path) = "/app/handshake2"
                        /\ st'.(requests) = st.(requests) ++ [h1req; h2req]))
            \/ (exists h2req h1 rest newSession,
                  r = Ok tt
                  /\ h2req.(req_path) = "/app/handshake2"
                  /\ st'.(requests) = st.(requests) ++ [h1req; h2req]
                  /\ st.(replies) = Response h1 :: rest
                  /\ st'.(session) = Some newSession
                  /\ (0 < st'.(ticks))%nat
                  /\ st'.(clock) = st.(clock)
                  /\ st'.(sessionExpiresAt)
                     = st.(clock) (st'.(ticks) - 1)%nat
                       + adjustedSessionSeconds
                           (timeoutSeconds_of
                              (getCookieValue (parseSetCookie h1.(headers))
                                 TIMEOUT_COOKIE_NAME)) * 1000))).
Proof.
  assert (Hfresh : forall st0,
            st0.(session) = None -> st0.(requests) = st.(requests) ->
            st0.(replies) = st.(replies) -> st0.(clock) = st.(clock) ->
            ensureSession this timeout st0 = (r, st') ->
            exists h1req,
              h1req.(req_path) = "/app/handshake1"
              /\ ((exists error,
                     r = Throw error /\ error_statusCode error = None
                     /\ st'.(session) = None
                     /\ (st'.(requests) = st.(requests) ++ [h1req]
                         \/ exists h2req,
                              h2req.(req_path) = "/app/handshake2"
                              /\ st'.(requests)
                                 = st.(requests) ++ [h1req; h2req]))
                  \/ (exists h2req h1 rest newSession,
                        r = Ok tt
                        /\ h2req.(req_path) = "/app/handshake2"
                        /\ st'.(requests) = st.(requests) ++ [h1req; h2req]
                        /\ st.(replies) = Response h1 :: rest
                        /\ st'.(session) = Some newSession
                        /\ (0 < st'.(ticks))%nat
                        /\ st'.(clock) = st.(clock)
                        /\ st'.(sessionExpiresAt)
                           = st.(clock) (st'.(ticks) - 1)%nat
                             + adjustedSessionSeconds
                                 (timeoutSeconds_of
                                    (getCookieValue
                                       (parseSetCookie h1.(headers))
                                       TIMEOUT_COOKIE_NAME)) * 1000))).
  { intros st0 Hnone Hreq Hrep Hclk Hrun.
    destruct (ensureSession_fresh this timeout st0 st' r Hnone Hrun)
      as (h1req & Hpath & Hcases).
    exists h1req. split; [exact Hpath|].
    rewrite <- Hreq, <- Hrep, <- Hclk.
    destruct Hcases as [(error & Hr & Hcode & Hses & Hposted)|
                        (h2req & h1 & rest & newSession & Hr & Hpath2 & Hposted
                         & Hreplies & Hses & Hticks & Hclock & Hexp)].
    - left. exists error. auto.
    - right. exists h2req, h1, rest, newSession.
      repeat split; try assumption.
      + lia.
      + rewrite Hexp, Hticks. simpl. rewrite Nat.sub_0_r. reflexivity. }
  intros Hrun.
  destruct (session st) as [current|] eqn:Hsession.
  - destruct (ensureSession_stale this timeout st current Hsession)
      as [[Hzero Heq]|[(Hnz & Hle & Heq)|(Hnz & Hgt & Heq)]];
      rewrite Heq in Hrun.
    + right. apply (Hfresh (set_session_fields None None 0 st)
                      eq_refl eq_refl eq_refl eq_refl Hrun).
    + right. apply (Hfresh (set_session_fields None None 0 (Date_now st).2)
                      eq_refl eq_refl eq_refl eq_refl Hrun).
    + left. injection Hrun as <- <-. rewrite Hsession.
      repeat split; try reflexivity. eexists; reflexivity.
  - right. apply (Hfresh st Hsession eq_refl eq_refl eq_refl Hrun).
Qed.

Lemma encryptKlapPayload_error (session : KlapEncryptionSession)
  (message : string) (error : exn) :
  encryptKlapPayload session message = Throw error ->
  error_statusCode error = None.
Proof.
  unfold encryptKlapPayload, signedInt32Buffer, writeInt32BE,
    aes_128_cbc_encrypt.
  destruct (_ || _); cbn [mbind outcome_bind].
  - intros H. injection H as <-. reflexivity.
  - destruct (aes_encrypt _ _ _); cbn [or_throw mbind outcome_bind];
      intros H; [discriminate H | injection H as <-; reflexivity].
Qed.

Lemma decryptKlapPayload_error (session : KlapEncryptionSession)
  (message : bytes) (seq : Z) (error : exn) :
  decryptKlapPayload session message seq = Throw error ->
  error_statusCode error = None.
Proof.
  unfold decryptKlapPayload, signedInt32Buffer, writeInt32BE,
    aes_128_cbc_decrypt.
  destruct (_ <? _)%nat.
  - intros H. injection H as <-. reflexivity.
  - destruct (_ || _); cbn [mbind outcome_bind].
    + intros H. injection H as <-. reflexivity.
    + destruct (aes_decrypt _ _ _); cbn [or_throw mbind outcome_bind];
        intros H; [discriminate H | injection H as <-; reflexivity].
Qed.

(** One run of [sendEncryptedRequest]: either nothing is posted and the
    error has no [statusCode], or exactly one request goes to the data path
    and the reply decides the result: status 403 gives the error that
    carries [statusCode] 403, another status than 200 gives an error without
    [statusCode], as do a failed connection and a response that cannot be
    decrypted. *)
Lemma sendEncryptedRequest_inv (payload : string) (timeout : Z)
  (st st' : State) (r : outcome string) :
  sendEncryptedRequest payload timeout st = (r, st') ->
  (st'.(requests) = st.(requests)
   /\ exists error, r = Throw error /\ error_statusCode error = None)
  \/ (exists request,
        request.(req_path) = "/app/request"
        /\ st'.(requests) = st.(requests) ++ [request]
        /\ match st.(replies) with
           | Response response :: _ =>
               if decide (response.(statusCode) = 403)
               then r = Throw (Error
                        "request rejected by device security policy"
                        (Some 403) None)
               else if decide (response.(statusCode) = 200)
               then match r with
                    | Ok _ => True
                    | Throw error => error_statusCode error = None
                    end
               else r = Throw (plainError "request failed with status")
           | Failure message :: _ => r = Throw (plainError message)
           | [] => r = Throw (plainError "connect ECONNREFUSED")
           end).
Proof.
  intros Hrun.
  destruct (session st) as [current|] eqn:Hsession.
  - destruct (encryptKlapPayload current payload) as [encrypted|error]
      eqn:Henc.
    + rewrite (sendEncryptedRequest_run current encrypted payload timeout st
                 Hsession Henc) in Hrun.
      cbv zeta in Hrun. right.
      refine (ex_intro _ {| req_path := "/app/request"; req_data := _;
                            req_options := _ |} _).
      split; [reflexivity|].
      unfold post in Hrun. cbn [replies set_session_fields requests] in Hrun.
      destruct (replies st) as [|[response|message] rest].
      * injection Hrun as <- <-. split; reflexivity.
      * destruct (decide (statusCode response = 403)) as [H403|H403].
        -- injection Hrun as <- <-. split; reflexivity.
        -- destruct (decide (statusCode response ≠ 200)) as [H200|H200].
           ++ injection Hrun as <- <-. split; [reflexivity|].
              destruct (decide (statusCode response = 200));
                [contradiction | reflexivity].
           ++ injection Hrun as Hr <-. split; [reflexivity|].
              destruct (decide (statusCode response = 200)) as [_|Hno];
                [|exfalso; apply H200, Hno].
              destruct r as [text|error]; [exact I|].
              apply (decryptKlapPayload_error _ _ _ _ Hr).
      * injection Hrun as <- <-. split; reflexivity.
    + left.
      unfold sendEncryptedRequest, mbind, M_bind, gets, lift in Hrun.
      rewrite Hsession, Henc in Hrun. injection Hrun as <- <-.
      split; [reflexivity|]. exists error. split; [reflexivity|].
      apply (encryptKlapPayload_error _ _ _ Henc).
  - left.
    unfold sendEncryptedRequest, mbind, M_bind, gets, throw in Hrun.
    rewrite Hsession in Hrun. injection Hrun as <- <-.
    split; [reflexivity|]. eexists. split; reflexivity.
Qed.

Lemma data_posts_snoc (st st' : State) (request : KlapRequest) :
  st'.(requests) = st.(requests) ++ [request] ->
  data_posts st'
  = (data_posts st
     + if decide (request.(req_path) = "/app/request") then 1 else 0)%nat.
Proof.
  intros H. unfold data_posts. rewrite H, filter_app, length_app.
  f_equal. rewrite filter_cons, filter_nil.
  destruct (decide (req_path request = "/app/request")); reflexivity.
Qed.

(** A handshake posts nothing to the data path, and its errors carry no
    [statusCode]. *)
Lemma ensureSession_data_posts (this : Options) (timeout : Z)
  (st st' : State) (r : outcome unit) :
  ensureSession this timeout st = (r, st') ->
  data_posts st' = data_posts st
  /\ (forall error, r = Throw error -> error_statusCode error = None)
  /\ (r = Ok tt -> is_Some st'.(session)).
Proof.
  intros Hrun.
  assert (Hone : forall (h : KlapRequest) st1,
            req_path h = "/app/handshake1" \/ req_path h = "/app/handshake2" ->
            requests st1 = requests st ++ [h] ->
            data_posts st1 = data_posts st).
  { intros h st1 Hpath Hreq. rewrite (data_posts_snoc st st1 h Hreq).
    destruct (decide (req_path h = "/app/request")) as [Heq|_]; [|lia].
    destruct Hpath as [Hp|Hp]; rewrite Hp in Heq; discriminate Heq. }
  assert (Htwo : forall (h1 h2 : KlapRequest),
            req_path h1 = "/app/handshake1" ->
            req_path h2 = "/app/handshake2" ->
            requests st' = requests st ++ [h1; h2] ->
            data_posts st' = data_posts st).
  { intros h1 h2 Hp1 Hp2 Hreq. unfold data_posts.
    rewrite Hreq, filter_app, length_app, !filter_cons, filter_nil.
    destruct (decide (req_path h1 = "/app/request")) as [Heq|_];
      [rewrite Hp1 in Heq; discriminate Heq|].
    destruct (decide (req_path h2 = "/app/request")) as [Heq|_];
      [rewrite Hp2 in Heq; discriminate Heq|].
    simpl. lia. }
  destruct (ensureSession_inv this timeout st st' r Hrun)
    as [(Hr & Hsome & Hreq & Hses & _)|(h1req & Hp1 & Hcases)].
  - split; [unfold data_posts; rewrite Hreq; reflexivity|].
    split; [intros error He; rewrite Hr in He; discriminate He|].
    intros _. rewrite Hses. exact Hsome.
  - destruct Hcases as [(error & Hr & Hcode & _ & Hposted)|
                        (h2req & h1 & rest & newSession & Hr & Hp2 & Hreq & _
                         & Hses & _)].
    + split.
      * destruct Hposted as [Hreq|(h2req & Hp2 & Hreq)].
        -- apply (Hone h1req st'); [left; exact Hp1 | exact Hreq].
        -- apply (Htwo h1req h2req Hp1 Hp2 Hreq).
      * split; [|intros He; rewrite Hr in He; discriminate He].
        intros e He. rewrite Hr in He. injection He as <-. exact Hcode.
    + split; [apply (Htwo h1req h2req Hp1 Hp2 Hreq)|].
      split; [intros e He; rewrite Hr in He; discriminate He|].
      intros _. rewrite Hses. eexists; reflexivity.
Qed.

(** On a live session whose payload encrypts, exactly one request goes to
    the data path. *)
Lemma sendEncryptedRequest_posts (session : KlapEncryptionSession)
  (encrypted : KlapEncrypted) (payload : string) (timeout : Z) (st : State) :
  st.(Klap.session) = Some session ->
  encryptKlapPayload session payload = Ok encrypted ->
  data_posts (sendEncryptedRequest payload timeout st).2 = S (data_posts st).
Proof.
  intros Hsession Henc.
  rewrite (sendEncryptedRequest_run session encrypted payload timeout st
             Hsession Henc).
  cbv zeta.
  match goal with
  | |- context [post ?p ?d ?t ?o ?s] =>
      pose proof (post_requests p d t o s) as Hpost;
      destruct (post p d t o s) as [[requestResponse|error] st2]
  end; cbv zeta in Hpost; cbn [snd] in Hpost;
    destruct Hpost as (Hreq & _);
    cbn [requests set_session_fields] in Hreq.
  - assert (Hcount : data_posts st2 = S (data_posts st)).
    { unfold data_posts. rewrite Hreq, filter_app, length_app.
      rewrite filter_cons, filter_nil. cbn [req_path].
      destruct (decide ("/app/request" = "/app/request"));
        [simpl; lia | contradiction]. }
    destruct (decide (statusCode requestResponse = 403));
      [|destruct (decide (statusCode requestResponse ≠ 200))];
      exact Hcount.
  - unfold data_posts. cbn [snd]. rewrite Hreq, filter_app, length_app.
    rewrite filter_cons, filter_nil. cbn [req_path].
    destruct (decide ("/app/request" = "/app/request"));
      [simpl; lia | contradiction].
Qed.

Lemma send_unfold (this : Options) (payload : string) (timeout : Z)
  (st : State) :
  send this payload timeout st
  = match (ensureSession this timeout ≫= fun _ =>
           sendEncryptedRequest payload timeout) st with
    | (Ok response, st1) => (Ok response, st1)
    | (Throw error, st1) =>
        if decide (error_statusCode error = Some 403)
        then (ensureSession this timeout ≫= fun _ =>
              sendEncryptedRequest payload timeout)
               (set_session_fields None None 0 st1)
        else (Throw error, st1)
    end.
Proof.
  unfold send, try_catch.
  destruct ((ensureSession this timeout ≫= _) st) as [[response|error] st1];
    [reflexivity|].
  destruct (decide (error_statusCode error = Some 403)); reflexivity.
Qed.

(** One attempt, that is [ensureSession] followed by
    [sendEncryptedRequest]: at most one request reaches the data path, and
    an error that carries [statusCode] 403 can only be the answer 403 to
    that request. *)
Lemma attempt_inv (this : Options) (payload : string) (timeout : Z)
  (st st' : State) (r : outcome string) :
  (ensureSession this timeout ≫= fun _ =>
   sendEncryptedRequest payload timeout) st = (r, st') ->
  (data_posts st <= data_posts st' <= data_posts st + 1)%nat
  /\ (forall error,
        r = Throw error -> error_statusCode error = Some 403 ->
        data_posts st' = S (data_posts st)
        /\ exists st0 response rest,
             ensureSession this timeout st = (Ok tt, st0)
             /\ sendEncryptedRequest payload timeout st0 = (r, st')
             /\ st0.(replies) = Response response :: rest
             /\ response.(statusCode) = 403).
Proof.
  unfold mbind, M_bind.
  destruct (ensureSession this timeout st) as [[[]|error0] st0] eqn:Hensure.
  - intros Hsend.
    destruct (ensureSession_data_posts this timeout st st0 _ Hensure)
      as (Hposts & _ & _).
    destruct (sendEncryptedRequest_inv payload timeout st0 st' r Hsend)
      as [(Hreq & error & Hr & Hcode)|(request & Hpath & Hreq & Hreply)].
    + split; [unfold data_posts in *; rewrite Hreq; lia|].
      intros e He H403. rewrite Hr in He. injection He as <-.
      rewrite Hcode in H403. discriminate H403.
    + pose proof (data_posts_snoc st0 st' request Hreq) as Hcount.
      destruct (decide (req_path request = "/app/request")) as [_|Hno];
        [|contradiction].
      split; [lia|].
      intros err He H403. split; [lia|].
      exists st0. destruct (replies st0) as [|[response|message] rest].
      * rewrite Hreply in He. injection He as <-. discriminate H403.
      * exists response, rest. repeat split; try reflexivity; try assumption.
        destruct (decide (statusCode response = 403)) as [Hs|Hs];
          [exact Hs|].
        destruct (decide (statusCode response = 200)).
        -- rewrite He in Hreply. rewrite Hreply in H403. discriminate H403.
        -- rewrite Hreply in He. injection He as <-. discriminate H403.
      * rewrite Hreply in He. injection He as <-. discriminate H403.
  - intros H. injection H as <- <-.
    destruct (ensureSession_data_posts this timeout st st0 _ Hensure)
      as (Hposts & Herr & _).
    split; [lia|].
    intros e He H403. injection He as <-.
    rewrite (Herr error0 eq_refl) in H403. discriminate H403.
Qed.

(** C3. [send] makes one attempt (ensure a session, post the encrypted
    request).  A successful attempt is the result.  When the data-path
    request of the attempt is answered with HTTP 403, the session fields are
    reset, so that the second attempt starts with [handshake1], and the
    result of that second attempt is the result of [send], also when it is
    an error, a second 403 included; when that handshake succeeds the
    request is posted once more, which makes two data-path requests.  An error of the first attempt that is
    not that 403 (a failed handshake, whatever status it met, or a data-path
    status other than 200 and 403) is the result of [send] and nothing more
    is posted.  In all cases at most two requests go to the data path. *)
Theorem klap_send_retries_once (this : Options) (payload : string)
  (timeout : Z) (st : State) :
  let attempt := ensureSession this timeout ≫= fun _ =>
                 sendEncryptedRequest payload timeout in
  (forall response st1,
     attempt st = (Ok response, st1) ->
     send this payload timeout st = (Ok response, st1))
  /\ (forall st0 r st1 request response rest,
        ensureSession this timeout st = (Ok tt, st0) ->
        sendEncryptedRequest payload timeout st0 = (r, st1) ->
        st1.(requests) = st0.(requests) ++ [request] ->
        st0.(replies) = Response response :: rest ->
        response.(statusCode) = 403 ->
        let st2 := set_session_fields None None 0 st1 in
        (resetSession st1).2 = st2
        /\ send this payload timeout st = attempt st2
        /\ (exists h1req more,
              h1req.(req_path) = "/app/handshake1"
              /\ (ensureSession this timeout st2).2.(requests)
                 = st1.(requests) ++ h1req :: more)
        /\ (data_posts st + 1 <=
            data_posts (send this payload timeout st).2 <=
            data_posts st + 2)%nat
        /\ (forall st3 newSession encrypted,
              ensureSession this timeout st2 = (Ok tt, st3) ->
              st3.(Klap.session) = Some newSession ->
              encryptKlapPayload newSession payload = Ok encrypted ->
              data_posts (send this payload timeout st).2
              = (data_posts st + 2)%nat))
  /\ (forall error st1,
        attempt st = (Throw error, st1) ->
        error_statusCode error <> Some 403 ->
        send this payload timeout st = (Throw error, st1))
  /\ (forall error st1,
        ensureSession this timeout st = (Throw error, st1) ->
        send this payload timeout st = (Throw error, st1))
  /\ (forall st0 r st1 request response rest,
        ensureSession this timeout st = (Ok tt, st0) ->
        sendEncryptedRequest payload timeout st0 = (r, st1) ->
        st1.(requests) = st0.(requests) ++ [request] ->
        st0.(replies) = Response response :: rest ->
        response.(statusCode) <> 403 ->
        response.(statusCode) <> 200 ->
        send this payload timeout st
        = (Throw (plainError "request failed with status"), st1)
        /\ data_posts st1 = S (data_posts st))
  /\ (data_posts (send this payload timeout st).2 <= data_posts st + 2)%nat.
Proof.
  intros attempt.
  assert (Hposted : forall st0 r st1 request,
            sendEncryptedRequest payload timeout st0 = (r, st1) ->
            st1.(requests) = st0.(requests) ++ [request] ->
            match st0.(replies) with
            | Response response :: _ =>
                if decide (response.(statusCode) = 403)
                then r = Throw (Error
                         "request rejected by device security policy"
                         (Some 403) None)
                else if decide (response.(statusCode) = 200)
                then match r with
                     | Ok _ => True
                     | Throw error => error_statusCode error = None
                     end
                else r = Throw (plainError "request failed with status")
            | Failure message :: _ => r = Throw (plainError message)
            | [] => r = Throw (plainError "connect ECONNREFUSED")
            end
            /\ data_posts st1 = S (data_posts st0)).
  { intros st0 r st1 request Hsend Hreq.
    destruct (sendEncryptedRequest_inv payload timeout st0 st1 r Hsend)
      as [(Hsame & _)|(request' & Hpath & Hreq' & Hreply)].
    - rewrite Hsame in Hreq.
      apply (f_equal length) in Hreq. rewrite length_app in Hreq.
      simpl in Hreq. lia.
    - split; [exact Hreply|].
      rewrite (data_posts_snoc st0 st1 request' Hreq').
      destruct (decide (req_path request' = "/app/request"));
        [lia | contradiction]. }
  assert (Hbound : (data_posts (send this payload timeout st).2
                    <= data_posts st + 2)%nat).
  { rewrite send_unfold. fold attempt.
    destruct (attempt st) as [[response|error] st1] eqn:Hfirst.
    - destruct (attempt_inv this payload timeout st st1 _ Hfirst) as [H _].
      simpl. lia.
    - destruct (attempt_inv this payload timeout st st1 _ Hfirst) as [H _].
      destruct (decide (error_statusCode error = Some 403)); [|simpl; lia].
      destruct (attempt (set_session_fields None None 0 st1))
        as [r2 st3] eqn:Hsecond.
      destruct (attempt_inv this payload timeout _ st3 _ Hsecond) as [H2 _].
      change (data_posts (set_session_fields None None 0 st1))
        with (data_posts st1) in H2.
      simpl. lia. }
  split; [|split; [|split; [|split; [|split]]]].
  - intros response st1 Hfirst. rewrite send_unfold. fold attempt.
    rewrite Hfirst. reflexivity.
  - intros st0 r st1 request response rest Hensure Hsend Hreq Hreplies H403
      st2.
    destruct (Hposted st0 r st1 request Hsend Hreq) as [Hreply Hcount].
    rewrite Hreplies in Hreply.
    destruct (decide (statusCode response = 403)); [|contradiction].
    assert (Hfirst : attempt st
                     = (Throw (Error
                          "request rejected by device security policy"
                          (Some 403) None), st1)).
    { unfold attempt, mbind, M_bind. rewrite Hensure, Hsend, Hreply.
      reflexivity. }
    assert (Hsendeq : send this payload timeout st = attempt st2).
    { rewrite send_unfold. fold attempt. rewrite Hfirst. reflexivity. }
    split; [reflexivity|]. split; [exact Hsendeq|]. split.
    + destruct (ensureSession this timeout st2) as [r3 st3] eqn:Hagain.
      destruct (ensureSession_fresh this timeout st2 st3 r3 eq_refl Hagain)
        as (h1req & Hpath & Hcases).
      exists h1req.
      destruct Hcases as [(error & _ & _ & _ & [Hq|(h2req & _ & Hq)])|
                          (h2req & h1 & rest' & newSession & _ & _ & Hq & _)];
        eexists; (split; [exact Hpath|]); simpl; rewrite Hq; reflexivity.
    + destruct (ensureSession_data_posts this timeout st st0 _ Hensure)
        as (Hposts & _ & _).
      split; [split; [|exact Hbound]|].
      * rewrite Hsendeq.
        destruct (attempt st2) as [r3 st3] eqn:Hsecond.
        destruct (attempt_inv this payload timeout st2 st3 _ Hsecond)
          as [H2 _].
        change (data_posts st2) with (data_posts st1) in H2.
        simpl. lia.
      * intros st3 newSession encrypted Hagain Hnew Henc.
        rewrite Hsendeq. unfold attempt, mbind, M_bind. rewrite Hagain.
        rewrite (sendEncryptedRequest_posts newSession encrypted payload
                   timeout st3 Hnew Henc).
        destruct (ensureSession_data_posts this timeout st2 st3 _ Hagain)
          as (Hposts2 & _ & _).
        change (data_posts st2) with (data_posts st1) in Hposts2.
        lia.
  - intros error st1 Hfirst Hcode. rewrite send_unfold. fold attempt.
    rewrite Hfirst.
    destruct (decide (error_statusCode error = Some 403));
      [contradiction | reflexivity].
  - intros error st1 Hensure. rewrite send_unfold.
    unfold mbind at 1, M_bind at 1. rewrite Hensure.
    destruct (ensureSession_data_posts this timeout st st1 _ Hensure)
      as (_ & Herr & _).
    rewrite (Herr error eq_refl).
    destruct (decide (None = Some 403)) as [H|_]; [discriminate H|].
    reflexivity.
  - intros st0 r st1 request response rest Hensure Hsend Hreq Hreplies
      Hn403 Hn200.
    destruct (Hposted st0 r st1 request Hsend Hreq) as [Hreply Hcount].
    rewrite Hreplies in Hreply.
    destruct (decide (statusCode response = 403)); [contradiction|].
    destruct (decide (statusCode response = 200)); [contradiction|].
    destruct (ensureSession_data_posts this timeout st st0 _ Hensure)
      as (Hposts & _ & _).
    split; [|lia].
    rewrite send_unfold. unfold mbind at 1, M_bind at 1.
    rewrite Hensure, Hsend, Hreply. reflexivity.
  - exact Hbound.
Qed.

End Sessions.

Lemma klap_candidate_selection_witness :
  (map (fun candidate => (label candidate, version candidate))
     <$> @buildAuthCandidates Toy.runtime Toy.klap_options)
  = Ok [ ("credentials", v2); ("credentials", v1);
         ("KASA", v2); ("KASA", v1);
         ("TAPO", v2); ("TAPO", v1);
         ("blank", v2); ("blank", v1) ]
  /\ (label
       <$> selectAuthCandidate Toy.klap_options Toy.localSeed Toy.remoteSeed
             (handshake1SeedAuthHash Toy.localSeed Toy.remoteSeed
                (authHashV1 tapo_defaults) v1))
     = Ok "TAPO".
Proof.
  destruct (@klap_candidate_selection Toy.runtime Toy.klap_options
              Toy.localSeed Toy.remoteSeed
              (handshake1SeedAuthHash Toy.localSeed Toy.remoteSeed
                 (authHashV1 tapo_defaults) v1) I)
    as [Hbuild _].
  split; [rewrite Hbuild|]; vm_compute; reflexivity.
Defined.

Lemma klap_send_retries_once_witness :
  let st := Toy.klap_state
              [ Response (Toy.user_handshake1 "86400");
                Response (Toy.klap_status 200);
                Response (Toy.klap_status 403);
                Response (Toy.user_handshake1 "86400");
                Response (Toy.klap_status 200);
                Response (Toy.klap_data_response "{ok}") ] in
  (@send Toy.runtime Toy.klap_options "{}" 1500 st).1 = Ok "{ok}"
  /\ data_posts (@send Toy.runtime Toy.klap_options "{}" 1500 st).2 = 2%nat.
Proof.
  intros st.
  destruct (@klap_send_retries_once Toy.runtime Toy.klap_options "{}" 1500 st)
    as (_ & Hretry & _).
  set (st0 := (@ensureSession Toy.runtime Toy.klap_options 1500 st).2).
  set (run := @sendEncryptedRequest Toy.runtime "{}" 1500 st0).
  destruct (Hretry st0 run.1 run.2
              {| req_path := "/app/request";
                 req_data :=
                   match encryptKlapPayload Toy.user_session "{}" with
                   | Ok encrypted => encrypted.(enc_payload)
                   | Throw _ => []
                   end;
                 req_options :=
                   {| query :=
                        Some [("seq",
                               incrementSignedInt32
                                 Toy.user_session.(sequence))];
                      cookie := Some "TP_SESSIONID=abc" |} |}
              (Toy.klap_status 403)
              [ Response (Toy.user_handshake1 "86400");
                Response (Toy.klap_status 200);
                Response (Toy.klap_data_response "{ok}") ])
    as (_ & Hsend & _ & _ & _).
  - vm_compute. reflexivity.
  - vm_compute. reflexivity.
  - vm_compute. reflexivity.
  - vm_compute. reflexivity.
  - reflexivity.
  - rewrite Hsend. split; vm_compute; reflexivity.
Defined.

End KlapFacts.

(** * Properties of the AES transport *)

Module AesFacts.
Import Aes.

Section Unpadding.
Context `{RT : Runtime}.

(** The loop finds the first zero byte: the bytes before it are not zero,
    and the index counts them. *)
Lemma separatorIndex_from_found (rest : bytes) (index found : Z) :
  separatorIndex_from rest index = found -> 0 <= index ->
  (found = -1 /\ Forall (fun b => b <> x00) rest)
  \/ (exists padding tail,
        rest = padding ++ x00 :: tail
        /\ Forall (fun b => b <> x00) padding
        /\ found = index + Z.of_nat (length padding)).
Proof.
  revert index.
  induction rest as [|b rest IH]; intros index Hfound Hindex.
  - left. simpl in Hfound. subst found. split; [reflexivity | constructor].
  - simpl in Hfound. destruct (decide (b = x00)) as [->|Hb].
    + right. exists [], rest. simpl. repeat split; [constructor | lia].
    + assert (Hnext : 0 <= index + 1) by lia.
      destruct (IH (index + 1) Hfound Hnext)
        as [[-> Hall]|(padding & tail & -> & Hall & ->)].
      * left. split; [reflexivity | constructor; assumption].
      * right. exists (b :: padding), tail. simpl.
        repeat split; [constructor; assumption | lia].
Qed.

Lemma separatorIndex_from_app (padding tail : bytes) (index : Z) :
  Forall (fun b => b <> x00) padding ->
  separatorIndex_from (padding ++ x00 :: tail) index
  = index + Z.of_nat (length padding).
Proof.
  revert index. induction padding as [|b padding IH]; intros index Hall.
  - simpl. lia.
  - inversion Hall as [|? ? Hb Hrest]; subst. simpl.
    destruct (decide (b = x00)); [contradiction|].
    rewrite (IH (index + 1) Hrest). lia.
Qed.

(** The manual unpadding, as a function of the raw RSA block. *)
Lemma decryptPkcs1v15_ok_iff (privateKeyPem : string)
  (encryptedPayload block tail : bytes) :
  rsa_decrypt_raw privateKeyPem encryptedPayload = Some block ->
  decryptPkcs1v15 privateKeyPem encryptedPayload = Ok tail
  <-> exists padding,
        block = x00 :: x02 :: padding ++ x00 :: tail
        /\ Forall (fun b => b <> x00) padding
        /\ (8 <= length padding)%nat.
Proof.
  intros Hraw. unfold decryptPkcs1v15, privateDecrypt_raw.
  rewrite Hraw. cbn [or_throw mbind outcome_bind]. split.
  - destruct (Nat.ltb_spec (length block) 11) as [|Hlen]; [discriminate|].
    destruct block as [|b0 [|b1 rest]]; simpl in Hlen; try lia.
    cbn [lookup list_lookup drop].
    destruct (bool_decide_reflect (Some b0 = Some x00)) as [H0|];
      [|discriminate].
    destruct (bool_decide_reflect (Some b1 = Some x02)) as [H1|];
      [|discriminate].
    simplify_eq. cbn [negb orb]. rewrite drop_0.
    destruct (Z.ltb_spec (separatorIndex_from rest 2) 10) as [|Hsep];
      [discriminate|].
    intros H. injection H as <-.
    assert (Htwo : 0 <= 2) by lia.
    destruct (separatorIndex_from_found rest 2 _ eq_refl Htwo)
      as [[Hnone _]|(padding & tail' & -> & Hall & Hidx)]; [lia|].
    exists padding. rewrite Hidx in *.
    split; [|split; [exact Hall | lia]].
    unfold subarray_from.
    replace (Z.to_nat (2 + Z.of_nat (length padding) + 1))
      with (S (S (length padding + 1))) by lia.
    cbn [drop]. rewrite drop_app_add'; [|reflexivity]. reflexivity.
  - intros (padding & -> & Hall & Hlen).
    destruct (Nat.ltb_spec
                (length (x00 :: x02 :: padding ++ x00 :: tail)) 11) as [Hlt|_].
    { simpl in Hlt. rewrite length_app in Hlt. simpl in Hlt. lia. }
    cbn [lookup list_lookup drop].
    rewrite !bool_decide_eq_true_2 by reflexivity. cbn [negb orb].
    rewrite drop_0.
    rewrite (separatorIndex_from_app padding tail 2 Hall).
    destruct (Z.ltb_spec (2 + Z.of_nat (length padding)) 10); [lia|].
    unfold subarray_from.
    replace (Z.to_nat (2 + Z.of_nat (length padding) + 1))
      with (S (S (length padding + 1))) by lia.
    cbn [drop]. rewrite drop_app_add'; [|reflexivity]. reflexivity.
Qed.

End Unpadding.

Section Sessions.
Context `{RT : Runtime}.

Ltac run_aes H :=
  cbv beta iota zeta delta [performHandshake assertResponseSuccess
    isSessionExpired resetSession generateKeyPairSync Date_now post
    mbind M_bind mret M_ret gets modify lift throw set_session_fields
    app_headers Aes.session sessionCookie sessionExpiresAt token requests
    replies clock ticks keypairs draws] in H.

(** One run of [performHandshake] against a well-formed handshake
    response. *)
Lemma performHandshake_run (timeout : Z) (st : State)
  (response : AesHttpResponse) (rest : list (reply AesHttpResponse))
  (props result : list (string * jsval)) (encodedKey : string) :
  st.(replies) = Response response :: rest ->
  response.(statusCode) = 200 ->
  json_parse response.(body) = Some (JObj props) ->
  assoc_get props "error_code" = Some (JNum 0) ->
  assoc_get props "result" = Some (JObj result) ->
  assoc_get result "key" = Some (JStr encodedKey) ->
  performHandshake timeout st
  = match decryptPkcs1v15 (st.(keypairs) st.(draws)).2
            (from_base64 encodedKey) with
    | Throw error => (Throw error, after_failed_handshake st)
    | Ok unpaddedKeyMaterial =>
        if (length unpaddedKeyMaterial <? 32)%nat
        then (Throw (plainError "handshake key material is invalid"),
              after_failed_handshake st)
        else
          let st1 := (Date_now (after_failed_handshake st)).2 in
          (Ok tt,
           set_session_fields
             (Some {| key := subarray unpaddedKeyMaterial 0 16;
                      iv := subarray unpaddedKeyMaterial 16 32 |})
             ((fun id => SESSION_COOKIE_NAME +:+ "=" +:+ id) <$>
                match getCookieValue (parseSetCookie response.(headers))
                        SESSION_COOKIE_NAME with
                | Some id => Some id
                | None => getCookieValue (parseSetCookie response.(headers))
                            SESSION_COOKIE_NAME_FALLBACK
                end)
             (st.(clock) st.(ticks)
              + adjustedSessionSeconds
                  (timeoutSeconds_of
                     (getCookieValue (parseSetCookie response.(headers))
                        TIMEOUT_COOKIE_NAME)) * 1000)
             None st1)
    end.
Proof.
  intros Hreplies Hstatus Hparse Hcode Hresult Hkey.
  destruct st as [ses cookie0 expires tok reqs reps clk tks kps drw].
  cbn [replies] in Hreplies. subst reps.
  unfold after_failed_handshake.
  cbv beta iota zeta delta [performHandshake assertResponseSuccess
    resetSession generateKeyPairSync Date_now post
    mbind M_bind mret M_ret gets modify lift throw set_session_fields
    Aes.session sessionCookie sessionExpiresAt token requests
    replies clock ticks keypairs draws tail snd fst].
  destruct (kps drw) as [publicKey privateKey]. cbv beta iota.
  destruct (decide (statusCode response ≠ 200)) as [Hno|_];
    [contradiction|].
  unfold JSON_parse at 1. rewrite Hparse.
  cbv beta iota delta [or_throw isObjectLike get_prop].
  rewrite Hcode. cbv beta iota delta [default from_option id].
  destruct (decide (0 ≠ 0)) as [Hno|_]; [contradiction|].
  cbv beta iota. rewrite Hresult. cbv beta iota delta [default from_option id].
  rewrite Hkey. cbv beta iota delta [default from_option id].
  destruct (decryptPkcs1v15 privateKey (from_base64 encodedKey))
    as [unpaddedKeyMaterial|error]; [|reflexivity].
  cbv beta iota.
  destruct (length unpaddedKeyMaterial <? 32)%nat; reflexivity.
Qed.

Ltac failed H := solve [inversion H].

(** A handshake succeeds only against a response with status 200 whose
    JSON has [error_code] 0 and a string [result.key] that unpads to at
    least 32 bytes. *)
Lemma performHandshake_ok (timeout : Z) (st st' : State) :
  performHandshake timeout st = (Ok tt, st') ->
  exists response rest props result encodedKey unpaddedKeyMaterial,
    st.(replies) = Response response :: rest
    /\ response.(statusCode) = 200
    /\ json_parse response.(body) = Some (JObj props)
    /\ assoc_get props "error_code" = Some (JNum 0)
    /\ assoc_get props "result" = Some (JObj result)
    /\ assoc_get result "key" = Some (JStr encodedKey)
    /\ decryptPkcs1v15 (st.(keypairs) st.(draws)).2 (from_base64 encodedKey)
       = Ok unpaddedKeyMaterial
    /\ (32 <= length unpaddedKeyMaterial)%nat.
Proof.
  intros H.
  destruct st as [ses cookie0 expires tok reqs reps clk tks kps drw].
  run_aes H. cbn [replies keypairs draws].
  destruct (kps drw) as [publicKey privateKey]. cbv beta iota in H.
  destruct reps as [|[response|message] rest]; cbv beta iota in H;
    [failed H | | failed H].
  destruct (decide (statusCode response ≠ 200)) as [|Hstatus]; [failed H|].
  unfold JSON_parse in H.
  destruct (json_parse (body response)) as [parsed|] eqn:Hparse;
    cbv beta iota delta [or_throw] in H; [|failed H].
  destruct parsed as [| | | | | |props];
    cbv beta iota delta [isObjectLike get_prop] in H; try failed H.
  destruct (assoc_get props "error_code") as [[| | |code| | |]|] eqn:Hcode;
    cbv beta iota delta [default from_option id] in H; try failed H.
  destruct (decide (code ≠ 0)) as [|Hzero].
  { destruct (decide (code ∈ AES_AUTH_ERROR_CODES)); failed H. }
  cbv beta iota in H.
  destruct (assoc_get props "result") as [[| | | | | |result]|] eqn:Hresult;
    cbv beta iota delta [default from_option id] in H; try failed H.
  destruct (assoc_get result "key") as [[| | | |encodedKey| |]|] eqn:Hkey;
    cbv beta iota delta [default from_option id] in H; try failed H.
  destruct (decryptPkcs1v15 privateKey (from_base64 encodedKey))
    as [unpaddedKeyMaterial|error] eqn:Hunpad; cbv beta iota in H;
    [|failed H].
  destruct (Nat.ltb_spec (length unpaddedKeyMaterial) 32) as [|Hlen];
    [failed H|].
  assert (H200 : statusCode response = 200)
    by (destruct (decide (statusCode response = 200)); tauto).
  assert (Hcode0 : code = 0) by (destruct (decide (code = 0)); tauto).
  subst code.
  exists response, rest, props, result, encodedKey, unpaddedKeyMaterial.
  repeat split; assumption || reflexivity.
Qed.

Lemma subarray_key_iv (material : bytes) :
  subarray material 0 16 = take 16 material
  /\ subarray material 16 32 = take 16 (drop 16 material).
Proof. unfold subarray. rewrite drop_0. split; reflexivity. Qed.

(** C9. The manual unpadding returns the bytes after the first zero byte
    that follows the two-byte prefix exactly when the raw block starts with
    0x00 0x02 and that zero byte is at index 10 or later, that is after at
    least eight non-zero padding bytes; it fails in every other case, blocks
    of fewer than 11 bytes included.  Against a well-formed handshake
    response, [performHandshake] fails when the unpadded material has
    fewer than 32 bytes and otherwise stores bytes 0..15 as the key and
    bytes 16..31 as the IV of the session. *)
Theorem pkcs1_unpadding_and_key_split :
  (forall (privateKeyPem : string) (encryptedPayload block : bytes),
     rsa_decrypt_raw privateKeyPem encryptedPayload = Some block ->
     (forall tail,
        decryptPkcs1v15 privateKeyPem encryptedPayload = Ok tail
        <-> exists padding,
              block = x00 :: x02 :: padding ++ x00 :: tail
              /\ Forall (fun b => b <> x00) padding
              /\ (10 <= 2 + length padding)%nat)
     /\ ((forall padding tail,
            block = x00 :: x02 :: padding ++ x00 :: tail ->
            Forall (fun b => b <> x00) padding ->
            (2 + length padding < 10)%nat) ->
         exists error,
           decryptPkcs1v15 privateKeyPem encryptedPayload = Throw error)
     /\ ((length block < 11)%nat ->
         decryptPkcs1v15 privateKeyPem encryptedPayload
         = Throw (plainError "PKCS#1 block too short")))
  /\ (forall (timeout : Z) (st : State) (response : AesHttpResponse)
        (rest : list (reply AesHttpResponse))
        (props result : list (string * jsval)) (encodedKey : string)
        (unpaddedKeyMaterial : bytes),
        st.(replies) = Response response :: rest ->
        response.(statusCode) = 200 ->
        json_parse response.(body) = Some (JObj props) ->
        assoc_get props "error_code" = Some (JNum 0) ->
        assoc_get props "result" = Some (JObj result) ->
        assoc_get result "key" = Some (JStr encodedKey) ->
        decryptPkcs1v15 (st.(keypairs) st.(draws)).2 (from_base64 encodedKey)
        = Ok unpaddedKeyMaterial ->
        ((length unpaddedKeyMaterial < 32)%nat ->
         performHandshake timeout st
         = (Throw (plainError "handshake key material is invalid"),
            after_failed_handshake st))
        /\ ((32 <= length unpaddedKeyMaterial)%nat ->
            (performHandshake timeout st).1 = Ok tt
            /\ (performHandshake timeout st).2.(session)
               = Some {| key := take 16 unpaddedKeyMaterial;
                         iv := take 16 (drop 16 unpaddedKeyMaterial) |})).
Proof.
  split.
  - intros privateKeyPem encryptedPayload block Hraw.
    assert (Hiff : forall tail,
              decryptPkcs1v15 privateKeyPem encryptedPayload = Ok tail
              <-> exists padding,
                    block = x00 :: x02 :: padding ++ x00 :: tail
                    /\ Forall (fun b => b <> x00) padding
                    /\ (10 <= 2 + length padding)%nat).
    { intros tail.
      rewrite (decryptPkcs1v15_ok_iff privateKeyPem encryptedPayload block
                 tail Hraw).
      split; intros (padding & Hblock & Hall & Hlen); exists padding;
        (split; [exact Hblock|]); (split; [exact Hall|]); lia. }
    split; [exact Hiff|]. split.
    + intros Hnone.
      destruct (decryptPkcs1v15 privateKeyPem encryptedPayload)
        as [tail|error] eqn:Hresult; [|exists error; reflexivity].
      destruct (proj1 (Hiff tail) eq_refl) as (padding & Hblock & Hall & Hlen).
      pose proof (Hnone padding tail Hblock Hall). lia.
    + intros Hshort. unfold decryptPkcs1v15, privateDecrypt_raw.
      rewrite Hraw. cbn [or_throw mbind outcome_bind].
      destruct (Nat.ltb_spec (length block) 11); [reflexivity | lia].
  - intros timeout st response rest props result encodedKey
      unpaddedKeyMaterial Hreplies Hstatus Hparse Hcode Hresult Hkey Hunpad.
    rewrite (performHandshake_run timeout st response rest props result
               encodedKey Hreplies Hstatus Hparse Hcode Hresult Hkey).
    rewrite Hunpad. split; intros Hlen.
    + destruct (Nat.ltb_spec (length unpaddedKeyMaterial) 32);
        [reflexivity | lia].
    + destruct (Nat.ltb_spec (length unpaddedKeyMaterial) 32); [lia|].
      destruct (subarray_key_iv unpaddedKeyMaterial) as [-> ->].
      split; reflexivity.
Qed.

End Sessions.

Lemma pkcs1_unpadding_and_key_split_witness :
  @decryptPkcs1v15 Toy.runtime "pem" Toy.rsa_block
  = Ok (replicate 16 x0a ++ replicate 16 x0b).
Proof.
  destruct (@pkcs1_unpadding_and_key_split Toy.runtime) as [Hunpad _].
  destruct (Hunpad "pem" Toy.rsa_block Toy.rsa_block eq_refl) as [Hiff _].
  apply Hiff. exists (replicate 8 x01).
  split; [reflexivity|]. split; [|simpl; lia].
  repeat constructor; discriminate.
Defined.

Section Login.
Context `{RT : Runtime}.

(** The equation of [performLoginForCandidate], as the source has it. *)
Lemma performLoginForCandidate_eq (candidates : list AesLoginCandidate)
  (timeout : Z) (index : nat) (st : State) :
  performLoginForCandidate candidates timeout index st
  = match candidates !! index with
    | None => throw (plainError "no login candidates succeeded")
    | Some candidate =>
        try_catch
          (tryLogin candidate.(params) timeout)
          (fun error =>
             (if bool_decide (is_Some (extractErrorCode error))
                 && bool_decide (default 0 (extractErrorCode error)
                                 ∈ AES_AUTH_ERROR_CODES)
                 && (index <? length candidates - 1)%nat
              then
                performHandshake timeout;;
                performLoginForCandidate candidates timeout (index + 1)
              else mret tt);;
             throw error)
    end st.
Proof.
  unfold performLoginForCandidate.
  destruct (length candidates - index)%nat as [|remaining] eqn:Hremaining.
  - cbn [performLoginForCandidate_from].
    destruct (candidates !! index) as [candidate|] eqn:Hlookup;
      [|reflexivity].
    apply lookup_lt_Some in Hlookup. lia.
  - cbn [performLoginForCandidate_from].
    destruct (candidates !! index) as [candidate|]; [|reflexivity].
    unfold try_catch.
    destruct (tryLogin (params candidate) timeout st) as [[[]|error] st1];
      [reflexivity|].
    destruct (Nat.ltb_spec index (length candidates - 1)) as [Hlt|Hge].
    + replace (length candidates - (index + 1))%nat with remaining by lia.
      reflexivity.
    + rewrite !andb_false_r. reflexivity.
Qed.

(** Once the login of the candidate at [index] has failed,
    [performLoginForCandidate] fails, whatever the later candidates
    meet: the handler ends in [throw error]. *)
Lemma performLoginForCandidate_ok (candidates : list AesLoginCandidate)
  (timeout : Z) (index : nat) (st st' : State) :
  performLoginForCandidate candidates timeout index st = (Ok tt, st') ->
  exists candidate,
    candidates !! index = Some candidate
    /\ tryLogin candidate.(params) timeout st = (Ok tt, st').
Proof.
  rewrite performLoginForCandidate_eq.
  destruct (candidates !! index) as [candidate|]; [|intros H; inversion H].
  unfold try_catch.
  destruct (tryLogin (params candidate) timeout st) as [[[]|error] st1]
    eqn:Htry.
  - intros H. injection H as <-. exists candidate.
    split; [reflexivity | exact Htry].
  - unfold mbind, M_bind, throw.
    match goal with
    | |- (let (_, _) := ?handler in _) = _ -> _ =>
        destruct handler as [[[]|error'] st2]
    end; intros H; inversion H.
Qed.

End Login.

(** C1 at a device that accepts only the second candidate: the first
    login is answered with the inner error code -1501, which is one of the
    authentication codes, the connection shakes hands again and the second
    login is granted the token; [ensureSession] raises the first error all
    the same, with the granted token in place, and so does [send], which
    repeats the whole exchange once. *)
Theorem aes_login_fallback_raises :
  let st := Toy.aes_state Toy.v1_only_device in
  let login := @ensureSession Toy.runtime Toy.aes_options 1500 st in
  let sent := @send Toy.runtime Toy.aes_options "{}" 1500
                (Toy.aes_state (Toy.v1_only_device ++ Toy.v1_only_device)) in
  -1501 ∈ AES_AUTH_ERROR_CODES
  /\ (map label <$> @buildLoginCandidates Toy.runtime Toy.aes_options)
     = Ok ["credentials-v2"; "credentials-v1";
           "default-tapo-v2"; "default-tapo-v1"]
  /\ login.1 = Throw (Error "login failed with error_code" None (Some (-1501)))
  /\ login.2.(token) = Some "tok"
  /\ login.2.(replies) = []
  /\ sent.1 = Throw (Error "login failed with error_code" None (Some (-1501)))
  /\ length sent.2.(requests) = 8%nat.
Proof.
  intros st login sent.
  split; [unfold AES_AUTH_ERROR_CODES; set_solver|].
  repeat split; vm_compute; reflexivity.
Qed.

End AesFacts.

(** * Properties of the SMART request layer *)

Module SmartFacts.
Import Smart.

Section Batches.
Context `{RT : Runtime}.

Lemma assoc_get_set (props : list (string * jsval)) (name other : string)
  (v : jsval) :
  assoc_get (assoc_set props name v) other
  = if decide (name = other) then Some v else assoc_get props other.
Proof.
  induction props as [|[k w] props IH]; simpl.
  - destruct (decide (name = other)); reflexivity.
  - destruct (decide (k = name)) as [->|Hk]; simpl.
    + destruct (decide (name = other)); reflexivity.
    + destruct (decide (k = other)) as [->|Hother].
      * destruct (decide (name = other)) as [->|]; [contradiction|].
        reflexivity.
      * exact IH.
Qed.

Lemma processResponseEntries_succeeded (responseEntry : jsval)
  (rest : list jsval) (request : jsval) (acc : list (string * jsval))
  (entryMethod : string) :
  entry_fields responseEntry = Some (entryMethod, 0) ->
  processResponseEntries (responseEntry :: rest) request acc
  = processResponseEntries rest request
      (assoc_set acc entryMethod (entry_result responseEntry)).
Proof.
  unfold entry_fields, entry_result. cbn [processResponseEntries].
  destruct (isObjectLike responseEntry); [|discriminate].
  destruct (get_prop responseEntry "method"); try discriminate.
  destruct (get_prop responseEntry "error_code"); try discriminate.
  intros H. injection H as -> ->.
  destruct (decide (0 ≠ 0)); [contradiction | reflexivity].
Qed.

Lemma processResponseEntries_failed (responseEntry : jsval)
  (rest : list jsval) (request : jsval) (acc : list (string * jsval))
  (entryMethod : string) (error_code : Z) :
  entry_fields responseEntry = Some (entryMethod, error_code) ->
  error_code <> 0 ->
  processResponseEntries (responseEntry :: rest) request acc
  = Throw (SmartError "SMART request failed" error_code entryMethod
             (JSON_stringify responseEntry) (JSON_stringify request)).
Proof.
  unfold entry_fields. cbn [processResponseEntries].
  destruct (isObjectLike responseEntry); [|discriminate].
  destruct (get_prop responseEntry "method"); try discriminate.
  destruct (get_prop responseEntry "error_code"); try discriminate.
  intros H Hcode. injection H as -> ->.
  destruct (decide (error_code ≠ 0)); [reflexivity | contradiction].
Qed.

Lemma processResponseEntries_malformed (responseEntry : jsval)
  (rest : list jsval) (request : jsval) (acc : list (string * jsval)) :
  entry_fields responseEntry = None ->
  processResponseEntries (responseEntry :: rest) request acc
  = Throw (plainError "Unexpected SMART response entry").
Proof.
  unfold entry_fields. cbn [processResponseEntries].
  destruct (isObjectLike responseEntry); [|reflexivity].
  destruct (get_prop responseEntry "method"); try reflexivity.
  destruct (get_prop responseEntry "error_code"); try reflexivity.
  discriminate.
Qed.

(** The entries that succeeded are folded into the accumulator, in
    order. *)
Lemma processResponseEntries_prefix (good rest : list jsval)
  (request : jsval) (acc : list (string * jsval)) :
  Forall entry_succeeded good ->
  exists acc',
    processResponseEntries (good ++ rest) request acc
    = processResponseEntries rest request acc'
    /\ forall name,
         assoc_get acc' name
         = match last_entry_for name good with
           | Some responseEntry => Some (entry_result responseEntry)
           | None => assoc_get acc name
           end.
Proof.
  revert acc. induction good as [|responseEntry good IH]; intros acc Hgood.
  - exists acc. split; reflexivity.
  - inversion Hgood as [|? ? [entryMethod Hfields] Hrest]; subst.
    destruct (IH (assoc_set acc entryMethod (entry_result responseEntry))
                Hrest) as (acc' & Hrun & Hlookup).
    exists acc'. split.
    + cbn [app].
      rewrite (processResponseEntries_succeeded _ _ _ _ _ Hfields).
      exact Hrun.
    + intros name. rewrite Hlookup. unfold last_entry_for.
      rewrite filter_cons, Hfields. cbn [fmap option_fmap option_map fst].
      destruct (decide (Some entryMethod = Some name)) as [Heq|Hne].
      * injection Heq as ->. rewrite last_cons.
        destruct (last (filter _ good)); [reflexivity|].
        rewrite assoc_get_set.
        destruct (decide (name = name)); [reflexivity | contradiction].
      * destruct (last (filter _ good)); [reflexivity|].
        rewrite assoc_get_set.
        destruct (decide (entryMethod = name)) as [->|]; [contradiction|].
        reflexivity.
Qed.

(** Every batch either succeeded entry by entry or has a first entry that
    did not. *)
Lemma first_offending_entry (responses : list jsval) :
  Forall entry_succeeded responses
  \/ exists good bad rest,
       responses = good ++ bad :: rest
       /\ Forall entry_succeeded good
       /\ (entry_fields bad = None
           \/ exists entryMethod error_code,
                entry_fields bad = Some (entryMethod, error_code)
                /\ error_code <> 0).
Proof.
  induction responses as [|responseEntry responses IH].
  - left. constructor.
  - destruct (entry_fields responseEntry) as [[entryMethod error_code]|]
      eqn:Hfields.
    + destruct (decide (error_code = 0)) as [->|Hcode].
      * destruct IH as [Hall|(good & bad & rest & -> & Hgood & Hbad)].
        -- left. constructor; [exists entryMethod; exact Hfields | exact Hall].
        -- right. exists (responseEntry :: good), bad, rest.
           split; [reflexivity|]. split; [|exact Hbad].
           constructor; [exists entryMethod; exact Hfields | exact Hgood].
      * right. exists [], responseEntry, responses.
        split; [reflexivity|]. split; [constructor|].
        right. exists entryMethod, error_code. split; [exact Hfields|].
        exact Hcode.
    + right. exists [], responseEntry, responses.
      split; [reflexivity|]. split; [constructor|]. left. exact Hfields.
Qed.

End Batches.

Section Commands.
Context `{RT : Runtime}.

Lemma smart_transport_eq (this : Device) (sendOptions : option SendOptions) :
  match sendOptions ≫= transport with
  | Some chosen => Some chosen
  | None =>
      match this.(defaultSendOptions).(transport) with
      | Some klap => Some klap
      | Some aes => Some aes
      | _ => Some klap
      end
  end = Some (smart_transport this sendOptions).
Proof.
  unfold smart_transport.
  destruct (sendOptions ≫= transport); [reflexivity|].
  destruct (transport (defaultSendOptions this)) as [[]|]; reflexivity.
Qed.

(** One run of [sendSmartCommand] without a child id. *)
Lemma sendSmartCommand_plain (this : Device) (method : string)
  (params : jsval) (sendOptions : option SendOptions) (st : State) :
  this.(childId) = None ->
  let request := smart_payload this method params (st.(clock) st.(ticks)) in
  let st1 := after_send this sendOptions request 1 st in
  sendSmartCommand this method params NoChildIds sendOptions st
  = match st.(replies) with
    | Ok text :: _ =>
        match json_parse text with
        | Some response => (processSmartResponse response method request, st1)
        | None => (Throw (plainError "Could not parse SMART response"), st1)
        end
    | Throw error :: _ => (Throw error, st1)
    | [] => (Throw (plainError "connect ECONNREFUSED"), st1)
    end.
Proof.
  intros Hchild request st1. subst request st1.
  unfold sendSmartCommand. rewrite Hchild, smart_transport_eq.
  destruct st as [log reps clk tks].
  cbv beta iota zeta delta [getSingleSmartChildId createSmartRequestPayload
    Date_now send connection_send mbind M_bind mret M_ret lift throw
    after_send smart_payload sent replies clock ticks transport Smart.method
    Smart.params tail].
  destruct reps as [|[text|error] reps]; cbv beta iota; try reflexivity.
  destruct (json_parse text) as [response|]; reflexivity.
Qed.

(** One run of [sendSmartCommand] for one child id: the clock is read
    twice, once for the inner request and once for the envelope that is
    sent. *)
Lemma sendSmartCommand_child (this : Device) (method : string)
  (params : jsval) (childIds : ChildIds) (given : string)
  (sendOptions : option SendOptions) (st : State) :
  childIds = OneChildId given \/ childIds = ChildIdList [given] ->
  let payload :=
    control_child_payload this (normalizeChildId this given) method params
      (st.(clock) (S st.(ticks))) in
  let st1 := after_send this sendOptions payload 2 st in
  sendSmartCommand this method params childIds sendOptions st
  = match st.(replies) with
    | Ok text :: _ =>
        match json_parse text with
        | Some response =>
            (_ ← assertSmartSuccess response "control_child" payload;
             if negb (isObjectLike response
                      && has_prop response "result"
                      && isObjectLike (get_prop response "result")
                      && has_prop (get_prop response "result")
                           "responseData")
             then Throw (plainError "Unexpected SMART control_child response")
             else processSmartResponse
                    (get_prop (get_prop response "result") "responseData")
                    method payload,
             st1)
        | None => (Throw (plainError "Could not parse SMART response"), st1)
        end
    | Throw error :: _ => (Throw error, st1)
    | [] => (Throw (plainError "connect ECONNREFUSED"), st1)
    end.
Proof.
  intros Hone payload st1. subst payload st1.
  unfold sendSmartCommand. rewrite smart_transport_eq.
  destruct st as [log reps clk tks].
  destruct Hone as [-> | ->];
    cbv beta iota zeta delta [getSingleSmartChildId castArray
      createSmartRequestPayload Date_now send connection_send mbind M_bind
      mret M_ret lift throw after_send control_child_payload sent replies
      clock ticks transport Smart.method Smart.params tail fmap list_fmap
      length Nat.ltb Nat.leb lookup list_lookup];
    (assert (Hmethod : forall now,
               get_prop (JObj ([("method", JStr method)]
                               ++ optional_prop "params" params
                               ++ [("request_time_milis", JNum now);
                                   ("terminal_uuid",
                                    JStr (smartTerminalUuid this))]))
                 "method" = JStr method) by reflexivity);
    (assert (Hparams : forall now,
               optional_prop "params"
                 (get_prop (JObj ([("method", JStr method)]
                                  ++ optional_prop "params" params
                                  ++ [("request_time_milis", JNum now);
                                      ("terminal_uuid",
                                       JStr (smartTerminalUuid this))]))
                    "params")
               = optional_prop "params" params)
       by (intros now; destruct params; reflexivity));
    rewrite Hmethod, Hparams;
    (destruct reps as [|[text|error] reps]; cbv beta iota;
     try reflexivity);
    (destruct (json_parse text) as [response|]; cbv beta iota;
     [|reflexivity]);
    (destruct (assertSmartSuccess response "control_child" _)
       as [checked|error]; cbv beta iota; [|reflexivity]);
    cbn [mbind outcome_bind];
    match goal with
    | |- context [negb ?shape] => destruct shape
    end; reflexivity.
Qed.

(** A batch response whose envelope succeeded is processed entry by
    entry. *)
Lemma processSmartResponse_batch (props result : list (string * jsval))
  (responses : list jsval) (request : jsval) :
  assoc_get props "error_code" = Some (JNum 0) ->
  assoc_get props "result" = Some (JObj result) ->
  assoc_get result "responses" = Some (JArr responses) ->
  processSmartResponse (JObj props) "multipleRequest" request
  = JObj <$> processResponseEntries responses request [].
Proof.
  intros Hcode Hresult Hresponses.
  unfold processSmartResponse, assertSmartSuccess, isSmartResponse.
  cbn [isObjectLike get_prop has_prop]. rewrite Hcode.
  cbn [default from_option id is_number andb negb].
  destruct (decide (0 ≠ 0)); [contradiction|].
  cbn [mbind outcome_bind get_prop]. rewrite Hresult.
  cbn [default from_option id isObjectLike has_prop get_prop negb].
  rewrite Hresponses. rewrite bool_decide_eq_true_2 by reflexivity.
  rewrite bool_decide_eq_true_2 by (eexists; reflexivity).
  cbn [negb andb default from_option id].
  destruct (processResponseEntries responses request []); reflexivity.
Qed.

(** What [processSmartResponse] returns for a batch is an object. *)
Lemma processSmartResponse_batch_object (response request value : jsval) :
  processSmartResponse response "multipleRequest" request = Ok value ->
  isObjectLike value = true.
Proof.
  unfold processSmartResponse.
  destruct (assertSmartSuccess response "multipleRequest" request)
    as [smartResponse|]; cbn [mbind outcome_bind]; [|discriminate].
  rewrite bool_decide_eq_true_2 by reflexivity. cbn [negb].
  match goal with
  | |- match ?responses with _ => _ end = _ -> _ =>
      destruct responses; try discriminate
  end.
  destruct (processResponseEntries _ _ _); cbn [mbind outcome_bind];
    [|discriminate].
  intros H. injection H as <-. reflexivity.
Qed.

(** C4. The entries of [result.responses] are processed in order.  When
    every entry is an object with a string [method] and [error_code] 0, the
    result is the object that maps each method to the result of the last
    entry answering it.  Otherwise the first entry that is not such an entry
    decides: if it lacks a string [method] or a numeric [error_code] the
    protocol error is raised, and if its [error_code] is not zero a
    SmartError with that code and that method is raised.  A batch response
    whose envelope has [error_code] 0 is processed in this way by
    [processSmartResponse], and its outcome is what [sendSmartRequests]
    returns for a non-empty request list without child id. *)
Theorem smart_batch_entries (request : jsval) (responses : list jsval) :
  (Forall entry_succeeded responses ->
   exists multiResults,
     processResponseEntries responses request [] = Ok multiResults
     /\ forall name,
          assoc_get multiResults name
          = entry_result <$> last_entry_for name responses)
  /\ (forall good bad rest,
        responses = good ++ bad :: rest ->
        Forall entry_succeeded good ->
        (entry_fields bad = None ->
         processResponseEntries responses request []
         = Throw (plainError "Unexpected SMART response entry"))
        /\ (forall entryMethod error_code,
              entry_fields bad = Some (entryMethod, error_code) ->
              error_code <> 0 ->
              processResponseEntries responses request []
              = Throw (SmartError "SMART request failed" error_code
                         entryMethod (JSON_stringify bad)
                         (JSON_stringify request))))
  /\ (Forall entry_succeeded responses
      \/ exists good bad rest,
           responses = good ++ bad :: rest
           /\ Forall entry_succeeded good
           /\ (entry_fields bad = None
               \/ exists entryMethod error_code,
                    entry_fields bad = Some (entryMethod, error_code)
                    /\ error_code <> 0))
  /\ (forall props result,
        assoc_get props "error_code" = Some (JNum 0) ->
        assoc_get props "result" = Some (JObj result) ->
        assoc_get result "responses" = Some (JArr responses) ->
        processSmartResponse (JObj props) "multipleRequest" request
        = JObj <$> processResponseEntries responses request [])
  /\ (forall (this : Device) (requests : list SmartMethodRequest)
        (sendOptions : option SendOptions) (st : State) (text : string)
        (later : list (outcome string)) (response : jsval),
        requests <> [] ->
        this.(childId) = None ->
        st.(replies) = Ok text :: later ->
        json_parse text = Some response ->
        let sentRequest :=
          smart_payload this "multipleRequest"
            (JObj [("requests",
                    JArr ((fun request =>
                             JObj ([("method", JStr request.(Smart.method))]
                                   ++ optional_prop "params"
                                        request.(Smart.params)))
                          <$> requests))])
            (st.(clock) st.(ticks)) in
        sendSmartRequests this requests NoChildIds sendOptions st
        = (processSmartResponse response "multipleRequest" sentRequest,
           after_send this sendOptions sentRequest 1 st)).
Proof.
  split; [|split; [|split; [|split]]].
  - intros Hall.
    destruct (processResponseEntries_prefix responses [] request [] Hall)
      as (acc & Hrun & Hlookup).
    rewrite app_nil_r in Hrun. exists acc. split; [exact Hrun|].
    intros name. rewrite Hlookup.
    destruct (last_entry_for name responses); reflexivity.
  - intros good bad rest -> Hgood.
    destruct (processResponseEntries_prefix good (bad :: rest) request []
                Hgood) as (acc & Hrun & _).
    rewrite Hrun. split.
    + apply processResponseEntries_malformed.
    + intros entryMethod error_code Hfields Hcode.
      apply (processResponseEntries_failed _ _ _ _ _ _ Hfields Hcode).
  - apply first_offending_entry.
  - intros props result. apply processSmartResponse_batch.
  - intros this requests sendOptions st text later response Hrequests
      Hchild Hreplies Hparse sentRequest.
    unfold sendSmartRequests.
    destruct (decide (length requests = 0%nat)) as [Hlen|_].
    { destruct requests; [contradiction | discriminate Hlen]. }
    unfold mbind at 1, M_bind at 1.
    rewrite (sendSmartCommand_plain this "multipleRequest" _ sendOptions st
               Hchild).
    cbv zeta. rewrite Hreplies, Hparse. fold sentRequest.
    destruct (processSmartResponse response "multipleRequest" sentRequest)
      as [value|error] eqn:Hprocess; [|reflexivity].
    rewrite (processSmartResponse_batch_object _ _ _ Hprocess).
    reflexivity.
Qed.

(** Every run of [sendSmartCommand] either stops at the check of the
    child ids, before anything is sent, or hands exactly one payload to the
    connection. *)
Lemma sendSmartCommand_effect (this : Device) (method : string)
  (params : jsval) (childIds : ChildIds) (sendOptions : option SendOptions)
  (st : State) :
  sendSmartCommand this method params childIds sendOptions st
  = (Throw (plainError "SMART control_child supports a single child id"), st)
  \/ exists payloadString,
       (sendSmartCommand this method params childIds sendOptions st).2.(sent)
       = st.(sent) ++ [(smart_transport this sendOptions, payloadString)].
Proof.
  unfold sendSmartCommand. rewrite smart_transport_eq.
  match goal with
  | |- context [getSingleSmartChildId this ?ids] => set (effective := ids)
  end.
  destruct st as [log reps clk tks].
  unfold mbind at 1, M_bind at 1, lift at 1.
  destruct (getSingleSmartChildId this effective) as [single|error]
    eqn:Hsingle.
  - right.
    cbv beta iota zeta delta [createSmartRequestPayload Date_now send
      connection_send mbind M_bind mret M_ret lift throw sent replies clock
      ticks transport Smart.method Smart.params].
    destruct single as [child|];
      (destruct reps as [|[text|error] reps]; cbv beta iota;
       [eexists; reflexivity | | eexists; reflexivity]);
      (destruct (json_parse text) as [response|]; cbv beta iota;
       [|eexists; reflexivity]).
    + destruct (assertSmartSuccess response "control_child" _);
        cbv beta iota; [|eexists; reflexivity].
      match goal with
      | |- context [negb ?shape] => destruct shape
      end; eexists; reflexivity.
    + eexists; reflexivity.
  - left. unfold getSingleSmartChildId in Hsingle.
    destruct effective; try discriminate Hsingle;
      destruct (1 <? length _)%nat; try discriminate Hsingle;
      injection Hsingle as <-; reflexivity.
Qed.

(** C10. With an empty request list [sendSmartRequests] returns the empty
    object and leaves the state as it was: nothing is handed to a
    connection (so no handshake, login or HTTP request can happen), no
    reply is consumed and the clock is not read, whatever the child ids and
    the options, more than one child id included.  The short circuit is
    particular to the empty list: with any request in the list the call
    hands a payload to the connection unless the child ids are
    rejected. *)
Theorem smart_empty_batch (this : Device) (childIds : ChildIds)
  (sendOptions : option SendOptions) (st : State) :
  sendSmartRequests this [] childIds sendOptions st = (Ok (JObj []), st)
  /\ (sendSmartRequests this [] childIds sendOptions st).2.(sent) = st.(sent)
  /\ forall request requests,
       (sendSmartRequests this (request :: requests) childIds sendOptions
          st).1
       = Throw (plainError "SMART control_child supports a single child id")
       \/ exists payloadString,
            (sendSmartRequests this (request :: requests) childIds
               sendOptions st).2.(sent)
            = st.(sent) ++ [(smart_transport this sendOptions,
                             payloadString)].
Proof.
  split; [reflexivity|]. split; [reflexivity|].
  intros request requests. unfold sendSmartRequests.
  destruct (decide (length (request :: requests) = 0%nat)) as [Hlen|_];
    [discriminate Hlen|].
  unfold mbind, M_bind.
  match goal with
  | |- context [sendSmartCommand this "multipleRequest" ?batch childIds
                  sendOptions st] =>
      destruct (sendSmartCommand_effect this "multipleRequest" batch
                  childIds sendOptions st) as [Hstop|[payloadString Hsent]];
      [rewrite Hstop; left; reflexivity|];
      destruct (sendSmartCommand this "multipleRequest" batch childIds
                  sendOptions st) as [[response|error] st1]
  end.
  - right. exists payloadString.
    destruct (negb (isObjectLike response)); exact Hsent.
  - right. exists payloadString. exact Hsent.
Qed.

(** C5, as the code has it.  A call with one child id hands one payload
    to the connection: the envelope with method "control_child",
    [params.device_id] the normalised child id and [params.requestData] the
    inner method and params.  When the response and its nested
    [result.responseData] both carry [error_code] 0, the call returns the
    nested [responseData.result] if the method is not "multipleRequest",
    and for "multipleRequest" what the batch processing makes of
    [responseData].  A non-zero [error_code] raises a SmartError: for the
    method "control_child" at the outer level, for the inner method at the
    nested level.  A call with more than one child id raises an error and
    leaves the state untouched. *)
Theorem control_child_routing (this : Device) (method : string)
  (params : jsval) (sendOptions : option SendOptions) (st : State) :
  (forall given childIds,
     childIds = OneChildId given \/ childIds = ChildIdList [given] ->
     let device_id := normalizeChildId this given in
     let payload :=
       JObj [("method", JStr "control_child");
             ("params",
              JObj [("device_id", JStr device_id);
                    ("requestData",
                     JObj ([("method", JStr method)]
                           ++ optional_prop "params" params))]);
             ("request_time_milis", JNum (st.(clock) (S st.(ticks))));
             ("terminal_uuid", JStr this.(smartTerminalUuid))] in
     let run := sendSmartCommand this method params childIds sendOptions st in
     device_id
     = (if decide (String.length given = 1%nat)
        then this.(deviceId) +:+ "0" +:+ given
        else if decide (String.length given = 2%nat)
        then this.(deviceId) +:+ given
        else given)
     /\ run.2.(sent)
        = st.(sent) ++ [(smart_transport this sendOptions,
                         JSON_stringify payload)]
     /\ forall text later outer result,
          st.(replies) = Ok text :: later ->
          json_parse text = Some (JObj outer) ->
          (forall nested,
             assoc_get outer "error_code" = Some (JNum 0) ->
             assoc_get outer "result" = Some (JObj result) ->
             assoc_get result "responseData" = Some (JObj nested) ->
             (assoc_get nested "error_code" = Some (JNum 0) ->
              method <> "multipleRequest" ->
              run.1 = Ok (get_prop (JObj nested) "result"))
             /\ (assoc_get nested "error_code" = Some (JNum 0) ->
                 method = "multipleRequest" ->
                 run.1 = processSmartResponse (JObj nested) "multipleRequest"
                           payload)
             /\ (forall error_code,
                   assoc_get nested "error_code" = Some (JNum error_code) ->
                   error_code <> 0 ->
                   run.1 = Throw (SmartError "SMART request failed"
                                    error_code method
                                    (JSON_stringify (JObj nested))
                                    (JSON_stringify payload))))
          /\ (forall error_code,
                assoc_get outer "error_code" = Some (JNum error_code) ->
                error_code <> 0 ->
                run.1 = Throw (SmartError "SMART request failed" error_code
                                 "control_child"
                                 (JSON_stringify (JObj outer))
                                 (JSON_stringify payload))))
  /\ (forall childIds,
        (1 < length childIds)%nat ->
        sendSmartCommand this method params (ChildIdList childIds) sendOptions
          st
        = (Throw (plainError "SMART control_child supports a single child id"),
           st)).
Proof.
  split.
  - intros given childIds Hone device_id payload run.
    split; [reflexivity|].
    assert (Hrun : run
              = match st.(replies) with
                | Ok text :: _ =>
                    match json_parse text with
                    | Some response =>
                        (_ ← assertSmartSuccess response "control_child"
                               payload;
                         if negb (isObjectLike response
                                  && has_prop response "result"
                                  && isObjectLike (get_prop response "result")
                                  && has_prop (get_prop response "result")
                                       "responseData")
                         then Throw (plainError
                                "Unexpected SMART control_child response")
                         else processSmartResponse
                                (get_prop (get_prop response "result")
                                   "responseData") method payload,
                         after_send this sendOptions payload 2 st)
                    | None =>
                        (Throw (plainError "Could not parse SMART response"),
                         after_send this sendOptions payload 2 st)
                    end
                | Throw error :: _ =>
                    (Throw error, after_send this sendOptions payload 2 st)
                | [] => (Throw (plainError "connect ECONNREFUSED"),
                         after_send this sendOptions payload 2 st)
                end).
    { apply (sendSmartCommand_child this method params childIds given
               sendOptions st Hone). }
    split.
    + rewrite Hrun.
      destruct (replies st) as [|[text|error] later]; try reflexivity.
      destruct (json_parse text); reflexivity.
    + intros text later outer result Hreplies Hparse.
      assert (Hvalue : run.1
                = (_ ← assertSmartSuccess (JObj outer) "control_child"
                         payload;
                   if negb (isObjectLike (JObj outer)
                            && has_prop (JObj outer) "result"
                            && isObjectLike (get_prop (JObj outer) "result")
                            && has_prop (get_prop (JObj outer) "result")
                                 "responseData")
                   then Throw (plainError
                          "Unexpected SMART control_child response")
                   else processSmartResponse
                          (get_prop (get_prop (JObj outer) "result")
                             "responseData") method payload)).
      { rewrite Hrun, Hreplies, Hparse. reflexivity. }
      clear Hrun. clearbody run.
      assert (Houter : forall error_code,
                assoc_get outer "error_code" = Some (JNum error_code) ->
                assertSmartSuccess (JObj outer) "control_child" payload
                = if decide (error_code ≠ 0)
                  then Throw (SmartError "SMART request failed" error_code
                                "control_child"
                                (JSON_stringify (JObj outer))
                                (JSON_stringify payload))
                  else Ok (JObj outer)).
      { intros error_code Hcode.
        unfold assertSmartSuccess, isSmartResponse.
        cbn [isObjectLike get_prop andb]. rewrite Hcode. reflexivity. }
      split.
      * intros nested Hcode Hresult Hdata.
        rewrite (Houter 0 Hcode) in Hvalue.
        destruct (decide (0 ≠ 0)); [contradiction|].
        cbn [mbind outcome_bind isObjectLike has_prop get_prop andb]
          in Hvalue.
        rewrite Hresult in Hvalue.
        cbn [default from_option id isObjectLike has_prop get_prop]
          in Hvalue.
        rewrite Hdata in Hvalue.
        rewrite !bool_decide_eq_true_2 in Hvalue by (eexists; reflexivity).
        cbn [negb andb default from_option id] in Hvalue.
        rewrite Hvalue.
        split; [|split].
        -- intros Hnested Hmethod.
           unfold processSmartResponse, assertSmartSuccess, isSmartResponse.
           cbn [isObjectLike get_prop andb]. rewrite Hnested.
           cbn [default from_option id is_number negb].
           destruct (decide (0 ≠ 0)); [contradiction|].
           cbn [mbind outcome_bind].
           rewrite bool_decide_eq_false_2 by exact Hmethod.
           reflexivity.
        -- intros Hnested ->. reflexivity.
        -- intros error_code Hnested Hnonzero.
           unfold processSmartResponse, assertSmartSuccess, isSmartResponse.
           cbn [isObjectLike get_prop andb]. rewrite Hnested.
           cbn [default from_option id is_number negb].
           destruct (decide (error_code ≠ 0)); [|contradiction].
           reflexivity.
      * intros error_code Hcode Hnonzero.
        rewrite (Houter error_code Hcode) in Hvalue.
        destruct (decide (error_code ≠ 0)); [|contradiction].
        exact Hvalue.
  - intros childIds Hmany. unfold sendSmartCommand.
    cbv beta iota zeta delta [getSingleSmartChildId castArray mbind M_bind
      lift].
    rewrite length_fmap.
    destruct (Nat.ltb_spec 1 (length childIds)); [reflexivity | lia].
Qed.

End Commands.

(** The batch of the example device: the second entry failed with
    -1001. *)
Lemma smart_batch_entries_witness :
  let first := JObj [("method", JStr "get_device_info");
                     ("error_code", JNum 0); ("result", JObj [])] in
  let second := JObj [("method", JStr "get_device_time");
                      ("error_code", JNum (-1001))] in
  @processResponseEntries Toy.runtime [first; second] JNull []
  = Throw (SmartError "SMART request failed" (-1001) "get_device_time"
             (Toy.stringify second) "null").
Proof.
  intros first second.
  destruct (@smart_batch_entries Toy.runtime JNull [first; second])
    as (_ & Hfirst & _).
  destruct (Hfirst [first] second [] eq_refl) as [_ Hfailed].
  - constructor; [|constructor]. exists "get_device_info". reflexivity.
  - apply (Hfailed "get_device_time" (-1001)); [reflexivity | lia].
Defined.

(** Scenario 7 of the specification: [set_device_info] for child "00" of
    device "D". *)
Lemma control_child_routing_witness :
  let st := Toy.smart_state [Ok "{child-applied}"] in
  let run := @sendSmartCommand Toy.runtime Toy.device "set_device_info"
               (JObj [("brightness", JNum 50)]) (OneChildId "00") None st in
  normalizeChildId Toy.device "00" = "D00"
  /\ run.1 = Ok (JObj [("applied", JBool true)]).
Proof.
  intros st run.
  destruct (@control_child_routing Toy.runtime Toy.device "set_device_info"
              (JObj [("brightness", JNum 50)]) None st) as [Hone _].
  destruct (Hone "00" (OneChildId "00") (or_introl eq_refl))
    as (Hid & _ & Hresult).
  split; [exact Hid|].
  destruct (Hresult "{child-applied}" []
              [("error_code", JNum 0);
               ("result",
                JObj [("responseData",
                       JObj [("error_code", JNum 0);
                             ("result", JObj [("applied", JBool true)])])])]
              [("responseData",
                JObj [("error_code", JNum 0);
                      ("result", JObj [("applied", JBool true)])])]
              eq_refl eq_refl) as [Hnested _].
  destruct (Hnested [("error_code", JNum 0);
                     ("result", JObj [("applied", JBool true)])]
              eq_refl eq_refl eq_refl) as [Hok _].
  apply Hok; [reflexivity | discriminate].
Defined.

(** C5 as stated fails for the method "multipleRequest": with both error
    codes 0 and the nested result [{responses: []}], the call for child
    "00" returns the empty object of the batch processing, not the nested
    result. *)
Lemma control_child_batch_counterexample :
  let st := Toy.smart_state [Ok "{child-batch}"] in
  let run := @sendSmartCommand Toy.runtime Toy.device "multipleRequest"
               (JObj [("requests", JArr [])]) (OneChildId "00") None st in
  let response := default JUndefined (Toy.parse "{child-batch}") in
  let responseData :=
    get_prop (get_prop response "result") "responseData" in
  get_prop response "error_code" = JNum 0
  /\ get_prop responseData "error_code" = JNum 0
  /\ get_prop responseData "result" = JObj [("responses", JArr [])]
  /\ run.1 = Ok (JObj [])
  /\ run.1 <> Ok (get_prop responseData "result").
Proof.
  intros st run response responseData.
  assert (Hrun : run.1 = Ok (JObj [])) by (vm_compute; reflexivity).
  split; [vm_compute; reflexivity|].
  split; [vm_compute; reflexivity|].
  split; [vm_compute; reflexivity|].
  split; [exact Hrun|].
  rewrite Hrun. vm_compute. intros H. discriminate H.
Qed.

End SmartFacts.

(** * Session expiry, for both transports *)

Module ExpiryFacts.

Lemma adjustedSessionSeconds_numeric (t : Z) :
  adjustedSessionSeconds (Some t) = Z.max 1 (t - 1200).
Proof. reflexivity. Qed.

(** C2, as the code has it.  After a successful handshake (KLAP:
    [ensureSession] that posted requests; AES: [performHandshake]) whose
    response carried a TIMEOUT cookie that [parseInt] reads as [t], the
    stored expiry is the clock reading taken when it is stored plus
    [max(1, t - 1200)] seconds.  So it is the server's timeout less 1200
    seconds when [t] is at least 1201, and one second after the reading
    for every smaller [t]. *)
Theorem session_expiry_after_handshake `{RT : Runtime} :
  (forall (this : Klap.Options) (timeout : Z) (st st' : Klap.State),
     Klap.ensureSession this timeout st = (Ok tt, st') ->
     st'.(Klap.requests) <> st.(Klap.requests) ->
     exists response rest,
       st.(Klap.replies) = Response response :: rest
       /\ forall text t,
            getCookieValue (parseSetCookie response.(Klap.headers))
              TIMEOUT_COOKIE_NAME = Some text ->
            parseInt text = Some t ->
            let now := st.(Klap.clock) (st'.(Klap.ticks) - 1)%nat in
            st'.(Klap.sessionExpiresAt) = now + Z.max 1 (t - 1200) * 1000
            /\ (1201 <= t ->
                st'.(Klap.sessionExpiresAt) = now + (t - 1200) * 1000)
            /\ (t <= 1200 -> st'.(Klap.sessionExpiresAt) = now + 1000))
  /\ (forall (timeout : Z) (st st' : Aes.State),
        Aes.performHandshake timeout st = (Ok tt, st') ->
        exists response rest,
          st.(Aes.replies) = Response response :: rest
          /\ forall text t,
               getCookieValue (parseSetCookie response.(Aes.headers))
                 TIMEOUT_COOKIE_NAME = Some text ->
               parseInt text = Some t ->
               let now := st.(Aes.clock) st.(Aes.ticks) in
               st'.(Aes.sessionExpiresAt) = now + Z.max 1 (t - 1200) * 1000
               /\ (1201 <= t ->
                   st'.(Aes.sessionExpiresAt) = now + (t - 1200) * 1000)
               /\ (t <= 1200 -> st'.(Aes.sessionExpiresAt) = now + 1000)).
Proof.
  split.
  - intros this timeout st st' Hrun Hposted.
    destruct (KlapFacts.ensureSession_inv this timeout st st' _ Hrun)
      as [(_ & _ & Hsame & _)|(h1req & _ & Hcases)]; [contradiction|].
    destruct Hcases as [(error & Hr & _)|
                        (h2req & response & rest & newSession & _ & _ & _
                         & Hreplies & _ & _ & _ & Hexpiry)];
      [discriminate Hr|].
    exists response, rest. split; [exact Hreplies|].
    intros text t Hcookie Hparse now. rewrite Hexpiry, Hcookie.
    cbn [timeoutSeconds_of]. rewrite Hparse, adjustedSessionSeconds_numeric.
    fold now. repeat split; lia.
  - intros timeout st st' Hrun.
    destruct (AesFacts.performHandshake_ok timeout st st' Hrun)
      as (response & rest & props & result & encodedKey & material
          & Hreplies & Hstatus & Hparse & Hcode & Hresult & Hkey & Hunpad
          & Hlen).
    exists response, rest. split; [exact Hreplies|].
    intros text t Hcookie Hint now.
    rewrite (AesFacts.performHandshake_run timeout st response rest props
               result encodedKey Hreplies Hstatus Hparse Hcode Hresult Hkey)
      in Hrun.
    rewrite Hunpad in Hrun.
    destruct (Nat.ltb_spec (length material) 32); [lia|].
    injection Hrun as <-. cbn [Aes.sessionExpiresAt Aes.set_session_fields].
    rewrite Hcookie. cbn [timeoutSeconds_of].
    rewrite Hint, adjustedSessionSeconds_numeric.
    fold now. repeat split; lia.
Qed.

(** C2 as stated fails: with TIMEOUT=1 the KLAP session stored at clock
    reading 5000 expires at 6000, which is later than
    5000 + (1 - 1200) * 1000. *)
Lemma session_expiry_guard_counterexample :
  let st := Toy.klap_state [ Response (Toy.user_handshake1 "1");
                             Response (Toy.klap_status 200) ] in
  let run := @Klap.ensureSession Toy.runtime Toy.klap_options 1500 st in
  run.1 = Ok tt
  /\ parseInt "1" = Some 1
  /\ getCookieValue
       (parseSetCookie (Toy.user_handshake1 "1").(Klap.headers))
       TIMEOUT_COOKIE_NAME = Some "1"
  /\ run.2.(Klap.sessionExpiresAt) = 6000
  /\ ~ (run.2.(Klap.sessionExpiresAt) <= 5000 + (1 - 1200) * 1000).
Proof.
  intros st run.
  assert (Hexpiry : run.2.(Klap.sessionExpiresAt) = 6000)
    by (vm_compute; reflexivity).
  split; [vm_compute; reflexivity|].
  split; [vm_compute; reflexivity|].
  split; [vm_compute; reflexivity|].
  split; [exact Hexpiry|].
  rewrite Hexpiry. lia.
Qed.

Lemma session_expiry_after_handshake_witness :
  let st := Toy.klap_state [ Response (Toy.user_handshake1 "3600");
                             Response (Toy.klap_status 200) ] in
  (@Klap.ensureSession Toy.runtime Toy.klap_options 1500 st).2
    .(Klap.sessionExpiresAt)
  = 5000 + (3600 - 1200) * 1000.
Proof.
  intros st.
  destruct (@session_expiry_after_handshake Toy.runtime) as [Hklap _].
  destruct (Hklap Toy.klap_options 1500 st
              (@Klap.ensureSession Toy.runtime Toy.klap_options 1500 st).2)
    as (response & rest & Hreplies & Hexpiry).
  - vm_compute. reflexivity.
  - vm_compute. intros H. discriminate H.
  - injection Hreplies as <- <-.
    destruct (Hexpiry "3600" 3600) as (_ & Hlarge & _).
    + vm_compute. reflexivity.
    + vm_compute. reflexivity.
    + rewrite Hlarge by lia. reflexivity.
Defined.

End ExpiryFacts.

(** * Further properties of the byte and cookie helpers *)

Module WireFacts.

Lemma int32BE_mod (value : Z) :
  int32BE (value - 0x100000000) = int32BE value.
Proof.
  unfold int32BE, byte_of_Z. rewrite !land_255.
  rewrite !Z.shiftr_div_pow2 by lia.
  change (2 ^ 24) with 16777216. change (2 ^ 16) with 65536.
  change (2 ^ 8) with 256.
  assert (H24 : ((value - 4294967296) / 16777216) mod 256
                = (value / 16777216) mod 256)
    by (Z.div_mod_to_equations; lia).
  assert (H16 : ((value - 4294967296) / 65536) mod 256
                = (value / 65536) mod 256)
    by (Z.div_mod_to_equations; lia).
  assert (H8 : ((value - 4294967296) / 256) mod 256 = (value / 256) mod 256)
    by (Z.div_mod_to_equations; lia).
  assert (H0 : (value - 4294967296) mod 256 = value mod 256)
    by (Z.div_mod_to_equations; lia).
  rewrite H24, H16, H8, H0. reflexivity.
Qed.

(** X1.  [signedInt32Buffer] accepts exactly the values from [-2^31] up to
    [2^32 + 2^31 - 1].  For those it yields the four big-endian bytes of the
    value taken modulo [2^32], so an unsigned 32-bit value and its signed
    counterpart get the same bytes, and reading the bytes back gives
    [toSignedInt32] of the value.  Any other value is a [RangeError]. *)
Theorem signedInt32Buffer_range (value : Z) :
  (INT32_MIN <= value < 0x100000000 + 0x80000000 ->
   signedInt32Buffer value = Ok (int32BE value)
   /\ signedInt32Buffer value = signedInt32Buffer (toSignedInt32 value)
   /\ readInt32BE (int32BE value) 0 = Ok (toSignedInt32 value))
  /\ (value < INT32_MIN \/ 0x100000000 + 0x80000000 <= value ->
      signedInt32Buffer value = Throw (RangeError "ERR_OUT_OF_RANGE")).
Proof.
  unfold INT32_MIN. split.
  - intros Hrange.
    assert (Hsigned : is_int32 (toSignedInt32 value)).
    { unfold is_int32, INT32_MIN, INT32_MAX, toSignedInt32.
      destruct (Z.ltb_spec 2147483647 value); lia. }
    assert (Hbytes : int32BE (toSignedInt32 value) = int32BE value).
    { unfold toSignedInt32.
      destruct (Z.ltb_spec 2147483647 value); [apply int32BE_mod|reflexivity]. }
    assert (Hbuf : signedInt32Buffer value = Ok (int32BE value)).
    { unfold signedInt32Buffer. rewrite <- Hbytes.
      pose proof (signedInt32Buffer_int32 _ Hsigned) as H.
      unfold signedInt32Buffer in H.
      rewrite (toSignedInt32_int32 _ Hsigned) in H. exact H. }
    split; [exact Hbuf|]. split.
    + rewrite Hbuf, (signedInt32Buffer_int32 _ Hsigned), Hbytes. reflexivity.
    + rewrite <- Hbytes. apply readInt32BE_int32BE. exact Hsigned.
  - intros Hout. unfold signedInt32Buffer, writeInt32BE, toSignedInt32,
      INT32_MIN, INT32_MAX.
    destruct (Z.ltb_spec 2147483647 value).
    + destruct (Z.ltb_spec (value - 4294967296) (-2147483648)); [reflexivity|].
      destruct (Z.ltb_spec 2147483647 (value - 4294967296)); [reflexivity|].
      lia.
    + destruct (Z.ltb_spec value (-2147483648)); [reflexivity|].
      destruct (Z.ltb_spec 2147483647 value); [reflexivity|]. lia.
Qed.

Lemma signedInt32Buffer_range_witness :
  signedInt32Buffer 0xffffffff = Ok [xff; xff; xff; xff]
  /\ signedInt32Buffer 0xffffffff = signedInt32Buffer (-1)
  /\ signedInt32Buffer (-0x80000001) = Throw (RangeError "ERR_OUT_OF_RANGE").
Proof.
  destruct (signedInt32Buffer_range 0xffffffff) as [Hin _].
  destruct (signedInt32Buffer_range (-0x80000001)) as [_ Hout].
  destruct Hin as (Hbuf & Hsame & _); [unfold INT32_MIN; lia|].
  split; [rewrite Hbuf; reflexivity|].
  split; [rewrite Hsame; reflexivity|].
  apply Hout. left. unfold INT32_MIN. lia.
Defined.

(** X2.  The sequence number after [n] requests: starting from a signed 32-bit
    number, [n] applications of [incrementSignedInt32] add [n] modulo
    [2^32] within the signed range.  So the numbers, and with them the IVs,
    of any [2^32] consecutive requests of a session are pairwise different,
    and the number is back where it started after exactly [2^32]
    requests. *)
Theorem incrementSignedInt32_iter (seq : Z) (n : nat) :
  is_int32 seq ->
  Nat.iter n incrementSignedInt32 seq
  = (seq + Z.of_nat n + 0x80000000) mod 0x100000000 - 0x80000000
  /\ ((0 < n)%nat -> Z.of_nat n < 0x100000000 ->
      Nat.iter n incrementSignedInt32 seq <> seq)
  /\ (Z.of_nat n = 0x100000000 -> Nat.iter n incrementSignedInt32 seq = seq).
Proof.
  unfold is_int32, INT32_MIN, INT32_MAX. intros Hseq.
  assert (Hiter : Nat.iter n incrementSignedInt32 seq
                  = (seq + Z.of_nat n + 2147483648) mod 4294967296
                    - 2147483648).
  { induction n as [|n IH].
    - simpl. Z.div_mod_to_equations. lia.
    - rewrite Nat.iter_succ, IH. unfold incrementSignedInt32.
      rewrite Nat2Z.inj_succ.
      destruct (Z.leb_spec 2147483647
                  ((seq + Z.of_nat n + 2147483648) mod 4294967296
                   - 2147483648)); Z.div_mod_to_equations; lia. }
  split; [exact Hiter|]. split.
  - intros Hpos Hlt. rewrite Hiter. Z.div_mod_to_equations. lia.
  - intros Hfull. rewrite Hiter, Hfull. Z.div_mod_to_equations. lia.
Qed.

Lemma incrementSignedInt32_iter_witness :
  Nat.iter 3 incrementSignedInt32 0x7ffffffe = -0x7fffffff
  /\ Nat.iter 3 incrementSignedInt32 0x7ffffffe <> 0x7ffffffe.
Proof.
  assert (Hrange : is_int32 0x7ffffffe)
    by (unfold is_int32, INT32_MIN, INT32_MAX; lia).
  destruct (incrementSignedInt32_iter 0x7ffffffe 3 Hrange)
    as (Hiter & Hdiff & _).
  split; [rewrite Hiter; reflexivity | apply Hdiff; lia].
Defined.

(** *** Cookies *)

Lemma split_on_nonempty (sep : ascii) (s : string) : split_on sep s <> [].
Proof.
  destruct s as [|c rest]; simpl; [discriminate|].
  destruct (decide (c = sep)); [discriminate|].
  destruct (split_on sep rest); discriminate.
Qed.

(** A string without the separator is a single piece. *)
Lemma split_on_absent (sep : ascii) (s : string) :
  has_char sep s = false -> split_on sep s = [s].
Proof.
  induction s as [|c rest IH]; simpl; [reflexivity|].
  intros H. apply orb_false_iff in H as [Hc Hrest].
  apply bool_decide_eq_false in Hc.
  destruct (decide (c = sep)); [contradiction|].
  rewrite (IH Hrest). reflexivity.
Qed.

(** The first piece ends at the first separator. *)
Lemma split_on_first (sep : ascii) (first rest : string) :
  has_char sep first = false ->
  split_on sep (first +:+ String sep rest) = first :: split_on sep rest.
Proof.
  induction first as [|c first' IH]; simpl.
  - intros _. destruct (decide (sep = sep)); [reflexivity | contradiction].
  - intros H. apply orb_false_iff in H as [Hc Hrest].
    apply bool_decide_eq_false in Hc.
    destruct (decide (c = sep)); [contradiction|].
    rewrite (IH Hrest). reflexivity.
Qed.

Lemma has_char_app (c : ascii) (a b : string) :
  has_char c (a +:+ b) = has_char c a || has_char c b.
Proof.
  induction a as [|c' a IH]; simpl; [reflexivity|].
  rewrite IH, orb_assoc. reflexivity.
Qed.

Lemma string_app_empty (s : string) : s +:+ EmptyString = s.
Proof.
  induction s as [|c s IH]; [reflexivity|].
  change (String c (s +:+ EmptyString) = String c s). rewrite IH. reflexivity.
Qed.

Lemma string_app_assoc (a b c : string) : (a +:+ b) +:+ c = a +:+ b +:+ c.
Proof.
  induction a as [|x a IH]; [reflexivity|].
  change (String x ((a +:+ b) +:+ c) = String x (a +:+ b +:+ c)).
  rewrite IH. reflexivity.
Qed.

(** The first entry of a [Set-Cookie] line whose entry [entry] has no
    semicolon and is followed by nothing or by [;] and attributes. *)
Lemma first_entry (entry attributes : string) :
  has_char ";" entry = false ->
  attributes = EmptyString \/ (exists text, attributes = String ";" text) ->
  exists pieces, split_on ";" (entry +:+ attributes) = entry :: pieces.
Proof.
  intros Hentry [-> | [text ->]].
  - exists []. rewrite string_app_empty.
    apply split_on_absent, Hentry.
  - exists (split_on ";" text). apply split_on_first, Hentry.
Qed.

(** X3.  [getCookieValue] on a list of [Set-Cookie] lines that starts with the
    line [name=value] followed by nothing or by [;] and attributes, where
    the name has no [=] and neither name nor value has a [;].  Asked for
    that name, it returns the value, cut at its first [=] if it has one (a
    value such as ["abc=="] is returned as ["abc"]); the attributes play no
    part.  Asked for another name, it goes on with the remaining lines, as
    it does after a line whose first entry has no [=] at all. *)
Theorem getCookieValue_first_line (name value attributes : string)
  (rest : list string) :
  has_char ";" name = false ->
  has_char "=" name = false ->
  has_char ";" value = false ->
  attributes = EmptyString \/ (exists text, attributes = String ";" text) ->
  let line := name +:+ "=" +:+ value +:+ attributes in
  (has_char "=" value = false ->
   getCookieValue (line :: rest) name = Some value)
  /\ (forall kept cut,
        value = kept +:+ "=" +:+ cut -> has_char "=" kept = false ->
        getCookieValue (line :: rest) name = Some kept)
  /\ (forall other,
        other <> name ->
        getCookieValue (line :: rest) other = getCookieValue rest other)
  /\ (forall other,
        getCookieValue ((name +:+ attributes) :: rest) other
        = getCookieValue rest other).
Proof.
  intros Hname_semi Hname_eq Hvalue_semi Hattributes line.
  assert (Hentry : has_char ";" (name +:+ "=" +:+ value) = false).
  { rewrite !has_char_app, Hname_semi, Hvalue_semi. reflexivity. }
  assert (Hline : exists pieces,
             split_on ";" line = (name +:+ "=" +:+ value) :: pieces).
  { unfold line.
    replace (name +:+ "=" +:+ value +:+ attributes)
      with ((name +:+ "=" +:+ value) +:+ attributes)
      by (rewrite <- !string_app_assoc; reflexivity).
    apply first_entry; assumption. }
  destruct Hline as [pieces Hline].
  assert (Hpair : split_on "=" (name +:+ "=" +:+ value)
                  = name :: split_on "=" value).
  { apply (split_on_first "=" name value Hname_eq). }
  split; [|split; [|split]].
  - intros Hvalue_eq. cbn [getCookieValue]. rewrite Hline, Hpair.
    rewrite (split_on_absent "=" value Hvalue_eq).
    destruct (decide (name = name)); [reflexivity | contradiction].
  - intros kept cut -> Hkept. cbn [getCookieValue]. rewrite Hline, Hpair.
    pose proof (split_on_first "=" kept cut Hkept) as Hcut.
    change (String "=" cut) with ("=" +:+ cut) in Hcut. rewrite Hcut.
    destruct (decide (name = name)); [reflexivity | contradiction].
  - intros other Hother. cbn [getCookieValue]. rewrite Hline, Hpair.
    destruct (split_on "=" value) as [|piece pieces'] eqn:Hsplit.
    + destruct (split_on_nonempty _ _ Hsplit).
    + destruct (decide (name = other)) as [Heq|_]; [|reflexivity].
      symmetry in Heq. contradiction.
  - intros other.
    destruct (first_entry name attributes Hname_semi Hattributes)
      as [pieces' Hfirst].
    cbn [getCookieValue]. rewrite Hfirst.
    rewrite (split_on_absent "=" name Hname_eq). reflexivity.
Qed.

Lemma getCookieValue_first_line_witness :
  getCookieValue ["TP_SESSIONID=abc==;Path=/"; "TIMEOUT=3600"] "TP_SESSIONID"
  = Some "abc"
  /\ getCookieValue ["TP_SESSIONID=abc==;Path=/"; "TIMEOUT=3600"] "TIMEOUT"
     = Some "3600".
Proof.
  destruct (getCookieValue_first_line "TP_SESSIONID" "abc==" ";Path=/"
              ["TIMEOUT=3600"] eq_refl eq_refl eq_refl
              (or_intror (ex_intro _ "Path=/" eq_refl)))
    as (_ & Hcut & Hother & _).
  split.
  - apply (Hcut "abc" "="); reflexivity.
  - refine (eq_trans (Hother "TIMEOUT" _) _); [discriminate|].
    destruct (getCookieValue_first_line "TIMEOUT" "3600" EmptyString []
                eq_refl eq_refl eq_refl (or_introl eq_refl))
      as (Hplain & _).
    apply Hplain. reflexivity.
Defined.

End WireFacts.

(** * Further properties of the KLAP transport *)

Module KlapSessionFacts.
Import Klap.

Section Derivation.
Context `{RT : Runtime}.

Lemma readInt32BE_range (buf : bytes) (offset : nat) (value : Z) :
  readInt32BE buf offset = Ok value -> is_int32 value.
Proof.
  unfold readInt32BE, is_int32, INT32_MIN, INT32_MAX.
  destruct (drop offset buf) as [|b0 [|b1 [|b2 [|b3 tl]]]];
    try discriminate.
  pose proof (Z_of_byte_range b0) as H0.
  pose proof (Z_of_byte_range b1) as H1.
  pose proof (Z_of_byte_range b2) as H2.
  pose proof (Z_of_byte_range b3) as H3.
  intros Hread. injection Hread as <-.
  destruct (Z.ltb_spec 2147483647
              (Z_of_byte b0 * 16777216 + Z_of_byte b1 * 65536
               + Z_of_byte b2 * 256 + Z_of_byte b3)); lia.
Qed.

Lemma byte_of_Z_mod (z : Z) (b : byte) :
  z mod 256 = Z_of_byte b -> byte_of_Z z = b.
Proof.
  intros H. rewrite <- (byte_of_Z_of_byte b). unfold byte_of_Z.
  rewrite !land_255, <- H, Z.mod_mod by lia. reflexivity.
Qed.

(** Writing back the number read from four bytes gives those bytes. *)
Lemma int32BE_readInt32BE (b0 b1 b2 b3 : byte) (value : Z) :
  readInt32BE [b0; b1; b2; b3] 0 = Ok value ->
  int32BE value = [b0; b1; b2; b3].
Proof.
  unfold readInt32BE. simpl drop. cbv beta iota zeta.
  pose proof (Z_of_byte_range b0) as H0.
  pose proof (Z_of_byte_range b1) as H1.
  pose proof (Z_of_byte_range b2) as H2.
  pose proof (Z_of_byte_range b3) as H3.
  intros Hread. injection Hread as <-. unfold int32BE.
  rewrite !Z.shiftr_div_pow2 by lia.
  change (2 ^ 24) with 16777216. change (2 ^ 16) with 65536.
  change (2 ^ 8) with 256.
  destruct (Z.ltb_spec 2147483647
              (Z_of_byte b0 * 16777216 + Z_of_byte b1 * 65536
               + Z_of_byte b2 * 256 + Z_of_byte b3));
    repeat f_equal; apply byte_of_Z_mod; Z.div_mod_to_equations; lia.
Qed.

(** X4.  With a SHA-256 that yields 32 bytes, [createKlapEncryptionSession]
    always returns a session: the key is the first 16 bytes of
    sha256("lsk" ‖ seeds ‖ hash), the signature prefix the first 28 bytes of
    sha256("ldk" ‖ seeds ‖ hash), and the IV prefix and the sequence number
    are the first 12 bytes and the last 4 bytes, read as a signed big-endian
    number, of sha256("iv" ‖ seeds ‖ hash); written back, the initial
    sequence number gives those last 4 bytes again. *)
Theorem klap_session_derivation (laws : RuntimeLaws)
  (localSeed remoteSeed authHash : bytes) :
  let material := localSeed ++ remoteSeed ++ authHash in
  let fullIv := sha256 (from_utf8 "iv" ++ material) in
  exists session,
    createKlapEncryptionSession localSeed remoteSeed authHash = Ok session
    /\ klap_session_ok session
    /\ session.(key) = take 16 (sha256 (from_utf8 "lsk" ++ material))
    /\ session.(signaturePrefix)
       = take 28 (sha256 (from_utf8 "ldk" ++ material))
    /\ session.(ivPrefix) = take 12 fullIv
    /\ readInt32BE fullIv 28 = Ok session.(sequence)
    /\ session.(ivPrefix) ++ int32BE session.(sequence)
       = take 12 fullIv ++ drop 28 fullIv.
Proof.
  intros material fullIv.
  pose proof (sha256_length laws (from_utf8 "iv" ++ material)) as Hlen.
  fold fullIv in Hlen.
  destruct (drop 28 fullIv) as [|b0 [|b1 [|b2 [|b3 [|b4 tl]]]]] eqn:Hlast;
    try (apply (f_equal length) in Hlast; rewrite length_drop, Hlen in Hlast;
         simpl in Hlast; lia).
  destruct (readInt32BE fullIv 28) as [seq|error] eqn:Hread;
    [|unfold readInt32BE in Hread; rewrite Hlast in Hread; discriminate Hread].
  assert (Hread' : readInt32BE [b0; b1; b2; b3] 0 = Ok seq).
  { unfold readInt32BE in *. rewrite Hlast in Hread. exact Hread. }
  exists {| key := take 16 (sha256 (from_utf8 "lsk" ++ material));
            ivPrefix := take 12 fullIv;
            signaturePrefix := take 28 (sha256 (from_utf8 "ldk" ++ material));
            sequence := seq |}.
  split.
  { unfold createKlapEncryptionSession. fold material. fold fullIv.
    rewrite Hlen. change (32 - 4)%nat with 28%nat. rewrite Hread.
    unfold subarray. rewrite !drop_0. reflexivity. }
  split.
  { unfold klap_session_ok. cbn [key ivPrefix signaturePrefix sequence].
    rewrite !length_take, !(sha256_length laws), Hlen.
    repeat split; try reflexivity.
    - apply (readInt32BE_range _ _ _ Hread).
    - apply (readInt32BE_range _ _ _ Hread). }
  cbn [key ivPrefix signaturePrefix sequence].
  repeat split.
  rewrite (int32BE_readInt32BE _ _ _ _ _ Hread'). reflexivity.
Qed.

(** The part of [klap_session_derivation] that the session invariant
    needs. *)
Lemma klap_session_shape (laws : RuntimeLaws)
  (localSeed remoteSeed authHash : bytes) :
  exists session,
    createKlapEncryptionSession localSeed remoteSeed authHash = Ok session
    /\ klap_session_ok session.
Proof.
  pose proof (sha256_length laws
                (from_utf8 "iv" ++ localSeed ++ remoteSeed ++ authHash))
    as Hlen.
  unfold createKlapEncryptionSession. rewrite Hlen.
  change (32 - 4)%nat with 28%nat.
  destruct (readInt32BE _ 28) as [seq|error] eqn:Hread.
  - eexists. split; [reflexivity|].
    unfold klap_session_ok, subarray. cbn.
    rewrite !length_take, !length_drop, !(sha256_length laws).
    repeat split; try reflexivity; apply (readInt32BE_range _ _ _ Hread).
  - exfalso. unfold readInt32BE in Hread.
    destruct (drop 28 _) as [|b0 [|b1 [|b2 [|b3 tl]]]] eqn:Hlast;
      try discriminate Hread;
      apply (f_equal length) in Hlast; rewrite length_drop, Hlen in Hlast;
      simpl in Hlast; lia.
Qed.

End Derivation.

End KlapSessionFacts.

Module KlapExchangeFacts.
Import Klap.

Section Exchange.
Context `{RT : Runtime}.

Ltac run_klap :=
  cbv beta iota zeta delta [ensureSession isSessionExpired resetSession
    randomBytes Date_now post mbind M_bind mret M_ret gets modify lift throw
    set_session_fields no_options
    Klap.session sessionCookie sessionExpiresAt requests replies clock ticks
    entropy draws].

(** X5.  The KLAP handshake as [ensureSession] performs it when there is no
    session.  [handshake1] posts the 16 fresh random bytes, without cookie.
    When the device answers 200 with 16 bytes of remote seed and a 32-byte
    hash that some candidate matches, [handshake2] posts that candidate's
    [handshake2SeedAuthHash] under the cookie [TP_SESSIONID=<id>] taken from
    the [Set-Cookie] lines of the first response.  When that is answered 200
    too, the connection stores the session derived from the two seeds and
    the matched hash together with the same cookie, which is the cookie
    that the data requests will carry. *)
Theorem klap_handshake_exchange (this : Options) (timeout : Z) (st : State)
  (h1 h2 : KlapHttpResponse) (rest : list (reply KlapHttpResponse))
  (matched : KlapAuthCandidate) (newSession : KlapEncryptionSession) :
  let localSeed := resize 16 x00 (st.(entropy) st.(draws)) in
  let remoteSeed := take 16 h1.(body) in
  let serverHash := drop 16 h1.(body) in
  let cookieHeader :=
    (fun id => "TP_SESSIONID=" +:+ id)
      <$> getCookieValue (parseSetCookie h1.(headers)) "TP_SESSIONID" in
  st.(session) = None ->
  st.(replies) = Response h1 :: Response h2 :: rest ->
  h1.(statusCode) = 200 ->
  length h1.(body) = 48%nat ->
  selectAuthCandidate this localSeed remoteSeed serverHash = Ok matched ->
  h2.(statusCode) = 200 ->
  createKlapEncryptionSession localSeed remoteSeed matched.(authHash)
  = Ok newSession ->
  let run := ensureSession this timeout st in
  run.1 = Ok tt
  /\ run.2.(requests)
     = st.(requests)
       ++ [ {| req_path := "/app/handshake1"; req_data := localSeed;
               req_options := {| query := None; cookie := None |} |};
            {| req_path := "/app/handshake2";
               req_data := handshake2SeedAuthHash localSeed remoteSeed
                             matched.(authHash) matched.(version);
               req_options := {| query := None;
                                 cookie := cookieHeader |} |} ]
  /\ run.2.(session) = Some newSession
  /\ run.2.(sessionCookie) = cookieHeader
  /\ run.2.(replies) = rest
  /\ run.2.(draws) = S st.(draws).
Proof.
  intros localSeed remoteSeed serverHash cookieHeader Hsession Hreplies Hs1
    Hlen Hselect Hs2 Hcreate run.
  subst run localSeed remoteSeed serverHash cookieHeader.
  destruct st as [ses cookie0 expires reqs reps clk tks ent drw].
  cbn [Klap.session replies entropy draws requests] in *.
  subst ses reps. run_klap.
  destruct (decide (statusCode h1 ≠ 200)) as [Hno|_]; [contradiction|].
  rewrite Hlen. cbn [Nat.ltb Nat.leb].
  unfold subarray_from, subarray. rewrite drop_0, length_drop, Hlen.
  cbn [Nat.sub].
  destruct (decide (32%nat ≠ 32%nat)) as [Hno|_]; [contradiction|].
  change (16 - 0)%nat with 16%nat.
  rewrite Hselect. run_klap.
  destruct (decide (statusCode h2 ≠ 200)) as [Hno|_]; [contradiction|].
  rewrite Hcreate. run_klap. cbn [fst snd].
  rewrite <- app_assoc. repeat split; reflexivity.
Qed.

(** X6.  A [handshake1] response with status 200 is accepted only when its
    body has exactly 48 bytes (16 of seed and 32 of hash): with fewer the
    response is invalid, with more the hash length is.  In both cases
    [handshake2] is not posted and the connection is left without
    session. *)
Theorem klap_handshake1_body_length (this : Options) (timeout : Z)
  (st : State) (h1 : KlapHttpResponse)
  (rest : list (reply KlapHttpResponse)) :
  st.(session) = None ->
  st.(replies) = Response h1 :: rest ->
  h1.(statusCode) = 200 ->
  length h1.(body) <> 48%nat ->
  let run := ensureSession this timeout st in
  run.1 = Throw (plainError
                   (if (length h1.(body) <? 48)%nat
                    then "handshake1 response is invalid"
                    else "handshake1 hash length is invalid"))
  /\ run.2.(requests)
     = st.(requests)
       ++ [ {| req_path := "/app/handshake1";
               req_data := resize 16 x00 (st.(entropy) st.(draws));
               req_options := {| query := None; cookie := None |} |} ]
  /\ run.2.(replies) = rest
  /\ run.2.(session) = None.
Proof.
  intros Hsession Hreplies Hs1 Hlen run. subst run.
  destruct st as [ses cookie0 expires reqs reps clk tks ent drw].
  cbn [Klap.session replies entropy draws requests] in *.
  subst ses reps. run_klap.
  destruct (decide (statusCode h1 ≠ 200)) as [Hno|_]; [contradiction|].
  destruct (Nat.ltb_spec (length (body h1)) 48) as [Hshort|Hlong].
  - repeat split; reflexivity.
  - unfold subarray_from. rewrite length_drop.
    destruct (decide ((length (body h1) - 16)%nat ≠ 32%nat)) as [_|Heq];
      [repeat split; reflexivity | exfalso; lia].
Qed.

(** Where the session that [ensureSession] leaves comes from: it is the
    live session the connection had, or the call failed and there is none,
    or it was derived by [createKlapEncryptionSession] in a handshake. *)
Lemma ensureSession_session_origin (this : Options) (timeout : Z)
  (st st' : State) (r : outcome unit) :
  ensureSession this timeout st = (r, st') ->
  (r = Ok tt /\ is_Some st.(session) /\ st'.(session) = st.(session))
  \/ (exists error, r = Throw error /\ st'.(session) = None)
  \/ (exists localSeed remoteSeed hash derived,
        r = Ok tt
        /\ createKlapEncryptionSession localSeed remoteSeed hash = Ok derived
        /\ st'.(session) = Some derived).
Proof.
  assert (Hfresh : forall st0,
            st0.(session) = None ->
            ensureSession this timeout st0 = (r, st') ->
            (exists error, r = Throw error /\ st'.(session) = None)
            \/ (exists localSeed remoteSeed hash derived,
                  r = Ok tt
                  /\ createKlapEncryptionSession localSeed remoteSeed hash
                     = Ok derived
                  /\ st'.(session) = Some derived)).
  { intros st0 Hnone H.
    destruct st0 as [ses cookie0 expires reqs reps clk tks ent drw].
    cbn [Klap.session] in Hnone. subst ses.
    revert H. run_klap.
    destruct reps as [|[h1|message] rest];
      try (intros H; injection H as <- <-; left; eexists;
           split; reflexivity).
    destruct (decide (statusCode h1 ≠ 200));
      [intros H; injection H as <- <-; left; eexists; split; reflexivity|].
    destruct (length (body h1) <? 48)%nat;
      [intros H; injection H as <- <-; left; eexists; split; reflexivity|].
    destruct (decide (length (subarray_from (body h1) 16) ≠ 32%nat));
      [intros H; injection H as <- <-; left; eexists; split; reflexivity|].
    destruct (selectAuthCandidate _ _ _ _) as [matched|error];
      [|intros H; injection H as <- <-; left; eexists; split; reflexivity].
    run_klap.
    destruct rest as [|[h2|message] rest];
      try (intros H; injection H as <- <-; left; eexists;
           split; reflexivity).
    destruct (decide (statusCode h2 ≠ 200));
      [intros H; injection H as <- <-; left; eexists; split; reflexivity|].
    destruct (createKlapEncryptionSession _ _ _) as [derived|error]
      eqn:Hcreate;
      [|intros H; injection H as <- <-; left; eexists; split; reflexivity].
    run_klap. intros H. injection H as <- <-. right.
    eexists _, _, _, derived. split; [reflexivity|].
    split; [exact Hcreate | reflexivity]. }
  intros Hrun.
  destruct (session st) as [current|] eqn:Hsession.
  - destruct (KlapFacts.ensureSession_stale this timeout st current Hsession)
      as [[Hzero Heq]|[(Hnz & Hle & Heq)|(Hnz & Hgt & Heq)]];
      rewrite Heq in Hrun.
    + right. apply (Hfresh (set_session_fields None None 0 st) eq_refl Hrun).
    + right. apply (Hfresh (set_session_fields None None 0 (Date_now st).2)
                      eq_refl Hrun).
    + left. injection Hrun as <- <-.
      split; [reflexivity|]. split; [eexists; reflexivity|].
      exact Hsession.
  - right. apply (Hfresh st Hsession Hrun).
Qed.

(** What [sendEncryptedRequest] does to the session: nothing, or it
    advances the sequence number by one increment. *)
Lemma sendEncryptedRequest_session (payload : string) (timeout : Z)
  (st : State) :
  let st' := (sendEncryptedRequest payload timeout st).2 in
  st'.(session) = st.(session)
  \/ exists current,
       st.(session) = Some current
       /\ st'.(session)
          = Some (set_sequence current
                    (incrementSignedInt32 current.(sequence))).
Proof.
  intros st'. subst st'.
  destruct (session st) as [current|] eqn:Hsession.
  - destruct (encryptKlapPayload current payload) as [encrypted|error]
      eqn:Henc.
    + right. exists current. split; [reflexivity|].
      assert (Hseq : enc_seq encrypted
                     = incrementSignedInt32 (sequence current)).
      { unfold encryptKlapPayload in Henc.
        destruct (signedInt32Buffer _); cbn [mbind outcome_bind] in Henc;
          [|discriminate Henc].
        destruct (aes_128_cbc_encrypt _ _ _); cbn [mbind outcome_bind] in Henc;
          [|discriminate Henc].
        injection Henc as <-. reflexivity. }
      rewrite (KlapFacts.sendEncryptedRequest_run current encrypted payload
                 timeout st Hsession Henc).
      cbv zeta. rewrite Hseq.
      match goal with
      | |- context [post ?p ?d ?t ?o ?s] =>
          pose proof (KlapFacts.post_requests p d t o s) as Hpost;
          destruct (post p d t o s) as [[requestResponse|error] st2]
      end; cbv zeta in Hpost; cbn [snd] in Hpost;
        destruct Hpost as (_ & Hses & _);
        cbn [Klap.session set_session_fields] in Hses.
      * destruct (decide (statusCode requestResponse = 403));
          [|destruct (decide (statusCode requestResponse ≠ 200))];
          exact Hses.
      * exact Hses.
    + left.
      unfold sendEncryptedRequest, mbind, M_bind, gets, lift.
      rewrite Hsession, Henc. cbn [snd]. exact Hsession.
  - left.
    unfold sendEncryptedRequest, mbind, M_bind, gets, throw.
    rewrite Hsession. cbn [snd]. exact Hsession.
Qed.

Lemma set_sequence_ok (current : KlapEncryptionSession) :
  klap_session_ok current ->
  klap_session_ok
    (set_sequence current (incrementSignedInt32 current.(sequence))).
Proof.
  intros (Hkey & Hiv & Hsig & Hseq).
  unfold klap_session_ok, set_sequence. cbn.
  repeat split; try assumption;
    apply (incrementSignedInt32_spec _ Hseq).
Qed.

(** One attempt of [send] keeps the shape of the session. *)
Lemma attempt_keeps_session_ok (laws : RuntimeLaws) (this : Options)
  (payload : string) (timeout : Z) (st : State) :
  klap_state_ok st ->
  klap_state_ok
    ((ensureSession this timeout ≫= fun _ =>
      sendEncryptedRequest payload timeout) st).2.
Proof.
  intros Hok. unfold mbind, M_bind.
  destruct (ensureSession this timeout st) as [[[]|error] st0] eqn:Hensure.
  - assert (Hok0 : klap_state_ok st0).
    { destruct (ensureSession_session_origin this timeout st st0 _ Hensure)
        as [(_ & _ & Hsame)|[(e & _ & Hnone)|
            (l & rs & a & derived & _ & Hcreate & Hses)]].
      - intros s Hs. apply Hok. rewrite <- Hsame. exact Hs.
      - intros s Hs. rewrite Hnone in Hs. discriminate Hs.
      - intros s Hs. rewrite Hses in Hs. injection Hs as <-.
        destruct (KlapSessionFacts.klap_session_shape laws l rs a)
          as (s & Hs & Hshape).
        rewrite Hcreate in Hs. injection Hs as <-. exact Hshape. }
    destruct (sendEncryptedRequest_session payload timeout st0)
      as [Hsame|(current & Hcur & Hnext)].
    + intros s Hs. apply Hok0. rewrite <- Hsame. exact Hs.
    + intros s Hs. rewrite Hnext in Hs. injection Hs as <-.
      apply set_sequence_ok, Hok0, Hcur.
  - cbn [snd].
    destruct (ensureSession_session_origin this timeout st st0 _ Hensure)
      as [(Hr & _)|[(e & _ & Hnone)|(l & rs & a & derived & Hr & _)]];
      try discriminate Hr.
    intros s Hs. rewrite Hnone in Hs. discriminate Hs.
Qed.

(** X7.  The session of a KLAP connection keeps its shape across [send]: if
    the session held before the call, when there is one, has a 16-byte key,
    12 bytes of IV prefix, 28 bytes of signature prefix and a signed 32-bit
    sequence number, then so has the session held after the call, whatever
    the device answered.  With such a session the request of a call whose
    [ensureSession] succeeded always encrypts, so it is always posted. *)
Theorem klap_send_keeps_session_shape (laws : RuntimeLaws) (this : Options)
  (payload : string) (timeout : Z) (st : State) :
  klap_state_ok st ->
  klap_state_ok (send this payload timeout st).2
  /\ forall st0,
       ensureSession this timeout st = (Ok tt, st0) ->
       exists current encrypted,
         st0.(session) = Some current
         /\ klap_session_ok current
         /\ encryptKlapPayload current payload = Ok encrypted
         /\ encrypted.(enc_seq) = incrementSignedInt32 current.(sequence).
Proof.
  intros Hok. split.
  - rewrite KlapFacts.send_unfold.
    pose proof (attempt_keeps_session_ok laws this payload timeout st Hok)
      as Hfirst.
    destruct ((ensureSession this timeout ≫= _) st) as [[response|error] st1];
      [exact Hfirst|].
    destruct (decide (error_statusCode error = Some 403)); [|exact Hfirst].
    apply (attempt_keeps_session_ok laws).
    intros s Hs. discriminate Hs.
  - intros st0 Hensure.
    assert (Hcurrent : exists current,
              st0.(session) = Some current /\ klap_session_ok current).
    { destruct (ensureSession_session_origin this timeout st st0 _ Hensure)
        as [(_ & [current Hsome] & Hsame)|[(e & He & _)|
            (l & rs & a & derived & _ & Hcreate & Hses)]].
      - exists current. rewrite Hsame. split; [exact Hsome|].
        apply Hok, Hsome.
      - discriminate He.
      - exists derived. split; [exact Hses|].
        destruct (KlapSessionFacts.klap_session_shape laws l rs a)
          as (s & Hs & Hshape).
        rewrite Hcreate in Hs. injection Hs as <-. exact Hshape. }
    destruct Hcurrent as (current & Hses & Hshape).
    pose proof Hshape as (Hkey & Hiv & _ & Hseq).
    destruct (incrementSignedInt32_spec _ Hseq) as [_ Hnext].
    assert (Hivlen : length (ivPrefix current
                             ++ int32BE (incrementSignedInt32
                                           (sequence current))) = 16%nat).
    { rewrite length_app, int32BE_length, Hiv. reflexivity. }
    destruct (aes_encrypt_defined laws (key current) _ (from_utf8 payload)
                Hkey Hivlen) as [ciphertext Hraw].
    exists current. eexists. split; [exact Hses|]. split; [exact Hshape|].
    rewrite (KlapFacts.encryptKlapPayload_unfold current payload Hseq).
    cbv zeta. unfold aes_128_cbc_encrypt. rewrite Hraw.
    cbn [or_throw mbind outcome_bind]. split; reflexivity.
Qed.

End Exchange.

End KlapExchangeFacts.

Module KlapTrafficFacts.
Import Klap.

Section Traffic.
Context `{RT : Runtime}.

(** X8.  A live session is reused.  When the connection holds a session whose
    expiry lies after the clock reading and the payload encrypts, [send]
    posts no handshake: unless the device answers with status 403, the one
    request it posts is the encrypted payload to the data path, under the
    stored cookie and with the next sequence number, and afterwards the
    session differs only in that sequence number.  With status 200 the
    result is the decrypted body. *)
Theorem klap_live_session_reused (this : Options) (payload : string)
  (timeout : Z) (st : State) (current : KlapEncryptionSession)
  (encrypted : KlapEncrypted) :
  st.(session) = Some current ->
  st.(sessionExpiresAt) <> 0 ->
  st.(clock) st.(ticks) < st.(sessionExpiresAt) ->
  encryptKlapPayload current payload = Ok encrypted ->
  (forall response rest,
     st.(replies) = Response response :: rest ->
     response.(statusCode) <> 403) ->
  let run := send this payload timeout st in
  run.2.(requests)
  = st.(requests)
    ++ [ {| req_path := "/app/request";
            req_data := encrypted.(enc_payload);
            req_options :=
              {| query := Some [("seq", encrypted.(enc_seq))];
                 cookie := st.(sessionCookie) |} |} ]
  /\ run.2.(session) = Some (set_sequence current encrypted.(enc_seq))
  /\ run.2.(sessionCookie) = st.(sessionCookie)
  /\ run.2.(sessionExpiresAt) = st.(sessionExpiresAt)
  /\ (forall response rest,
        st.(replies) = Response response :: rest ->
        response.(statusCode) = 200 ->
        run.1 = decryptKlapPayload
                  (set_sequence current encrypted.(enc_seq))
                  response.(body) encrypted.(enc_seq)).
Proof.
  intros Hsession Hnz Hlive Henc Hnot403 run.
  set (session' := set_sequence current encrypted.(enc_seq)).
  set (after := fun rest =>
         {| session := Some session'; sessionCookie := st.(sessionCookie);
            sessionExpiresAt := st.(sessionExpiresAt);
            requests :=
              st.(requests)
              ++ [ {| req_path := "/app/request";
                      req_data := encrypted.(enc_payload);
                      req_options :=
                        {| query := Some [("seq", encrypted.(enc_seq))];
                           cookie := st.(sessionCookie) |} |} ];
            replies := rest; clock := st.(clock); ticks := S st.(ticks);
            entropy := st.(entropy); draws := st.(draws) |}).
  assert (Hrun : run
                 = match st.(replies) with
                   | Response response :: rest =>
                       (if decide (response.(statusCode) ≠ 200)
                        then Throw (plainError "request failed with status")
                        else decryptKlapPayload session' response.(body)
                               encrypted.(enc_seq),
                        after rest)
                   | Failure message :: rest =>
                       (Throw (plainError message), after rest)
                   | [] => (Throw (plainError "connect ECONNREFUSED"),
                            after [])
                   end).
  { subst run after session'.
    rewrite KlapFacts.send_unfold. unfold mbind at 1, M_bind at 1.
    destruct (KlapFacts.ensureSession_stale this timeout st current Hsession)
      as [[Hzero _]|[(_ & Hle & _)|(_ & _ & Heq)]]; [contradiction | lia |].
    rewrite Heq.
    assert (Hsession' : session (Date_now st).2 = Some current)
      by exact Hsession.
    rewrite (KlapFacts.sendEncryptedRequest_run current encrypted payload
               timeout (Date_now st).2 Hsession' Henc).
    cbv zeta. clear Heq Hsession'.
    destruct st as [ses cookie0 expires reqs reps clk tks ent drw].
    cbv beta iota zeta delta [Date_now post set_session_fields snd fst
      Klap.session sessionCookie sessionExpiresAt requests replies clock
      ticks entropy draws] in *.
    destruct reps as [|[response|message] rest].
    - cbn [error_statusCode plainError].
      destruct (decide (None = Some 403)) as [Hno|_]; [discriminate Hno|].
      reflexivity.
    - pose proof (Hnot403 response rest eq_refl) as H403.
      destruct (decide (statusCode response = 403)); [contradiction|].
      destruct (decide (statusCode response ≠ 200)) as [Hno|Hyes].
      + cbn [error_statusCode plainError].
        destruct (decide (None = Some 403)) as [Hbad|_];
          [discriminate Hbad|].
        reflexivity.
      + destruct (decryptKlapPayload _ (body response) _) as [text|error]
          eqn:Hdec; [reflexivity|].
        rewrite (KlapFacts.decryptKlapPayload_error _ _ _ _ Hdec).
        destruct (decide (None = Some 403)) as [Hbad|_];
          [discriminate Hbad|].
        reflexivity.
    - cbn [error_statusCode plainError].
      destruct (decide (None = Some 403)) as [Hno|_]; [discriminate Hno|].
      reflexivity. }
  clearbody run. subst run.
  destruct (replies st) as [|[response|message] rest]; cbn;
    repeat split; try reflexivity; try discriminate.
  intros response' rest' H H200. injection H as <- <-.
  destruct (decide (statusCode response ≠ 200)); [contradiction|reflexivity].
Qed.

(** One attempt posts at most three requests, to the paths of the
    protocol, and keeps what was posted before. *)
Lemma attempt_posts (this : Options) (payload : string) (timeout : Z)
  (st : State) :
  exists posted,
    ((ensureSession this timeout ≫= fun _ =>
      sendEncryptedRequest payload timeout) st).2.(requests)
    = st.(requests) ++ posted
    /\ (length posted <= 3)%nat
    /\ Forall klap_path posted
    /\ (st.(session) = None ->
        exists first later,
          posted = first :: later /\ first.(req_path) = "/app/handshake1").
Proof.
  unfold mbind, M_bind.
  destruct (ensureSession this timeout st) as [r st0] eqn:Hensure.
  assert (Hhandshake : exists shaken,
            st0.(requests) = st.(requests) ++ shaken
            /\ (length shaken <= 2)%nat /\ Forall klap_path shaken
            /\ (st.(session) = None ->
                exists first later,
                  shaken = first :: later
                  /\ first.(req_path) = "/app/handshake1")).
  { destruct (KlapFacts.ensureSession_inv this timeout st st0 r Hensure)
      as [(_ & Hsome & Hreq & _)|(h1req & Hp1 & Hcases)].
    - exists []. rewrite app_nil_r. split; [exact Hreq|].
      split; [simpl; lia|]. split; [constructor|].
      intros Hnone. rewrite Hnone in Hsome. destruct Hsome as [x Hx].
      discriminate Hx.
    - assert (Hk1 : klap_path h1req) by (left; exact Hp1).
      destruct Hcases as [(error & _ & _ & _ & [Hreq|(h2req & Hp2 & Hreq)])|
                          (h2req & h1 & rest & newSession & _ & Hp2 & Hreq
                           & _)].
      + exists [h1req]. split; [exact Hreq|]. split; [simpl; lia|].
        split; [constructor; [exact Hk1 | constructor]|].
        intros _. exists h1req, []. split; [reflexivity | exact Hp1].
      + exists [h1req; h2req]. split; [exact Hreq|]. split; [simpl; lia|].
        split; [constructor; [exact Hk1|];
               constructor; [right; left; exact Hp2 | constructor]|].
        intros _. exists h1req, [h2req]. split; [reflexivity | exact Hp1].
      + exists [h1req; h2req]. split; [exact Hreq|]. split; [simpl; lia|].
        split; [constructor; [exact Hk1|];
               constructor; [right; left; exact Hp2 | constructor]|].
        intros _. exists h1req, [h2req]. split; [reflexivity | exact Hp1]. }
  destruct Hhandshake as (shaken & Hreq0 & Hlen & Hpaths & Hfirst).
  destruct r as [[]|error].
  - destruct (sendEncryptedRequest payload timeout st0) as [r1 st1] eqn:Hsend.
    destruct (KlapFacts.sendEncryptedRequest_inv payload timeout st0 st1 r1
                Hsend) as [(Hreq & _)|(request & Hpath & Hreq & _)].
    + exists shaken. cbn [snd]. rewrite Hreq, Hreq0.
      split; [reflexivity|]. split; [lia|]. split; [exact Hpaths|].
      exact Hfirst.
    + exists (shaken ++ [request]). cbn [snd].
      rewrite Hreq, Hreq0, <- app_assoc. split; [reflexivity|].
      split; [rewrite length_app; simpl; lia|].
      split; [apply Forall_app; split;
              [exact Hpaths |
               constructor; [right; right; exact Hpath | constructor]]|].
      intros Hnone. destruct (Hfirst Hnone) as (first & later & -> & Hp).
      exists first, (later ++ [request]). split; [reflexivity | exact Hp].
  - exists shaken. cbn [snd]. split; [exact Hreq0|]. split; [lia|].
    split; [exact Hpaths | exact Hfirst].
Qed.

(** X9.  [send] never posts more than six requests: at most a handshake of
    two requests and the data request, and the same once more after a 403.
    Every request goes to one of the three paths of the protocol, and the
    requests posted earlier stay on record in their order. *)
Theorem klap_send_posts_at_most_six (this : Options) (payload : string)
  (timeout : Z) (st : State) :
  exists posted,
    (send this payload timeout st).2.(requests) = st.(requests) ++ posted
    /\ (length posted <= 6)%nat
    /\ Forall klap_path posted.
Proof.
  rewrite KlapFacts.send_unfold.
  destruct (attempt_posts this payload timeout st)
    as (first & Hreq1 & Hlen1 & Hpaths1 & _).
  destruct ((ensureSession this timeout ≫= _) st) as [[response|error] st1].
  - exists first. cbn [snd] in *. split; [exact Hreq1|].
    split; [lia | exact Hpaths1].
  - destruct (decide (error_statusCode error = Some 403)).
    + destruct (attempt_posts this payload timeout
                  (set_session_fields None None 0 st1))
        as (second & Hreq2 & Hlen2 & Hpaths2 & _).
      exists (first ++ second). rewrite Hreq2.
      cbn [requests set_session_fields snd] in *.
      rewrite Hreq1, <- app_assoc. split; [reflexivity|].
      split; [rewrite length_app; lia|].
      apply Forall_app. split; assumption.
    + exists first. cbn [snd] in *. split; [exact Hreq1|].
      split; [lia | exact Hpaths1].
Qed.

(** X10.  [close] drops the session, its cookie and its expiry and touches
    nothing else; the next [send] starts with [handshake1]. *)
Theorem klap_close_forces_handshake (this : Options) (payload : string)
  (timeout : Z) (st : State) :
  let closed := (close st).2 in
  (close st).1 = Ok tt
  /\ closed.(session) = None
  /\ closed.(sessionCookie) = None
  /\ closed.(sessionExpiresAt) = 0
  /\ closed.(requests) = st.(requests)
  /\ closed.(replies) = st.(replies)
  /\ exists first later,
       first.(req_path) = "/app/handshake1"
       /\ first.(req_data) = resize 16 x00 (st.(entropy) st.(draws))
       /\ (send this payload timeout closed).2.(requests)
          = st.(requests) ++ first :: later.
Proof.
  intros closed. subst closed. unfold close, resetSession, modify.
  cbn [fst snd]. repeat (split; [reflexivity|]).
  set (closed := set_session_fields None None 0 st).
  rewrite KlapFacts.send_unfold.
  destruct (attempt_posts this payload timeout closed)
    as (posted & Hreq1 & _ & _ & Hfirst).
  destruct (Hfirst eq_refl) as (first & later & -> & Hpath).
  assert (Hdata : first.(req_data) = resize 16 x00 (st.(entropy) st.(draws))).
  { revert Hreq1. unfold mbind, M_bind.
    destruct (ensureSession this timeout closed) as [r st0] eqn:Hensure.
    assert (Hprefix : exists later0,
              st0.(requests)
              = st.(requests)
                ++ {| req_path := "/app/handshake1";
                      req_data := resize 16 x00 (st.(entropy) st.(draws));
                      req_options := no_options |} :: later0).
    { revert Hensure. subst closed.
      destruct st as [ses cookie0 expires reqs reps clk tks ent drw].
      cbv beta iota zeta delta [ensureSession isSessionExpired resetSession
        randomBytes Date_now post mbind M_bind mret M_ret gets modify lift
        throw set_session_fields
        Klap.session sessionCookie sessionExpiresAt requests replies clock
        ticks entropy draws].
      destruct reps as [|[h1|message] rest];
        try (intros H; injection H as <- <-; exists []; reflexivity).
      destruct (decide (statusCode h1 ≠ 200));
        [intros H; injection H as <- <-; exists []; reflexivity|].
      destruct (length (body h1) <? 48)%nat;
        [intros H; injection H as <- <-; exists []; reflexivity|].
      destruct (decide (length (subarray_from (body h1) 16) ≠ 32%nat));
        [intros H; injection H as <- <-; exists []; reflexivity|].
      destruct (selectAuthCandidate _ _ _ _) as [matched|error];
        [|intros H; injection H as <- <-; exists []; reflexivity].
      cbv beta iota zeta delta [post mbind M_bind throw lift modify Date_now
        set_session_fields Klap.session sessionCookie sessionExpiresAt
        requests replies clock ticks entropy draws].
      destruct rest as [|[h2|message] rest];
        try (intros H; injection H as <- <-; cbn [requests];
             rewrite <- app_assoc; eexists; reflexivity).
      destruct (decide (statusCode h2 ≠ 200));
        [intros H; injection H as <- <-; cbn [requests];
         rewrite <- app_assoc; eexists; reflexivity|].
      destruct (createKlapEncryptionSession _ _ _) as [derived|error];
        intros H; injection H as <- <-; cbn [requests];
        rewrite <- app_assoc; eexists; reflexivity. }
    destruct Hprefix as [later0 Hprefix].
    assert (Hgrow : forall st1,
              (exists more, st1.(requests) = st0.(requests) ++ more) ->
              st1.(requests) = requests closed ++ first :: later ->
              req_data first = resize 16 x00 (entropy st (draws st))).
    { intros st1 [more Hmore] Hreq. rewrite Hprefix in Hmore.
      rewrite Hmore in Hreq. subst closed.
      cbn [requests set_session_fields] in Hreq.
      rewrite <- app_assoc in Hreq. apply app_inv_head in Hreq.
      simpl in Hreq. injection Hreq as <- _. reflexivity. }
    destruct r as [[]|error].
    - destruct (sendEncryptedRequest payload timeout st0) as [r1 st1]
        eqn:Hsend.
      cbn [snd]. apply Hgrow.
      destruct (KlapFacts.sendEncryptedRequest_inv payload timeout st0 st1 r1
                  Hsend) as [(Hreq & _)|(request & _ & Hreq & _)].
      + exists []. rewrite app_nil_r. exact Hreq.
      + exists [request]. exact Hreq.
    - cbn [snd]. apply Hgrow. exists []. rewrite app_nil_r. reflexivity. }
  destruct ((ensureSession this timeout ≫= _) closed)
    as [[response|error] st1].
  - exists first, later. cbn [snd] in *.
    split; [exact Hpath|]. split; [exact Hdata | exact Hreq1].
  - destruct (decide (error_statusCode error = Some 403)).
    + destruct (attempt_posts this payload timeout
                  (set_session_fields None None 0 st1))
        as (second & Hreq2 & _).
      exists first, (later ++ second). rewrite Hreq2.
      cbn [requests set_session_fields snd] in *. rewrite Hreq1.
      split; [exact Hpath|]. split; [exact Hdata|].
      rewrite <- app_assoc. reflexivity.
    + exists first, later. cbn [snd] in *.
      split; [exact Hpath|]. split; [exact Hdata | exact Hreq1].
Qed.

End Traffic.

End KlapTrafficFacts.

Module KlapCandidateFacts.
Import Klap.

Section Candidates.
Context `{RT : Runtime}.

Lemma dedup_from_spec (seen : list (KlapHashVersion * bytes))
  (candidates : list KlapAuthCandidate) :
  let kept := dedup_from seen candidates in
  NoDup ((fun c => (c.(version), c.(authHash))) <$> kept)
  /\ (forall c, c ∈ kept ->
        c ∈ candidates /\ (c.(version), c.(authHash)) ∉ seen)
  /\ (forall c, c ∈ candidates ->
        (c.(version), c.(authHash)) ∈ seen
        \/ exists c', c' ∈ kept
                      /\ c'.(version) = c.(version)
                      /\ c'.(authHash) = c.(authHash))
  /\ (length kept <= length candidates)%nat.
Proof.
  revert seen. induction candidates as [|c rest IH]; intros seen; cbn zeta.
  - simpl. split; [constructor|]. split; [intros c H; inversion H|].
    split; [intros c H; inversion H | lia].
  - simpl.
    destruct (decide ((version c, authHash c) ∈ seen)) as [Hin|Hnot].
    + destruct (IH seen) as (Hnodup & Hsound & Hcomplete & Hlen).
      split; [exact Hnodup|]. split.
      * intros c' Hc'. destruct (Hsound c' Hc') as [Hrest Hseen].
        split; [right; exact Hrest | exact Hseen].
      * split; [|lia].
        intros c' Hc'. apply elem_of_cons in Hc' as [->|Hc'];
          [left; exact Hin | apply Hcomplete, Hc'].
    + destruct (IH ((version c, authHash c) :: seen))
        as (Hnodup & Hsound & Hcomplete & Hlen).
      split.
      * rewrite fmap_cons. constructor; [|exact Hnodup].
        intros Hdup. apply list_elem_of_fmap in Hdup as (c' & Heq & Hc').
        destruct (Hsound c' Hc') as [_ Hseen]. apply Hseen.
        rewrite <- Heq. left.
      * split; [|split; [|simpl; lia]].
        -- intros c' Hc'. apply elem_of_cons in Hc' as [->|Hc'].
           ++ split; [left | exact Hnot].
           ++ destruct (Hsound c' Hc') as [Hrest Hseen].
              split; [right; exact Hrest|].
              intros Hbad. apply Hseen. right. exact Hbad.
        -- intros c' Hc'. apply elem_of_cons in Hc' as [->|Hc'].
           ++ right. exists c. split; [left | split; reflexivity].
           ++ destruct (Hcomplete c' Hc') as [Hseen|(c'' & Hin & Hv & Hh)].
              ** apply elem_of_cons in Hseen as [Heq|Hseen].
                 --- right. exists c. injection Heq as Hv Hh.
                     split; [left | split; symmetry; assumption].
                 --- left. exact Hseen.
              ** right. exists c''. split; [right; exact Hin|].
                 split; assumption.
Qed.

Lemma buildAuthCandidates_dedup (this : Options)
  (candidates : list KlapAuthCandidate) :
  buildAuthCandidates this = Ok candidates ->
  candidates = dedup_by_version_hash (candidate_order this).
Proof.
  rewrite KlapFacts.buildAuthCandidates_fold.
  assert (Hfold : (foldl (fun acc c =>
                            addCandidate c.(label) c.(version) c.(authHash)
                              acc)
                     ([], ∅) (candidate_order this)).1
                  = dedup_by_version_hash (candidate_order this)).
  { rewrite (KlapFacts.addCandidate_fold (candidate_order this) ([], ∅) []).
    - reflexivity.
    - intros v h. simpl. rewrite elem_of_nil. set_solver. }
  rewrite Hfold.
  destruct (credentialsHash this) as [hash|].
  - destruct (decide _); intros H; [discriminate H|].
    injection H as <-. reflexivity.
  - intros H. injection H as <-. reflexivity.
Qed.

(** The list starts with a v2 and a v1 candidate and has at most ten
    entries. *)
Lemma candidate_order_shape (this : Options) :
  (exists first second rest,
     candidate_order this = first :: second :: rest
     /\ first.(version) = v2 /\ second.(version) = v1)
  /\ (length (candidate_order this) <= 10)%nat.
Proof.
  unfold candidate_order, credential_pair, candidate_pair.
  destruct (credentialsHash this), (credentials this); simpl;
    (split; [eexists _, _, _; repeat split; reflexivity | lia]).
Qed.

(** X11.  The candidates that [buildAuthCandidates] returns are pairwise
    different in (version, hash), and there are between two and ten of
    them.  Dropping the repeated ones loses no match: for every server hash
    [selectAuthCandidate] finds a candidate exactly when some entry of the
    full list (credentialsHash, credentials, KASA, TAPO, blank, each as v2
    and v1) has that challenge. *)
Theorem klap_candidates_distinct_and_complete (this : Options)
  (candidates : list KlapAuthCandidate) :
  buildAuthCandidates this = Ok candidates ->
  NoDup ((fun c => (c.(version), c.(authHash))) <$> candidates)
  /\ (2 <= length candidates <= 10)%nat
  /\ forall localSeed remoteSeed serverHash,
       (exists matched,
          selectAuthCandidate this localSeed remoteSeed serverHash
          = Ok matched)
       <-> (exists c,
              c ∈ candidate_order this
              /\ challenge_of localSeed remoteSeed c = serverHash).
Proof.
  intros Hbuild.
  pose proof (buildAuthCandidates_dedup this candidates Hbuild) as Hdedup.
  destruct (dedup_from_spec [] (candidate_order this))
    as (Hnodup & Hsound & Hcomplete & Hlen).
  fold (dedup_by_version_hash (candidate_order this)) in *.
  rewrite <- Hdedup in *.
  destruct (candidate_order_shape this)
    as [(first & second & rest & Horder & Hv2 & Hv1) Hten].
  split; [exact Hnodup|]. split.
  - split; [|lia].
    rewrite Hdedup, Horder. unfold dedup_by_version_hash. simpl.
    destruct (decide ((version first, authHash first) ∈ [])) as [Hin|_];
      [inversion Hin|].
    destruct (decide ((version second, authHash second)
                      ∈ [(version first, authHash first)])) as [Hin|_].
    + apply list_elem_of_singleton in Hin. injection Hin as Hv _.
      rewrite Hv1, Hv2 in Hv. discriminate Hv.
    + simpl. lia.
  - intros localSeed remoteSeed serverHash.
    unfold selectAuthCandidate. rewrite Hbuild. cbn [mbind outcome_bind].
    pose proof (KlapFacts.selectAuthCandidate_loop_spec candidates localSeed
                  remoteSeed serverHash) as Hloop.
    split.
    + intros [matched Hmatched]. rewrite Hmatched in Hloop.
      destruct Hloop as (before & after & Hlist & Hchallenge & _).
      exists matched. split; [|exact Hchallenge].
      apply (Hsound matched). rewrite Hlist.
      apply elem_of_app. right. left.
    + intros (c & Hc & Hchallenge).
      destruct (selectAuthCandidate_loop candidates localSeed remoteSeed
                  serverHash) as [matched|error];
        [exists matched; reflexivity|].
      exfalso. destruct Hloop as [_ Hnone].
      destruct (Hcomplete c Hc) as [Hseen|(c' & Hc' & Hv & Hh)];
        [inversion Hseen|].
      rewrite Forall_forall in Hnone. apply (Hnone c' Hc').
      rewrite <- Hchallenge. unfold challenge_of. rewrite Hv, Hh.
      reflexivity.
Qed.

End Candidates.

End KlapCandidateFacts.

(** *** The further KLAP properties at the example device *)

Module KlapExamples.
Import Klap.

Lemma klap_session_derivation_witness :
  exists session,
    @createKlapEncryptionSession Toy.runtime Toy.localSeed Toy.remoteSeed
      (@authHashV2 Toy.runtime Toy.user) = Ok session
    /\ klap_session_ok session
    /\ session = Toy.user_session.
Proof.
  destruct (@KlapSessionFacts.klap_session_derivation Toy.runtime
              KlapFacts.toy_runtime_laws Toy.localSeed Toy.remoteSeed
              (@authHashV2 Toy.runtime Toy.user))
    as (session & Hcreate & Hshape & _).
  exists session. split; [exact Hcreate|]. split; [exact Hshape|].
  unfold Toy.user_session. rewrite Hcreate. reflexivity.
Defined.

Lemma klap_handshake_exchange_witness :
  let st := Toy.klap_state [ Response (Toy.user_handshake1 "86400");
                             Response (Toy.klap_status 200) ] in
  let run := @ensureSession Toy.runtime Toy.klap_options 1500 st in
  run.1 = Ok tt
  /\ run.2.(session) = Some Toy.user_session
  /\ run.2.(sessionCookie) = Some "TP_SESSIONID=abc"
  /\ (req_options <$> run.2.(requests))
     = [ {| query := None; cookie := None |};
         {| query := None; cookie := Some "TP_SESSIONID=abc" |} ].
Proof.
  intros st run.
  destruct (@KlapExchangeFacts.klap_handshake_exchange Toy.runtime
              Toy.klap_options 1500 st
              (Toy.user_handshake1 "86400") (Toy.klap_status 200) []
              {| label := "credentials"; version := v2;
                 authHash := @authHashV2 Toy.runtime Toy.user |}
              Toy.user_session)
    as (Hok & Hrequests & Hsession & Hcookie & _).
  - reflexivity.
  - reflexivity.
  - reflexivity.
  - vm_compute. reflexivity.
  - vm_compute. reflexivity.
  - reflexivity.
  - vm_compute. reflexivity.
  - fold run in Hok, Hrequests, Hsession, Hcookie.
    split; [exact Hok|]. split; [exact Hsession|].
    split; [rewrite Hcookie; vm_compute; reflexivity|].
    rewrite Hrequests. vm_compute. reflexivity.
Defined.

Lemma klap_handshake1_body_length_witness :
  let st := Toy.klap_state
              [ Response {| statusCode := 200; body := Toy.zeros 47;
                            headers := NoSetCookie |};
                Response (Toy.klap_status 200) ] in
  let run := @ensureSession Toy.runtime Toy.klap_options 1500 st in
  run.1 = Throw (plainError "handshake1 response is invalid")
  /\ length run.2.(requests) = 1%nat
  /\ run.2.(replies) = [ Response (Toy.klap_status 200) ].
Proof.
  intros st run.
  destruct (@KlapExchangeFacts.klap_handshake1_body_length Toy.runtime
              Toy.klap_options 1500 st
              {| statusCode := 200; body := Toy.zeros 47;
                 headers := NoSetCookie |}
              [ Response (Toy.klap_status 200) ])
    as (Herror & Hrequests & Hreplies & _).
  - reflexivity.
  - reflexivity.
  - reflexivity.
  - vm_compute. intros H. discriminate H.
  - fold run in Herror, Hrequests, Hreplies.
    split; [exact Herror|]. split; [rewrite Hrequests; reflexivity|].
    exact Hreplies.
Defined.

Lemma klap_send_keeps_session_shape_witness :
  let st := Toy.klap_state [ Response (Toy.user_handshake1 "86400");
                             Response (Toy.klap_status 200);
                             Response (Toy.klap_data_response "{ok}") ] in
  klap_state_ok (@send Toy.runtime Toy.klap_options "{}" 1500 st).2
  /\ is_Some (@send Toy.runtime Toy.klap_options "{}" 1500 st).2.(session).
Proof.
  intros st.
  destruct (@KlapExchangeFacts.klap_send_keeps_session_shape Toy.runtime
              KlapFacts.toy_runtime_laws Toy.klap_options "{}" 1500 st)
    as [Hshape _].
  - intros s Hs. discriminate Hs.
  - split; [exact Hshape|]. vm_compute. eexists. reflexivity.
Defined.

Lemma klap_live_session_reused_witness :
  let st := {| session := Some Toy.user_session;
               sessionCookie := Some "TP_SESSIONID=abc";
               sessionExpiresAt := 90000; requests := [];
               replies := [ Response (Toy.klap_data_response "{ok}") ];
               clock := fun _ => 5000; ticks := 0%nat;
               entropy := fun _ => Toy.localSeed; draws := 1%nat |} in
  let run := @send Toy.runtime Toy.klap_options "{}" 1500 st in
  run.1 = Ok "{ok}"
  /\ (req_path <$> run.2.(requests)) = ["/app/request"]
  /\ run.2.(sessionExpiresAt) = 90000.
Proof.
  intros st run.
  set (encrypted :=
         match @encryptKlapPayload Toy.runtime Toy.user_session "{}" with
         | Ok encrypted => encrypted
         | Throw _ => {| enc_payload := []; enc_seq := 0 |}
         end).
  destruct (@KlapTrafficFacts.klap_live_session_reused Toy.runtime
              Toy.klap_options "{}" 1500 st Toy.user_session encrypted)
    as (Hrequests & _ & _ & Hexpiry & Hresult).
  - reflexivity.
  - discriminate.
  - vm_compute. reflexivity.
  - vm_compute. reflexivity.
  - intros response rest H. injection H as <- <-. discriminate.
  - fold run in Hrequests, Hexpiry, Hresult.
    split.
    + rewrite (Hresult (Toy.klap_data_response "{ok}") [] eq_refl eq_refl).
      vm_compute. reflexivity.
    + split; [rewrite Hrequests; reflexivity | exact Hexpiry].
Defined.

Lemma klap_candidates_distinct_and_complete_witness :
  exists candidates,
    @buildAuthCandidates Toy.runtime Toy.klap_options = Ok candidates
    /\ length candidates = 8%nat
    /\ NoDup ((fun c => (c.(version), c.(authHash))) <$> candidates).
Proof.
  set (candidates :=
         match @buildAuthCandidates Toy.runtime Toy.klap_options with
         | Ok candidates => candidates
         | Throw _ => []
         end).
  assert (Hbuild : @buildAuthCandidates Toy.runtime Toy.klap_options
                   = Ok candidates) by (vm_compute; reflexivity).
  destruct (@KlapCandidateFacts.klap_candidates_distinct_and_complete
              Toy.runtime Toy.klap_options candidates Hbuild)
    as (Hnodup & _ & _).
  exists candidates. split; [exact Hbuild|].
  split; [vm_compute; reflexivity | exact Hnodup].
Defined.

End KlapExamples.

(** * Further properties of the AES transport *)

Module AesPayloadFacts.
Import Aes.

Section Payloads.
Context `{RT : Runtime}.

(** X12.  [decryptAesPayload] inverts [encryptAesPayload] under the same
    session, for a session with a 16-byte key and a 16-byte IV and a runtime
    whose cipher decrypts what it encrypted and whose base64 and UTF-8
    decoding invert the encoding. *)
Theorem aes_payload_round_trip (laws : RuntimeLaws)
  (session : AesEncryptionSession) (payload : string) :
  (forall data, from_base64 (toString_base64 data) = data) ->
  length session.(key) = 16%nat ->
  length session.(iv) = 16%nat ->
  exists encrypted,
    encryptAesPayload session payload = Ok encrypted
    /\ decryptAesPayload session encrypted = Ok payload.
Proof.
  intros Hbase64 Hkey Hiv.
  destruct (aes_encrypt_defined laws (key session) (iv session)
              (from_utf8 payload) Hkey Hiv) as [ciphertext Hraw].
  exists (toString_base64 ciphertext). split.
  - unfold encryptAesPayload, aes_128_cbc_encrypt. rewrite Hraw. reflexivity.
  - unfold decryptAesPayload, aes_128_cbc_decrypt. rewrite Hbase64.
    rewrite (aes_decrypt_encrypt laws _ _ _ _ Hraw).
    cbn [or_throw mbind outcome_bind].
    rewrite (utf8_round_trip laws). reflexivity.
Qed.

(** *** Login candidates *)

(** The candidate list and the set of keys seen agree. *)
Lemma addCandidate_inv (name : string) (loginParams : AesLoginParams)
  (acc : candidate_acc) :
  (forall k, k ∈ acc.2 <-> k ∈ aes_candidate_key <$> acc.1) ->
  NoDup (aes_candidate_key <$> acc.1) ->
  let acc' := addCandidate name loginParams acc in
  (forall k, k ∈ acc'.2 <-> k ∈ aes_candidate_key <$> acc'.1)
  /\ NoDup (aes_candidate_key <$> acc'.1)
  /\ acc'.1 <> []
  /\ (acc'.1 = acc.1
      \/ acc'.1 = acc.1 ++ [ {| label := name; params := loginParams |} ]).
Proof.
  intros Hagree Hnodup. unfold addCandidate. cbn zeta.
  destruct (decide (JSON_stringify (params_object loginParams) ∈ acc.2))
    as [Hin|Hnot].
  - split; [exact Hagree|]. split; [exact Hnodup|].
    split; [|left; reflexivity].
    apply Hagree in Hin. intros Hnil. rewrite Hnil in Hin. inversion Hin.
  - cbn [fst snd]. split; [|split; [|split]].
    + intros k. rewrite fmap_app, elem_of_app, elem_of_union,
        elem_of_singleton, (Hagree k).
      cbn [fmap list_fmap params aes_candidate_key].
      rewrite list_elem_of_singleton. tauto.
    + rewrite fmap_app. apply NoDup_app. split; [exact Hnodup|].
      split; [|apply NoDup_singleton].
      intros k Hk Hk'. cbn [fmap list_fmap params aes_candidate_key] in Hk'.
      apply list_elem_of_singleton in Hk'. subst k.
      apply Hnot, Hagree, Hk.
    + intros Hnil. apply app_eq_nil in Hnil as [_ Hnil]. discriminate Hnil.
    + right. reflexivity.
Qed.

(** One [addCandidate] keeps the agreement between list and set, leaves
    a list that is not empty, and extends the labels in order. *)
Lemma addCandidate_step (name : string) (loginParams : AesLoginParams)
  (acc : candidate_acc) (labels : list string) :
  (forall k, k ∈ acc.2 <-> k ∈ aes_candidate_key <$> acc.1) ->
  NoDup (aes_candidate_key <$> acc.1) ->
  (label <$> acc.1) `sublist_of` labels ->
  let acc' := addCandidate name loginParams acc in
  (forall k, k ∈ acc'.2 <-> k ∈ aes_candidate_key <$> acc'.1)
  /\ NoDup (aes_candidate_key <$> acc'.1)
  /\ (label <$> acc'.1) `sublist_of` (labels ++ [name])
  /\ acc'.1 <> [].
Proof.
  intros Hagree Hnodup Hlabels acc'.
  destruct (addCandidate_inv name loginParams acc Hagree Hnodup)
    as (Hagree' & Hnodup' & Hnonempty & Hgrow).
  fold acc' in Hagree', Hnodup', Hnonempty, Hgrow.
  split; [exact Hagree'|]. split; [exact Hnodup'|].
  split; [|exact Hnonempty].
  destruct Hgrow as [-> | ->].
  - apply sublist_inserts_r, Hlabels.
  - rewrite fmap_app. apply sublist_app; [exact Hlabels|]. reflexivity.
Qed.

(** X13.  The login candidates.  [buildLoginCandidates] never returns an empty
    list, so the check for an empty list in [performLogin] never fires and
    [performLogin] goes straight to the first candidate.  The candidates
    are pairwise different as serialised login params, and their labels
    follow the order credentialsHash, credentials-v2, credentials-v1,
    default-tapo-v2, default-tapo-v1, with gaps where an option is absent or
    a candidate repeats an earlier one. *)
Theorem aes_login_candidates (this : Options)
  (candidates : list AesLoginCandidate) :
  buildLoginCandidates this = Ok candidates ->
  candidates <> []
  /\ NoDup (aes_candidate_key <$> candidates)
  /\ (label <$> candidates)
     `sublist_of` [ "credentialsHash"; "credentials-v2"; "credentials-v1";
                    "default-tapo-v2"; "default-tapo-v1" ]
  /\ forall timeout st,
       performLogin this timeout st
       = performLoginForCandidate candidates timeout 0 st.
Proof.
  intros Hbuild.
  assert (Hfacts : candidates <> []
                   /\ NoDup (aes_candidate_key <$> candidates)
                   /\ (label <$> candidates)
                      `sublist_of` [ "credentialsHash"; "credentials-v2";
                                     "credentials-v1"; "default-tapo-v2";
                                     "default-tapo-v1" ]).
  { set (defaults :=
           {| Creds.username := decodeBase64 DEFAULT_TAPO_CREDENTIAL_BASE64.1;
              Creds.password :=
                decodeBase64 DEFAULT_TAPO_CREDENTIAL_BASE64.2 |}).
    assert (Hrest : forall acc0 : candidate_acc,
              (forall k, k ∈ acc0.2 <-> k ∈ aes_candidate_key <$> acc0.1) ->
              NoDup (aes_candidate_key <$> acc0.1) ->
              (label <$> acc0.1) `sublist_of` ["credentialsHash"] ->
              (addCandidate "default-tapo-v1"
                 (hashLoginCredentials false defaults)
                 (addCandidate "default-tapo-v2"
                    (hashLoginCredentials true defaults)
                    match credentials this with
                    | Some creds =>
                        addCandidate "credentials-v1"
                          (hashLoginCredentials false creds)
                          (addCandidate "credentials-v2"
                             (hashLoginCredentials true creds) acc0)
                    | None => acc0
                    end)).1 = candidates ->
              candidates <> []
              /\ NoDup (aes_candidate_key <$> candidates)
              /\ (label <$> candidates)
                 `sublist_of` [ "credentialsHash"; "credentials-v2";
                                "credentials-v1"; "default-tapo-v2";
                                "default-tapo-v1" ]).
    { intros acc0 Hagree0 Hnodup0 Hlabels0.
      assert (Hcreds : exists acc1 : candidate_acc,
                match credentials this with
                | Some creds =>
                    addCandidate "credentials-v1"
                      (hashLoginCredentials false creds)
                      (addCandidate "credentials-v2"
                         (hashLoginCredentials true creds) acc0)
                | None => acc0
                end = acc1
                /\ (forall k,
                      k ∈ acc1.2 <-> k ∈ aes_candidate_key <$> acc1.1)
                /\ NoDup (aes_candidate_key <$> acc1.1)
                /\ (label <$> acc1.1)
                   `sublist_of` [ "credentialsHash"; "credentials-v2";
                                  "credentials-v1" ]).
      { destruct (credentials this) as [creds|].
        - eexists. split; [reflexivity|].
          destruct (addCandidate_step "credentials-v2"
                      (hashLoginCredentials true creds) acc0 _
                      Hagree0 Hnodup0 Hlabels0) as (Ha & Hb & Hc & _).
          destruct (addCandidate_step "credentials-v1"
                      (hashLoginCredentials false creds) _ _ Ha Hb Hc)
            as (Ha' & Hb' & Hc' & _).
          split; [exact Ha'|]. split; [exact Hb' | exact Hc'].
        - exists acc0. split; [reflexivity|].
          split; [exact Hagree0|]. split; [exact Hnodup0|].
          apply (sublist_inserts_r [ "credentials-v2"; "credentials-v1" ])
            in Hlabels0. exact Hlabels0. }
      destruct Hcreds as (acc1 & Heq & Hagree1 & Hnodup1 & Hlabels1).
      rewrite Heq.
      destruct (addCandidate_step "default-tapo-v2"
                  (hashLoginCredentials true defaults) acc1 _
                  Hagree1 Hnodup1 Hlabels1) as (Ha & Hb & Hc & _).
      destruct (addCandidate_step "default-tapo-v1"
                  (hashLoginCredentials false defaults) _ _ Ha Hb Hc)
        as (_ & Hnodup & Hlabels & Hnonempty).
      intros <-.
      split; [exact Hnonempty|]. split; [exact Hnodup | exact Hlabels]. }
    assert (Hempty : (forall k : string,
                        k ∈ (∅ : gset string)
                        <-> k ∈ aes_candidate_key
                              <$> ([] : list AesLoginCandidate))
                     /\ NoDup (aes_candidate_key
                                 <$> ([] : list AesLoginCandidate))
                     /\ (label <$> ([] : list AesLoginCandidate))
                        `sublist_of` []).
    { split; [|split; constructor].
      intros k. split; intros Hk; [|inversion Hk].
      destruct (not_elem_of_empty (C := gset string) k Hk). }
    destruct Hempty as (Hagree & Hnodup & Hlabels).
    revert Hbuild. unfold buildLoginCandidates.
    destruct (credentialsHash this) as [hash|].
    - destruct (parseCredentialsHash hash) as [loginParams|error];
        cbn [mbind outcome_bind]; [|discriminate].
      destruct (addCandidate_step "credentialsHash" loginParams ([], ∅)
                  [] Hagree Hnodup Hlabels) as (H1 & H2 & H3 & _).
      intros H. injection H as H.
      apply (Hrest _ H1 H2 H3 H).
    - cbn [mbind outcome_bind]. intros H. injection H as H.
      apply (Hrest ([], ∅) Hagree Hnodup (sublist_nil_l _) H). }
  destruct Hfacts as (Hnonempty & Hnodup & Hlabels).
  split; [exact Hnonempty|]. split; [exact Hnodup|].
  split; [exact Hlabels|].
  intros timeout st. unfold performLogin, mbind, M_bind, lift.
  rewrite Hbuild.
  destruct (decide (length candidates = 0%nat)) as [Hzero|_];
    [|reflexivity].
  destruct candidates; [contradiction | discriminate Hzero].
Qed.

End Payloads.

End AesPayloadFacts.

Module AesLoginFacts.
Import Aes.

Section Login.
Context `{RT : Runtime}.

(** X14.  What [parseCredentialsHash] accepts: every failure is a [TypeError],
    and the params it returns have a [password] or a [password2].  It
    inverts the serialisation of login params: when the decoded text parses
    to the object of params that have one of the two, the result is those
    params. *)
Theorem parseCredentialsHash_result (credentialsHash : string) :
  match parseCredentialsHash credentialsHash with
  | Ok loginParams =>
      is_Some loginParams.(password) \/ is_Some loginParams.(password2)
  | Throw error => exists message, error = TypeError message
  end
  /\ forall loginParams,
       json_parse (toString_utf8 (from_base64 credentialsHash))
       = Some (params_object loginParams) ->
       is_Some loginParams.(password) \/ is_Some loginParams.(password2) ->
       parseCredentialsHash credentialsHash = Ok loginParams.
Proof.
  split.
  - unfold parseCredentialsHash.
    destruct (json_parse _) as [parsed|]; [|eexists; reflexivity].
    destruct (if isObjectLike parsed then string_prop parsed "username"
              else None) as [name|]; [|eexists; reflexivity].
    destruct (string_prop parsed "password") as [pw|],
             (string_prop parsed "password2") as [pw2|]; cbn.
    + left. eexists; reflexivity.
    + left. eexists; reflexivity.
    + right. eexists; reflexivity.
    + eexists; reflexivity.
  - intros loginParams Hparse Hsome. unfold parseCredentialsHash.
    rewrite Hparse.
    destruct loginParams as [name [pw|] [pw2|]]; try reflexivity.
    destruct Hsome as [[x Hx]|[x Hx]]; discriminate Hx.
Qed.

Lemma performLogin_ok (this : Options) (timeout : Z) (st st' : State) :
  performLogin this timeout st = (Ok tt, st') ->
  exists first others,
    buildLoginCandidates this = Ok (first :: others)
    /\ tryLogin first.(params) timeout st = (Ok tt, st').
Proof.
  unfold performLogin, mbind, M_bind, lift.
  destruct (buildLoginCandidates this) as [candidates|error];
    [|intros H; inversion H].
  destruct (decide (length candidates = 0%nat)); [intros H; inversion H|].
  intros H.
  destruct (AesFacts.performLoginForCandidate_ok candidates timeout 0 st st'
              H) as (first & Hlookup & Htry).
  destruct candidates as [|c others]; [discriminate Hlookup|].
  injection Hlookup as ->. exists first, others.
  split; [reflexivity | exact Htry].
Qed.

(** X15.  [performLogin] returns normally only when the login of the first
    candidate does: then it ends in the state that login left.  When the
    login of the first candidate raises an error, [performLogin] raises an
    error, whatever the later candidates meet. *)
Theorem aes_login_rests_on_first_candidate (this : Options) (timeout : Z)
  (st : State) :
  (forall st',
     performLogin this timeout st = (Ok tt, st') ->
     exists first others,
       buildLoginCandidates this = Ok (first :: others)
       /\ tryLogin first.(params) timeout st = (Ok tt, st'))
  /\ (forall first others error st1,
        buildLoginCandidates this = Ok (first :: others) ->
        tryLogin first.(params) timeout st = (Throw error, st1) ->
        exists raised, (performLogin this timeout st).1 = Throw raised).
Proof.
  split; [intros st'; apply performLogin_ok|].
  intros first others error st1 Hbuild Htry.
  destruct (performLogin this timeout st) as [[[]|raised] st'] eqn:Hrun.
  - destruct (performLogin_ok this timeout st st' Hrun)
      as (first' & others' & Hbuild' & Htry').
    rewrite Hbuild in Hbuild'. injection Hbuild' as <- <-.
    rewrite Htry in Htry'. discriminate Htry'.
  - exists raised. reflexivity.
Qed.

Lemma aes_send_unfold (this : Options) (payload : string) (timeout : Z)
  (st : State) :
  send this payload timeout st
  = match (ensureSession this timeout ≫= fun _ =>
           sendSecurePassthrough payload timeout ≫= fun response =>
           mret (JSON_stringify response)) st with
    | (Ok text, st1) => (Ok text, st1)
    | (Throw error, st1) =>
        if bool_decide (extractStatusCode error = Some 403)
           || (bool_decide (is_Some (extractErrorCode error))
               && bool_decide (default 0 (extractErrorCode error)
                               ∈ AES_AUTH_ERROR_CODES))
        then (ensureSession this timeout ≫= fun _ =>
              sendSecurePassthrough payload timeout ≫= fun response =>
              mret (JSON_stringify response))
               (set_session_fields None None 0 None st1)
        else (Throw error, st1)
    end.
Proof.
  set (attempt := ensureSession this timeout ≫= _).
  unfold send, sendWithRetry.
  cbn [sendWithRetry_from]. unfold try_catch at 1. fold attempt.
  destruct (attempt st) as [[text|error] st1]; [reflexivity|].
  destruct (bool_decide (0 = 0)) eqn:Hzero;
    [|apply bool_decide_eq_false in Hzero; contradiction].
  cbn [andb].
  destruct (bool_decide (extractStatusCode error = Some 403)
            || (bool_decide (is_Some (extractErrorCode error))
                && bool_decide (default 0 (extractErrorCode error)
                                ∈ AES_AUTH_ERROR_CODES)));
    [|reflexivity].
  unfold mbind at 1, M_bind at 1, resetSession, modify.
  unfold try_catch. fold attempt.
  destruct (attempt (set_session_fields None None 0 None st1))
    as [[text|error'] st2]; [reflexivity|].
  destruct (bool_decide (1 = 0)) eqn:Hone;
    [apply bool_decide_eq_true in Hone; discriminate Hone|].
  reflexivity.
Qed.

(** X16.  [send] makes one attempt (ensure a session, pass the payload through)
    and, when that attempt raises an error that carries status 403 or one
    of the authentication error codes, resets the session and makes one
    more attempt, whose outcome is the outcome of [send] whatever it is,
    a second error of that kind included.  Any other error of the first
    attempt is raised as it is, and nothing more is posted. *)
Theorem aes_send_attempts (this : Options) (payload : string) (timeout : Z)
  (st : State) :
  let attempt :=
    ensureSession this timeout ≫= fun _ =>
    sendSecurePassthrough payload timeout ≫= fun response =>
    mret (JSON_stringify response) in
  let retried error :=
    bool_decide (extractStatusCode error = Some 403)
    || (bool_decide (is_Some (extractErrorCode error))
        && bool_decide (default 0 (extractErrorCode error)
                        ∈ AES_AUTH_ERROR_CODES)) in
  (forall text st1,
     attempt st = (Ok text, st1) ->
     send this payload timeout st = (Ok text, st1))
  /\ (forall error st1,
        attempt st = (Throw error, st1) -> retried error = false ->
        send this payload timeout st = (Throw error, st1))
  /\ (forall error st1,
        attempt st = (Throw error, st1) -> retried error = true ->
        send this payload timeout st
        = attempt (set_session_fields None None 0 None st1)).
Proof.
  intros attempt retried. subst attempt retried. cbv beta.
  repeat split; intros until 1; rewrite aes_send_unfold, H;
    [reflexivity | intros -> | intros ->]; reflexivity.
Qed.

End Login.

End AesLoginFacts.

Module AesExchangeFacts.
Import Aes.

Section Exchange.
Context `{RT : Runtime}.

Ltac run_aes :=
  cbv beta iota zeta delta [performHandshake sendSecurePassthrough tryLogin
    assertResponseSuccess isSessionExpired resetSession generateKeyPairSync
    Date_now post mbind M_bind mret M_ret gets modify lift throw
    set_session_fields app_headers Aes.session sessionCookie sessionExpiresAt
    token requests replies clock ticks keypairs draws].

Ltac failed H := solve [inversion H].

(** X17.  One secure passthrough against a device that answers 200 with
    [error_code] 0 and a string [result.response].  The request goes to
    [/app], with the token as [token] query parameter once there is one,
    under the session cookie, and carries the encrypted payload.  The
    response string is decrypted and parsed; when that fails, whether in
    the cipher or in the parser, the string itself is parsed as JSON, so a
    response that the device did not encrypt is accepted as well. *)
Theorem aes_passthrough_exchange (payload : string) (timeout : Z)
  (st : State) (current : AesEncryptionSession) (encryptedPayload : string)
  (response : AesHttpResponse) (rest : list (reply AesHttpResponse))
  (props result : list (string * jsval)) (inner : string) :
  st.(session) = Some current ->
  encryptAesPayload current payload = Ok encryptedPayload ->
  st.(replies) = Response response :: rest ->
  response.(statusCode) = 200 ->
  json_parse response.(body) = Some (JObj props) ->
  assoc_get props "error_code" = Some (JNum 0) ->
  assoc_get props "result" = Some (JObj result) ->
  assoc_get result "response" = Some (JStr inner) ->
  let run := sendSecurePassthrough payload timeout st in
  run.1 = match (decrypted ← decryptAesPayload current inner;
                 JSON_parse decrypted) with
          | Ok parsed => Ok parsed
          | Throw _ => JSON_parse inner
          end
  /\ run.2.(requests)
     = st.(requests)
       ++ [ {| req_path :=
                 match st.(token) with
                 | Some granted => "/app?token=" +:+ encodeURIComponent granted
                 | None => "/app"
                 end;
               req_data :=
                 JSON_stringify
                   (JObj [("method", JStr "securePassthrough");
                          ("params",
                           JObj [("request", JStr encryptedPayload)])]);
               req_options := {| opt_headers := app_headers;
                                 cookie := st.(sessionCookie) |} |} ]
  /\ run.2.(session) = Some current
  /\ run.2.(token) = st.(token).
Proof.
  intros Hsession Hencrypt Hreplies Hstatus Hparse Hcode Hresult Hinner run.
  assert (Hrun : run
                 = (match (decrypted ← decryptAesPayload current inner;
                           JSON_parse decrypted) with
                    | Ok parsed => Ok parsed
                    | Throw _ => JSON_parse inner
                    end,
                    (post
                       match st.(token) with
                       | Some granted =>
                           "/app?token=" +:+ encodeURIComponent granted
                       | None => "/app"
                       end
                       (JSON_stringify
                          (JObj [("method", JStr "securePassthrough");
                                 ("params",
                                  JObj [("request",
                                         JStr encryptedPayload)])]))
                       timeout
                       {| opt_headers := app_headers;
                          cookie := st.(sessionCookie) |} st).2)).
  { subst run.
    destruct st as [ses cookie0 expires tok reqs reps clk tks kps drw].
    cbn [Aes.session replies token sessionCookie requests] in *.
    subst ses reps. run_aes. rewrite Hencrypt. cbv beta iota.
    assert (Hpath : match tok with
                    | Some granted =>
                        AES_PROTOCOL_PATH +:+ "?token="
                        +:+ encodeURIComponent granted
                    | None => AES_PROTOCOL_PATH
                    end
                    = match tok with
                      | Some granted =>
                          "/app?token=" +:+ encodeURIComponent granted
                      | None => "/app"
                      end) by (destruct tok; reflexivity).
    rewrite Hpath.
    destruct (decide (statusCode response = 403)) as [H403|_];
      [rewrite Hstatus in H403; discriminate H403|].
    destruct (decide (statusCode response ≠ 200)) as [Hno|_];
      [contradiction|].
    unfold JSON_parse at 1. rewrite Hparse.
    cbv beta iota delta [or_throw isObjectLike get_prop].
    rewrite Hcode. cbv beta iota delta [default from_option id].
    destruct (decide (0 ≠ 0)) as [Hno|_]; [contradiction|].
    cbv beta iota. rewrite Hresult.
    cbv beta iota delta [default from_option id].
    rewrite Hinner. cbv beta iota delta [default from_option id].
    destruct (decryptAesPayload current inner) as [decrypted|error];
      cbn [mbind outcome_bind]; [|reflexivity].
    destruct (JSON_parse decrypted); reflexivity. }
  clearbody run. subst run. cbn [fst snd].
  split; [reflexivity|].
  destruct st as [ses cookie0 expires tok reqs reps clk tks kps drw].
  cbn [Aes.session replies token sessionCookie requests] in *.
  subst ses reps. cbn. repeat split; reflexivity.
Qed.

(** X18.  Every run of [performHandshake] draws a fresh key pair, posts one
    request to [/app] without cookie or token, and leaves the connection
    without token; when it fails, the connection has no session, no cookie
    and no expiry either. *)
Theorem aes_handshake_discards_token (timeout : Z) (st : State) :
  let run := performHandshake timeout st in
  run.2.(token) = None
  /\ run.2.(draws) = S st.(draws)
  /\ run.2.(requests)
     = st.(requests)
       ++ [ {| req_path := "/app";
               req_data :=
                 JSON_stringify
                   (JObj [("method", JStr "handshake");
                          ("params",
                           JObj [("key",
                                  JStr (st.(keypairs) st.(draws)).1)])]);
               req_options := {| opt_headers := app_headers;
                                 cookie := None |} |} ]
  /\ (forall error,
        run.1 = Throw error ->
        run.2.(session) = None
        /\ run.2.(sessionCookie) = None
        /\ run.2.(sessionExpiresAt) = 0).
Proof.
  intros run.
  assert (Hrun : (exists newSession cookieHeader expiry,
                    run = (Ok tt,
                           set_session_fields (Some newSession) cookieHeader
                             expiry None
                             (Date_now (after_failed_handshake st)).2))
                 \/ exists error,
                      run = (Throw error, after_failed_handshake st)).
  { subst run.
    destruct st as [ses cookie0 expires tok reqs reps clk tks kps drw].
    unfold after_failed_handshake. run_aes. cbn [fst snd].
    destruct (kps drw) as [publicKey privateKey]. cbv beta iota.
    cbn [replies tail requests].
    destruct reps as [|[response|message] rest]; cbv beta iota;
      try (right; eexists; reflexivity).
    destruct (decide (statusCode response ≠ 200));
      [right; eexists; reflexivity|].
    unfold JSON_parse.
    destruct (json_parse (body response)) as [parsed|];
      cbv beta iota delta [or_throw]; [|right; eexists; reflexivity].
    destruct (if isObjectLike parsed then get_prop parsed "error_code"
              else JUndefined) as [| | |code| | |];
      try (right; eexists; reflexivity).
    destruct (decide (code ≠ 0)).
    { destruct (decide (code ∈ AES_AUTH_ERROR_CODES));
        right; eexists; reflexivity. }
    cbv beta iota.
    destruct (if isObjectLike (get_prop parsed "result")
              then get_prop (get_prop parsed "result") "key"
              else JUndefined) as [| | | |encodedKey| |];
      try (right; eexists; reflexivity).
    destruct (decryptPkcs1v15 privateKey (from_base64 encodedKey))
      as [material|error]; cbv beta iota; [|right; eexists; reflexivity].
    destruct (length material <? 32)%nat;
      [right; eexists; reflexivity|].
    left. eexists _, _, _. reflexivity. }
  clearbody run.
  destruct Hrun as [(newSession & cookieHeader & expiry & ->)|[error ->]];
    cbn [fst snd set_session_fields Date_now after_failed_handshake token
         draws requests session sessionCookie sessionExpiresAt].
  - split; [reflexivity|]. split; [reflexivity|]. split; [reflexivity|].
    intros error H. discriminate H.
  - split; [reflexivity|]. split; [reflexivity|]. split; [reflexivity|].
    intros raised _. repeat split; reflexivity.
Qed.

Lemma assertResponseSuccess_ok (response checked : jsval) (context : string)
  (st st' : State) :
  assertResponseSuccess response context st = (Ok checked, st') ->
  st' = st /\ checked = response.
Proof.
  unfold assertResponseSuccess.
  destruct (if isObjectLike response then get_prop response "error_code"
            else JUndefined) as [| | |code| | |];
    try (intros H; failed H).
  destruct (decide (code ≠ 0)).
  - unfold mbind, M_bind, throw.
    destruct ((if decide (code ∈ AES_AUTH_ERROR_CODES) then resetSession
               else mret tt) st) as [[[]|error] st1]; intros H; failed H.
  - intros H. injection H as <- <-. split; reflexivity.
Qed.

(** A passthrough that returns has kept the session and the token. *)
Lemma sendSecurePassthrough_ok (payload : string) (timeout : Z)
  (st st' : State) (parsed : jsval) :
  sendSecurePassthrough payload timeout st = (Ok parsed, st') ->
  is_Some st.(session)
  /\ st'.(session) = st.(session)
  /\ st'.(token) = st.(token).
Proof.
  destruct st as [ses cookie0 expires tok reqs reps clk tks kps drw].
  run_aes.
  destruct ses as [current|]; [|intros H; failed H].
  destruct (encryptAesPayload current _) as [encryptedPayload|error];
    cbv beta iota; [|intros H; failed H].
  destruct reps as [|[response|message] rest]; cbv beta iota;
    try (intros H; failed H).
  destruct (decide (statusCode response = 403)); [intros H; failed H|].
  destruct (decide (statusCode response ≠ 200)); [intros H; failed H|].
  unfold JSON_parse at 1.
  destruct (json_parse (body response)) as [outer|];
    cbv beta iota delta [or_throw]; [|intros H; failed H].
  destruct (if isObjectLike outer then get_prop outer "error_code"
            else JUndefined) as [| | |code| | |];
    try (intros H; failed H).
  destruct (decide (code ≠ 0)).
  { destruct (decide (code ∈ AES_AUTH_ERROR_CODES)); intros H; failed H. }
  cbv beta iota.
  destruct (if isObjectLike (get_prop outer "result")
            then get_prop (get_prop outer "result") "response"
            else JUndefined) as [| | | |inner| |];
    try (intros H; failed H).
  destruct (outcome_bind string jsval _ (decryptAesPayload current inner))
    as [decoded|decodeError].
  - intros H. injection H as _ <-.
    split; [eexists; reflexivity|]. split; reflexivity.
  - intros H. injection H as _ <-.
    split; [eexists; reflexivity|]. split; reflexivity.
Qed.

(** A login that returns leaves the session it used and the granted
    token. *)
Lemma tryLogin_ok (loginParams : AesLoginParams) (timeout : Z)
  (st st' : State) :
  tryLogin loginParams timeout st = (Ok tt, st') ->
  is_Some st'.(session) /\ is_Some st'.(token)
  /\ st'.(session) = st.(session).
Proof.
  unfold tryLogin. unfold mbind at 1, M_bind at 1.
  destruct (Date_now st) as [[now|error] st0] eqn:Hnow;
    [|intros H; failed H].
  assert (Hst0 : st0.(session) = st.(session))
    by (unfold Date_now in Hnow; injection Hnow as _ <-; reflexivity).
  unfold mbind at 1, M_bind at 1.
  destruct (sendSecurePassthrough _ timeout st0)
    as [[loginResponse|error] st1] eqn:Hpass; [|intros H; failed H].
  destruct (sendSecurePassthrough_ok _ _ _ _ _ Hpass) as (Hsome & Hses & _).
  unfold mbind at 1, M_bind at 1.
  destruct (assertResponseSuccess loginResponse "login" st1)
    as [[loginResult|error] st2] eqn:Hassert; [|intros H; failed H].
  destruct (assertResponseSuccess_ok _ _ _ _ _ Hassert) as [-> ->].
  destruct (if isObjectLike (get_prop loginResponse "result")
            then get_prop (get_prop loginResponse "result") "token"
            else JUndefined) as [| | | |newToken| |];
    try (intros H; failed H).
  unfold mbind, M_bind, gets, modify. cbv beta iota delta [id].
  intros H. injection H as <-.
  cbn [Aes.session token set_session_fields].
  rewrite Hses, Hst0 in *. split; [exact Hsome|].
  split; [eexists; reflexivity | reflexivity].
Qed.

(** X19.  After [ensureSession] has returned, the connection holds a session and
    a token, so the request that follows carries the token.  Either they
    are the session and the token it had, and nothing was posted; or they
    come from a new handshake followed by the login of the first
    candidate. *)
Theorem aes_session_after_ensure (this : Options) (timeout : Z)
  (st st' : State) :
  ensureSession this timeout st = (Ok tt, st') ->
  is_Some st'.(session) /\ is_Some st'.(token)
  /\ ((st'.(session) = st.(session) /\ st'.(token) = st.(token)
       /\ st'.(requests) = st.(requests))
      \/ exists first others before shaken,
           buildLoginCandidates this = Ok (first :: others)
           /\ before.(requests) = st.(requests)
           /\ performHandshake timeout before = (Ok tt, shaken)
           /\ tryLogin first.(params) timeout shaken = (Ok tt, st')).
Proof.
  assert (Hfresh : forall before,
            before.(requests) = st.(requests) ->
            (performHandshake timeout ≫= fun _ =>
             performLogin this timeout) before = (Ok tt, st') ->
            is_Some st'.(session) /\ is_Some st'.(token)
            /\ ((st'.(session) = st.(session)
                 /\ st'.(token) = st.(token)
                 /\ st'.(requests) = st.(requests))
                \/ exists first others before shaken,
                     buildLoginCandidates this = Ok (first :: others)
                     /\ before.(requests) = st.(requests)
                     /\ performHandshake timeout before = (Ok tt, shaken)
                     /\ tryLogin first.(params) timeout shaken
                        = (Ok tt, st'))).
  { intros before Hrequests. unfold mbind, M_bind.
    destruct (performHandshake timeout before) as [[[]|error] shaken]
      eqn:Hshake; [|intros H; failed H].
    intros Hlogin.
    destruct (AesLoginFacts.performLogin_ok this timeout shaken st' Hlogin)
      as (first & others & Hbuild & Htry).
    destruct (tryLogin_ok _ _ _ _ Htry) as (Hses & Htok & _).
    split; [exact Hses|]. split; [exact Htok|].
    right. exists first, others, before, shaken.
    split; [exact Hbuild|]. split; [exact Hrequests|].
    split; [exact Hshake | exact Htry]. }
  destruct st as [ses cookie0 expires tok reqs reps clk tks kps drw].
  unfold ensureSession.
  cbv beta iota zeta delta [mbind M_bind gets id mret M_ret isSessionExpired
    Date_now Aes.session token sessionExpiresAt clock ticks].
  destruct ses as [current|]; [|apply Hfresh; reflexivity].
  destruct tok as [granted|]; [|apply Hfresh; reflexivity].
  destruct (decide (expires = 0)); [apply Hfresh; reflexivity|].
  destruct (expires <=? clk tks); cbn [negb];
    [apply Hfresh; reflexivity|].
  intros H. injection H as <-. cbn.
  split; [eexists; reflexivity|]. split; [eexists; reflexivity|].
  left. repeat split; reflexivity.
Qed.

End Exchange.

End AesExchangeFacts.

Module AesInvariantFacts.
Import Aes.

Section Invariant.
Context `{RT : Runtime}.

Ltac run_aes :=
  cbv beta iota zeta delta [performHandshake sendSecurePassthrough tryLogin
    assertResponseSuccess isSessionExpired resetSession generateKeyPairSync
    Date_now post mbind M_bind mret M_ret gets modify lift throw
    set_session_fields app_headers Aes.session sessionCookie sessionExpiresAt
    token requests replies clock ticks keypairs draws].

Ltac kept_or_reset :=
  cbn [snd Aes.session token];
  first [left; split; reflexivity | right; split; reflexivity].

(** The session and the token after a step are those before it, or both
    are gone. *)
Lemma assertResponseSuccess_fields (response : jsval) (context : string)
  (st : State) :
  let st' := (assertResponseSuccess response context st).2 in
  (st'.(session) = st.(session) /\ st'.(token) = st.(token))
  \/ (st'.(session) = None /\ st'.(token) = None).
Proof.
  destruct st as [ses cookie0 expires tok reqs reps clk tks kps drw].
  run_aes.
  destruct (if isObjectLike response then get_prop response "error_code"
            else JUndefined) as [| | |code| | |]; try kept_or_reset.
  destruct (decide (code ≠ 0)); [|kept_or_reset].
  destruct (decide (code ∈ AES_AUTH_ERROR_CODES)); kept_or_reset.
Qed.

Lemma sendSecurePassthrough_fields (payload : string) (timeout : Z)
  (st : State) :
  let st' := (sendSecurePassthrough payload timeout st).2 in
  (st'.(session) = st.(session) /\ st'.(token) = st.(token))
  \/ (st'.(session) = None /\ st'.(token) = None).
Proof.
  destruct st as [ses cookie0 expires tok reqs reps clk tks kps drw].
  run_aes.
  destruct ses as [current|]; [|kept_or_reset].
  destruct (encryptAesPayload current _) as [encryptedPayload|error];
    cbv beta iota; [|kept_or_reset].
  destruct reps as [|[response|message] rest]; cbv beta iota;
    try kept_or_reset.
  destruct (decide (statusCode response = 403)); [kept_or_reset|].
  destruct (decide (statusCode response ≠ 200)); [kept_or_reset|].
  unfold JSON_parse.
  destruct (json_parse (body response)) as [outer|];
    cbv beta iota delta [or_throw]; [|kept_or_reset].
  destruct (if isObjectLike outer then get_prop outer "error_code"
            else JUndefined) as [| | |code| | |]; try kept_or_reset.
  destruct (decide (code ≠ 0)).
  { destruct (decide (code ∈ AES_AUTH_ERROR_CODES)); kept_or_reset. }
  cbv beta iota.
  destruct (if isObjectLike (get_prop outer "result")
            then get_prop (get_prop outer "result") "response"
            else JUndefined) as [| | | |inner| |]; try kept_or_reset.
  destruct (outcome_bind string jsval _ (decryptAesPayload current inner));
    kept_or_reset.
Qed.

Lemma kept_or_reset_ok (st st' : State) :
  (st'.(session) = st.(session) /\ st'.(token) = st.(token))
  \/ (st'.(session) = None /\ st'.(token) = None) ->
  aes_state_ok st -> aes_state_ok st'.
Proof.
  unfold aes_state_ok. intros [[-> ->]|[_ ->]] Hok; [exact Hok|].
  intros [x Hx]. discriminate Hx.
Qed.

Lemma tryLogin_keeps_ok (loginParams : AesLoginParams) (timeout : Z)
  (st : State) :
  aes_state_ok st -> aes_state_ok (tryLogin loginParams timeout st).2.
Proof.
  intros Hok.
  destruct (tryLogin loginParams timeout st) as [[[]|error] st'] eqn:Hrun.
  - destruct (AesExchangeFacts.tryLogin_ok _ _ _ _ Hrun) as (Hses & _).
    intros _. exact Hses.
  - revert Hrun. unfold tryLogin. unfold mbind at 1, M_bind at 1.
    destruct (Date_now st) as [[now|e] st0] eqn:Hnow;
      [|unfold Date_now in Hnow; discriminate Hnow].
    assert (Hok0 : aes_state_ok st0).
    { unfold Date_now in Hnow. injection Hnow as _ <-. exact Hok. }
    unfold mbind at 1, M_bind at 1.
    pose proof (sendSecurePassthrough_fields
                  (JSON_stringify
                     (JObj [("method", JStr "login_device");
                            ("params", params_object loginParams);
                            ("request_time_milis", JNum now)]))
                  timeout st0) as Hpass.
    cbv zeta in Hpass.
    destruct (sendSecurePassthrough _ timeout st0)
      as [[loginResponse|e] st1].
    2: { intros H. injection H as _ <-.
         apply (kept_or_reset_ok st0); assumption. }
    assert (Hok1 : aes_state_ok st1)
      by (apply (kept_or_reset_ok st0); assumption).
    unfold mbind at 1, M_bind at 1.
    pose proof (assertResponseSuccess_fields loginResponse "login" st1)
      as Hassert.
    cbv zeta in Hassert.
    destruct (assertResponseSuccess loginResponse "login" st1)
      as [[loginResult|e] st2].
    2: { intros H. injection H as _ <-.
         apply (kept_or_reset_ok st1); assumption. }
    assert (Hok2 : aes_state_ok st2)
      by (apply (kept_or_reset_ok st1); assumption).
    destruct (if isObjectLike (get_prop loginResult "result")
              then get_prop (get_prop loginResult "result") "token"
              else JUndefined) as [| | | |newToken| |];
      try (unfold throw; intros H; injection H as _ <-; exact Hok2).
    unfold mbind, M_bind, gets, modify. intros H. discriminate H.
Qed.

Lemma performHandshake_ok_state (timeout : Z) (st : State) :
  aes_state_ok (performHandshake timeout st).2.
Proof.
  assert (Htoken : (performHandshake timeout st).2.(token) = None).
  { destruct st as [ses cookie0 expires tok reqs reps clk tks kps drw].
    run_aes. destruct (kps drw) as [publicKey privateKey]. cbv beta iota.
    destruct reps as [|[response|message] rest]; cbv beta iota;
      try reflexivity.
    destruct (decide (statusCode response ≠ 200)); [reflexivity|].
    unfold JSON_parse.
    destruct (json_parse (body response)) as [parsed|];
      cbv beta iota delta [or_throw]; [|reflexivity].
    destruct (if isObjectLike parsed then get_prop parsed "error_code"
              else JUndefined) as [| | |code| | |]; try reflexivity.
    destruct (decide (code ≠ 0)).
    { destruct (decide (code ∈ AES_AUTH_ERROR_CODES)); reflexivity. }
    cbv beta iota.
    destruct (if isObjectLike (get_prop parsed "result")
              then get_prop (get_prop parsed "result") "key"
              else JUndefined) as [| | | |encodedKey| |]; try reflexivity.
    destruct (decryptPkcs1v15 privateKey (from_base64 encodedKey))
      as [material|error]; cbv beta iota; [|reflexivity].
    destruct (length material <? 32)%nat; reflexivity. }
  intros [x Hx]. rewrite Htoken in Hx. discriminate Hx.
Qed.

Lemma performLoginForCandidate_keeps_ok (remaining : nat)
  (candidates : list AesLoginCandidate) (timeout : Z) (index : nat)
  (st : State) :
  aes_state_ok st ->
  aes_state_ok
    (performLoginForCandidate_from remaining candidates timeout index st).2.
Proof.
  revert index st. induction remaining as [|remaining IH]; intros index st Hok;
    cbn [performLoginForCandidate_from];
    (destruct (candidates !! index) as [candidate|]; [|exact Hok]);
    unfold try_catch;
    pose proof (tryLogin_keeps_ok candidate.(params) timeout st Hok) as Htry;
    (destruct (tryLogin (params candidate) timeout st) as [[[]|error] st1];
     [exact Htry|]);
    cbn [snd] in Htry;
    (destruct (bool_decide (is_Some (extractErrorCode error))
               && bool_decide (default 0 (extractErrorCode error)
                               ∈ AES_AUTH_ERROR_CODES)
               && (index <? length candidates - 1)%nat);
     [|exact Htry]);
    unfold mbind, M_bind, throw;
    pose proof (performHandshake_ok_state timeout st1) as Hshake;
    (destruct (performHandshake timeout st1) as [[[]|e] st2];
     [|exact Hshake]); cbn [snd] in Hshake.
  - exact Hshake.
  - pose proof (IH (index + 1)%nat st2 Hshake) as Hrec.
    destruct (performLoginForCandidate_from remaining candidates timeout
                (index + 1) st2) as [[[]|e] st3]; exact Hrec.
Qed.

Lemma ensureSession_ok_state (this : Options) (timeout : Z) (st : State) :
  aes_state_ok (ensureSession this timeout st).2.
Proof.
  assert (Hfresh : forall before,
            aes_state_ok
              ((performHandshake timeout ≫= fun _ =>
                performLogin this timeout) before).2).
  { intros before. unfold mbind, M_bind.
    pose proof (performHandshake_ok_state timeout before) as Hshake.
    destruct (performHandshake timeout before) as [[[]|e] shaken];
      [|exact Hshake].
    cbn [snd] in Hshake. unfold performLogin, mbind, M_bind, lift.
    destruct (buildLoginCandidates this) as [candidates|e]; [|exact Hshake].
    destruct (decide (length candidates = 0%nat)); [exact Hshake|].
    apply performLoginForCandidate_keeps_ok, Hshake. }
  destruct st as [ses cookie0 expires tok reqs reps clk tks kps drw].
  unfold ensureSession.
  cbv beta iota zeta delta [mbind M_bind gets id mret M_ret isSessionExpired
    Date_now Aes.session token sessionExpiresAt clock ticks].
  destruct ses as [current|]; [|apply Hfresh].
  destruct tok as [granted|]; [|apply Hfresh].
  destruct (decide (expires = 0)); [apply Hfresh|].
  destruct (expires <=? clk tks); cbn [negb]; [apply Hfresh|].
  intros _. eexists. reflexivity.
Qed.

(** X20.  After [send], whatever state the connection was in and whatever the
    device answered, the connection holds a token only together with a
    session: every step either keeps both, drops both, or (the login)
    stores the token of a session that is in place. *)
Theorem aes_token_needs_session (this : Options) (payload : string)
  (timeout : Z) (st : State) :
  aes_state_ok (send this payload timeout st).2.
Proof.
  assert (Hattempt : forall before,
            aes_state_ok
              ((ensureSession this timeout ≫= fun _ =>
                sendSecurePassthrough payload timeout ≫= fun response =>
                mret (JSON_stringify response)) before).2).
  { intros before. unfold mbind, M_bind, mret, M_ret.
    pose proof (ensureSession_ok_state this timeout before) as Hensure.
    destruct (ensureSession this timeout before) as [[[]|e] st0];
      [|exact Hensure].
    cbn [snd] in Hensure.
    pose proof (sendSecurePassthrough_fields payload timeout st0) as Hpass.
    cbv zeta in Hpass.
    destruct (sendSecurePassthrough payload timeout st0) as [[response|e] st1];
      cbn [snd] in *; apply (kept_or_reset_ok st0); assumption. }
  rewrite AesLoginFacts.aes_send_unfold.
  pose proof (Hattempt st) as Hfirst.
  destruct ((ensureSession this timeout ≫= _) st) as [[text|error] st1];
    [exact Hfirst|].
  destruct (bool_decide (extractStatusCode error = Some 403) || _);
    [apply Hattempt | exact Hfirst].
Qed.

End Invariant.

End AesInvariantFacts.

(** *** The further AES properties at the example device *)

Module AesExamples.
Import Aes.

Lemma aes_payload_round_trip_witness :
  exists encrypted,
    @encryptAesPayload Toy.runtime
      {| key := Toy.aes_key; iv := Toy.aes_iv |} "{}" = Ok encrypted
    /\ @decryptAesPayload Toy.runtime
         {| key := Toy.aes_key; iv := Toy.aes_iv |} encrypted = Ok "{}".
Proof.
  apply (@AesPayloadFacts.aes_payload_round_trip Toy.runtime
           KlapFacts.toy_runtime_laws
           {| key := Toy.aes_key; iv := Toy.aes_iv |} "{}").
  - intros data. apply list_byte_of_string_of_list_byte.
  - reflexivity.
  - reflexivity.
Defined.

Lemma aes_login_candidates_witness :
  exists candidates,
    @buildLoginCandidates Toy.runtime Toy.aes_options = Ok candidates
    /\ candidates <> []
    /\ (label <$> candidates)
       = [ "credentials-v2"; "credentials-v1";
           "default-tapo-v2"; "default-tapo-v1" ].
Proof.
  set (candidates :=
         match @buildLoginCandidates Toy.runtime Toy.aes_options with
         | Ok candidates => candidates
         | Throw _ => []
         end).
  assert (Hbuild : @buildLoginCandidates Toy.runtime Toy.aes_options
                   = Ok candidates) by (vm_compute; reflexivity).
  destruct (@AesPayloadFacts.aes_login_candidates Toy.runtime Toy.aes_options
              candidates Hbuild) as (Hnonempty & _).
  exists candidates. split; [exact Hbuild|]. split; [exact Hnonempty|].
  vm_compute. reflexivity.
Defined.

Lemma parseCredentialsHash_result_witness :
  @parseCredentialsHash Examples.runtime "{params}"
  = Ok {| username := "dXNlcg=="; password := None;
          password2 := Some "cGFzcw==" |}.
Proof.
  destruct (@AesLoginFacts.parseCredentialsHash_result Examples.runtime
              "{params}") as [_ Hround].
  apply Hround.
  - vm_compute. reflexivity.
  - right. eexists. reflexivity.
Defined.

Lemma aes_login_rests_on_first_candidate_witness :
  let st := Examples.logged_in [ Response (Toy.aes_response "{login-denied}") ]
  in
  exists raised,
    (@performLogin Toy.runtime Toy.aes_options 1500 st).1 = Throw raised.
Proof.
  intros st.
  set (candidates :=
         match @buildLoginCandidates Toy.runtime Toy.aes_options with
         | Ok candidates => candidates
         | Throw _ => []
         end).
  destruct (@AesLoginFacts.aes_login_rests_on_first_candidate Toy.runtime
              Toy.aes_options 1500 st) as [_ Hfails].
  apply (Hfails (default {| label := EmptyString;
                            params := {| username := EmptyString;
                                         password := None;
                                         password2 := None |} |}
                   (head candidates))
           (tail candidates)
           (Error "login failed with error_code" None (Some (-1501)))
           (@tryLogin Toy.runtime
              (default {| label := EmptyString;
                          params := {| username := EmptyString;
                                       password := None;
                                       password2 := None |} |}
                 (head candidates)).(params) 1500 st).2).
  - vm_compute. reflexivity.
  - vm_compute. reflexivity.
Defined.

Lemma aes_passthrough_exchange_witness :
  let st := Examples.logged_in [ Response (Toy.aes_response "{plain-reply}") ]
  in
  let run := @sendSecurePassthrough Examples.runtime "{}" 1500 st in
  @decryptAesPayload Examples.runtime
    {| key := Toy.aes_key; iv := Toy.aes_iv |} "{granted}"
  = Throw (plainError "aes-128-cbc: decryption failed")
  /\ run.1 = Ok (JObj [("error_code", JNum 0);
                       ("result", JObj [("token", JStr "tok")])])
  /\ (req_path <$> run.2.(requests)) = ["/app?token=tok"].
Proof.
  intros st run.
  destruct (@AesExchangeFacts.aes_passthrough_exchange Examples.runtime
              "{}" 1500 st {| key := Toy.aes_key; iv := Toy.aes_iv |}
              (string_of_list_byte
                 (Toy.aes_key ++ Toy.aes_iv ++ list_byte_of_string "{}"))
              (Toy.aes_response "{plain-reply}") []
              [("error_code", JNum 0);
               ("result", JObj [("response", JStr "{granted}")])]
              [("response", JStr "{granted}")] "{granted}")
    as (Hresult & Hrequests & _).
  - reflexivity.
  - vm_compute. reflexivity.
  - reflexivity.
  - reflexivity.
  - vm_compute. reflexivity.
  - reflexivity.
  - reflexivity.
  - reflexivity.
  - fold run in Hresult, Hrequests.
    split; [vm_compute; reflexivity|].
    split; [rewrite Hresult; vm_compute; reflexivity|].
    rewrite Hrequests. vm_compute. reflexivity.
Defined.

Lemma aes_handshake_discards_token_witness :
  let st := Examples.logged_in [ Response (Toy.aes_response "{denied}") ] in
  let run := @performHandshake Toy.runtime 1500 st in
  run.1 = Throw (Error "handshake failed with error_code" None (Some (-1501)))
  /\ run.2.(token) = None
  /\ run.2.(session) = None.
Proof.
  intros st run.
  destruct (@AesExchangeFacts.aes_handshake_discards_token Toy.runtime 1500
              st) as (Htoken & _ & _ & Hfailed).
  fold run in Htoken, Hfailed.
  assert (Hrun : run.1 = Throw (Error "handshake failed with error_code" None
                                  (Some (-1501))))
    by (vm_compute; reflexivity).
  destruct (Hfailed _ Hrun) as (Hsession & _).
  split; [exact Hrun|]. split; [exact Htoken | exact Hsession].
Defined.

Lemma aes_session_after_ensure_witness :
  let st := Toy.aes_state [ Response (Toy.aes_response "{handshake}");
                            Response (Toy.aes_response "{login-granted}") ] in
  let run := @ensureSession Toy.runtime Toy.aes_options 1500 st in
  run.1 = Ok tt
  /\ is_Some run.2.(session)
  /\ run.2.(token) = Some "tok".
Proof.
  intros st run.
  assert (Hrun : run = (Ok tt, run.2)) by (vm_compute; reflexivity).
  destruct (@AesExchangeFacts.aes_session_after_ensure Toy.runtime
              Toy.aes_options 1500 st run.2 Hrun) as (Hsession & _ & _).
  split; [rewrite Hrun; reflexivity|]. split; [exact Hsession|].
  vm_compute. reflexivity.
Defined.

End AesExamples.

(** * Credential options *)

Module CredentialFacts.
Import CredentialOptions.

Lemma is_nonempty_string_spec (v : jsval) :
  is_nonempty_string v = true
  <-> exists text, v = JStr text /\ text <> EmptyString.
Proof.
  split.
  - destruct v as [| | | |text| |]; try discriminate.
    intros Hlen. exists text. split; [reflexivity|].
    intros ->. discriminate Hlen.
  - intros (text & -> & Hne). destruct text; [contradiction|reflexivity].
Qed.

Lemma is_nonempty_string_not_nullish (v : jsval) :
  is_nonempty_string v = true -> is_nullish v = false.
Proof. destruct v; try discriminate; reflexivity. Qed.

Lemma normalizeCredentialOptions_cases (options : jsval) (context : string) :
  match normalizeCredentialOptions options context with
  | Ok result =>
      normalized result
      /\ get_prop result "credentialsHash" = get_prop options "credentialsHash"
      /\ is_nullish (get_prop result "credentials")
         = is_nullish (get_prop options "credentials")
  | Throw error =>
      exists reason, error = TypeError (context +:+ ": " +:+ reason)
  end.
Proof.
  unfold normalizeCredentialOptions.
  set (given := get_prop options "credentials").
  set (hash := get_prop options "credentialsHash").
  assert (Hhash : match assertCredentialsHash hash context with
                  | Ok _ =>
                      (is_nullish hash = true
                       \/ exists text, hash = JStr text /\ text <> EmptyString)
                      /\ forall context',
                           assertCredentialsHash hash context' = Ok tt
                  | Throw error =>
                      exists reason,
                        error = TypeError (context +:+ ": " +:+ reason)
                  end).
  { unfold assertCredentialsHash.
    destruct (is_nullish hash) eqn:Hnull; [split; [left|]; reflexivity|].
    destruct (is_nonempty_string hash) eqn:Hstring; cbn [negb].
    - split; [right; apply is_nonempty_string_spec, Hstring | reflexivity].
    - eexists. reflexivity. }
  assert (Hcredentials : forall c h,
            get_prop (JObj [("credentials", c); ("credentialsHash", h)])
              "credentials" = c) by reflexivity.
  assert (HcredentialsHash : forall c h,
            get_prop (JObj [("credentials", c); ("credentialsHash", h)])
              "credentialsHash" = h) by reflexivity.
  assert (Husername : forall u p,
            get_prop (JObj [("username", u); ("password", p)]) "username" = u)
    by reflexivity.
  assert (Hpassword : forall u p,
            get_prop (JObj [("username", u); ("password", p)]) "password" = p)
    by reflexivity.
  destruct (is_nullish given) eqn:Hgiven.
  - cbn [assertCredentialPair is_nullish mbind outcome_bind].
    destruct (assertCredentialsHash hash context) as [[]|error];
      cbn [mbind outcome_bind]; [|exact Hhash].
    destruct Hhash as [Hshape Hagain].
    split.
    { unfold normalized. exists JUndefined, hash.
      split; [reflexivity|]. split; [left; reflexivity | exact Hshape]. }
    rewrite Hcredentials, HcredentialsHash.
    split; reflexivity.
  - unfold assertCredentialPair. cbn [is_nullish]. rewrite Husername, Hpassword.
    destruct (is_nonempty_string (get_prop given "username")) eqn:Huser;
      cbn [negb mbind outcome_bind]; [|eexists; reflexivity].
    destruct (is_nonempty_string (get_prop given "password")) eqn:Hpass;
      cbn [negb mbind outcome_bind]; [|eexists; reflexivity].
    destruct (assertCredentialsHash hash context) as [[]|error];
      cbn [mbind outcome_bind]; [|exact Hhash].
    destruct Hhash as [Hshape Hagain].
    pose proof Huser as Huser'. pose proof Hpass as Hpass'.
    apply is_nonempty_string_spec in Huser' as (username & Hu & Hune).
    apply is_nonempty_string_spec in Hpass' as (password & Hp & Hpne).
    split.
    { unfold normalized. eexists _, hash.
      split; [reflexivity|]. split; [|exact Hshape].
      right. exists username, password. rewrite Hu, Hp.
      repeat split; assumption. }
    rewrite Hcredentials, HcredentialsHash.
    split; reflexivity.
Qed.

(** X21.  [normalizeCredentialOptions] either raises a TypeError that starts
    with the context, or returns an object with exactly the properties
    [credentials] and [credentialsHash], where [credentials] is undefined
    or holds a non-empty string [username] and a non-empty string
    [password] and nothing else, and [credentialsHash] is undefined, null
    or a non-empty string.  The values are those of the argument, and a
    returned object passes the function again unchanged. *)
Theorem credential_options_normal_form (options : jsval) (context : string) :
  match normalizeCredentialOptions options context with
  | Ok result =>
      normalized result
      /\ get_prop result "credentialsHash" = get_prop options "credentialsHash"
      /\ get_prop (get_prop result "credentials") "username"
         = get_prop (get_prop options "credentials") "username"
      /\ get_prop (get_prop result "credentials") "password"
         = get_prop (get_prop options "credentials") "password"
      /\ forall context',
           normalizeCredentialOptions result context' = Ok result
  | Throw error =>
      exists reason, error = TypeError (context +:+ ": " +:+ reason)
  end.
Proof.
  unfold normalizeCredentialOptions.
  set (given := get_prop options "credentials").
  set (hash := get_prop options "credentialsHash").
  assert (Hhash : match assertCredentialsHash hash context with
                  | Ok _ =>
                      (is_nullish hash = true
                       \/ exists text, hash = JStr text /\ text <> EmptyString)
                      /\ forall context',
                           assertCredentialsHash hash context' = Ok tt
                  | Throw error =>
                      exists reason,
                        error = TypeError (context +:+ ": " +:+ reason)
                  end).
  { unfold assertCredentialsHash.
    destruct (is_nullish hash) eqn:Hnull; [split; [left|]; reflexivity|].
    destruct (is_nonempty_string hash) eqn:Hstring; cbn [negb].
    - split; [right; apply is_nonempty_string_spec, Hstring | reflexivity].
    - eexists. reflexivity. }
  assert (Hcredentials : forall c h,
            get_prop (JObj [("credentials", c); ("credentialsHash", h)])
              "credentials" = c) by reflexivity.
  assert (HcredentialsHash : forall c h,
            get_prop (JObj [("credentials", c); ("credentialsHash", h)])
              "credentialsHash" = h) by reflexivity.
  assert (Husername : forall u p,
            get_prop (JObj [("username", u); ("password", p)]) "username" = u)
    by reflexivity.
  assert (Hpassword : forall u p,
            get_prop (JObj [("username", u); ("password", p)]) "password" = p)
    by reflexivity.
  destruct (is_nullish given) eqn:Hgiven.
  - cbn [assertCredentialPair is_nullish mbind outcome_bind].
    destruct (assertCredentialsHash hash context) as [[]|error];
      cbn [mbind outcome_bind]; [|exact Hhash].
    destruct Hhash as [Hshape Hagain].
    split.
    { unfold normalized. exists JUndefined, hash.
      split; [reflexivity|]. split; [left; reflexivity | exact Hshape]. }
    rewrite Hcredentials, HcredentialsHash.
    assert (Hname : forall name, get_prop given name = JUndefined)
      by (intros name; destruct given; try discriminate Hgiven; reflexivity).
    rewrite !Hname.
    split; [reflexivity|]. split; [reflexivity|]. split; [reflexivity|].
    intros context'. rewrite Hagain. reflexivity.
  - unfold assertCredentialPair. cbn [is_nullish]. rewrite Husername, Hpassword.
    destruct (is_nonempty_string (get_prop given "username")) eqn:Huser;
      cbn [negb mbind outcome_bind]; [|eexists; reflexivity].
    destruct (is_nonempty_string (get_prop given "password")) eqn:Hpass;
      cbn [negb mbind outcome_bind]; [|eexists; reflexivity].
    destruct (assertCredentialsHash hash context) as [[]|error];
      cbn [mbind outcome_bind]; [|exact Hhash].
    destruct Hhash as [Hshape Hagain].
    pose proof Huser as Huser'. pose proof Hpass as Hpass'.
    apply is_nonempty_string_spec in Huser' as (username & Hu & Hune).
    apply is_nonempty_string_spec in Hpass' as (password & Hp & Hpne).
    split.
    { unfold normalized. eexists _, hash.
      split; [reflexivity|]. split; [|exact Hshape].
      right. exists username, password. rewrite Hu, Hp.
      repeat split; assumption. }
    rewrite Hcredentials, HcredentialsHash, Husername, Hpassword.
    split; [reflexivity|]. split; [reflexivity|]. split; [reflexivity|].
    intros context'. cbn [is_nullish]. rewrite Husername, Hpassword, Huser, Hpass.
    cbn [negb mbind outcome_bind]. rewrite Hagain. reflexivity.
Qed.

(** X22.  [mergeCredentialOptions] raises what normalising the client options
    raises, else what normalising the device options raises.  Otherwise
    its result is in normal form and is settled property by property: the
    credentials are the pair of the device when the device options give
    one, else the client's (the two names are never combined from both
    sides); the hash is the device's unless that is undefined or null,
    else the client's.  Without device options the result is the
    normalised client options. *)
Theorem credential_options_merge (client device : jsval) (context : string) :
  let fromClient :=
    normalizeCredentialOptions client (context +:+ " (client defaults)") in
  let fromDevice :=
    normalizeCredentialOptions device (context +:+ " (device overrides)") in
  match fromClient, fromDevice with
  | Throw error, _ =>
      mergeCredentialOptions client device context = Throw error
  | Ok _, Throw error =>
      mergeCredentialOptions client device context = Throw error
  | Ok fromClient, Ok fromDevice =>
      exists merged,
        mergeCredentialOptions client device context = Ok merged
        /\ normalized merged
        /\ get_prop merged "credentials"
           = (if is_nullish (get_prop device "credentials")
              then get_prop fromClient "credentials"
              else get_prop fromDevice "credentials")
        /\ get_prop merged "credentialsHash"
           = (if is_nullish (get_prop device "credentialsHash")
              then get_prop client "credentialsHash"
              else get_prop device "credentialsHash")
  end
  /\ mergeCredentialOptions client JUndefined context = fromClient.
Proof.
  intros fromClient fromDevice. subst fromClient fromDevice.
  assert (Hcredentials : forall c h,
            get_prop (JObj [("credentials", c); ("credentialsHash", h)])
              "credentials" = c) by reflexivity.
  assert (HcredentialsHash : forall c h,
            get_prop (JObj [("credentials", c); ("credentialsHash", h)])
              "credentialsHash" = h) by reflexivity.
  unfold mergeCredentialOptions.
  pose proof (normalizeCredentialOptions_cases client
                (context +:+ " (client defaults)")) as Hclient.
  pose proof (normalizeCredentialOptions_cases device
                (context +:+ " (device overrides)")) as Hdevice.
  split.
  - destruct (normalizeCredentialOptions client _) as [c|error];
      cbn [mbind outcome_bind]; [|reflexivity].
    destruct (normalizeCredentialOptions device _) as [d|error];
      cbn [mbind outcome_bind]; [|reflexivity].
    destruct Hclient as ((cc & ch & -> & Hcc & Hch) & Hchash & _).
    destruct Hdevice as ((dc & dh & -> & Hdc & Hdh) & Hdhash & Hdnull).
    rewrite Hcredentials, HcredentialsHash in *.
    eexists. split; [reflexivity|].
    rewrite Hcredentials, HcredentialsHash.
    subst ch dh. rewrite <- Hdnull.
    split; [|split; reflexivity].
    unfold normalized. eexists _, _. split; [reflexivity|]. split.
    + destruct Hdc as [->|(username & password & -> & Hne)];
        [exact Hcc|].
      right. exists username, password. split; [reflexivity | exact Hne].
    + unfold nullish_or.
      destruct (is_nullish (get_prop device "credentialsHash")) eqn:Hnull;
        [exact Hch|].
      destruct Hdh as [Hdh|Hdh]; [discriminate Hdh | right; exact Hdh].
  - assert (Habsent : forall context',
              normalizeCredentialOptions JUndefined context'
              = Ok (JObj [("credentials", JUndefined);
                          ("credentialsHash", JUndefined)]))
      by reflexivity.
    rewrite Habsent.
    destruct (normalizeCredentialOptions client _) as [c|error];
      cbn [mbind outcome_bind]; [|reflexivity].
    destruct Hclient as ((cc & ch & -> & _) & _).
    rewrite !Hcredentials, !HcredentialsHash. reflexivity.
Qed.

(** *** Redaction *)

Lemma assoc_get_set_same (props : list (string * jsval)) (name : string)
  (v : jsval) :
  assoc_get (assoc_set props name v) name = Some v.
Proof.
  rewrite SmartFacts.assoc_get_set.
  destruct (decide (name = name)); [reflexivity | contradiction].
Qed.

Lemma assoc_get_set_other (props : list (string * jsval))
  (name other : string) (v : jsval) :
  name <> other ->
  assoc_get (assoc_set props name v) other = assoc_get props other.
Proof.
  intros Hne. rewrite SmartFacts.assoc_get_set.
  destruct (decide (name = other)); [contradiction | reflexivity].
Qed.

Lemma assoc_set_present (props : list (string * jsval)) (name : string)
  (v : jsval) :
  assoc_get props name = Some v -> assoc_set props name v = props.
Proof.
  induction props as [|[k w] props IH]; simpl; [discriminate|].
  destruct (decide (k = name)) as [->|Hk].
  - intros H. injection H as ->. reflexivity.
  - intros H. rewrite (IH H). reflexivity.
Qed.

(** The decimal numeral of an index starts with a digit. *)
Lemma pretty_N_go_digit (x : N) (s : string) (c : ascii) (rest : string) :
  pretty_N_go x s = String c rest ->
  (forall d rest', s = String d rest' -> is_digit d = true) ->
  is_digit c = true.
Proof.
  revert s. induction (N.lt_wf_0 x) as [x _ IH]. intros s Hgo Hdigit.
  destruct (N.eq_dec x 0%N) as [->|Hpos].
  - rewrite pretty_N_go_0 in Hgo. apply (Hdigit _ _ Hgo).
  - rewrite pretty_N_go_step in Hgo by lia.
    apply (IH (x `div` 10)%N) in Hgo; [exact Hgo | apply N.div_lt; lia |].
    intros d rest' Heq. injection Heq as <- _.
    unfold pretty_N_char. repeat case_match; reflexivity.
Qed.

Lemma pretty_nat_digit (index : nat) (c : ascii) (rest : string) :
  pretty index = String c rest -> is_digit c = true.
Proof.
  unfold pretty, pretty_nat, pretty, pretty_N.
  destruct (decide (N.of_nat index = 0%N)).
  - intros H. injection H as <- _. reflexivity.
  - intros H. apply (pretty_N_go_digit _ _ _ _ H). intros d rest' Heq.
    discriminate Heq.
Qed.

Lemma assoc_get_indices (items : list jsval) (c : ascii) (rest : string) :
  is_digit c = false ->
  assoc_get (spread (JArr items)) (String c rest) = None.
Proof.
  intros Hc. unfold spread.
  assert (Hany : forall (f : nat -> string),
            (forall index, f index <> String c rest) ->
            assoc_get (imap (fun index item => (f index, item)) items)
              (String c rest) = None).
  { induction items as [|item items IH]; intros f Hf; [reflexivity|].
    cbn [imap assoc_get].
    destruct (decide (f 0%nat = String c rest)) as [Heq|_];
      [destruct (Hf _ Heq)|].
    apply (IH (f ∘ S)). intros index. apply Hf. }
  apply Hany. intros index Heq. apply pretty_nat_digit in Heq.
  rewrite Heq in Hc. discriminate Hc.
Qed.

Lemma get_prop_assoc (props : list (string * jsval)) (name : string) :
  get_prop (JObj props) name = default JUndefined (assoc_get props name).
Proof. reflexivity. Qed.

Lemma has_prop_assoc (props : list (string * jsval)) (name : string) :
  has_prop (JObj props) name = bool_decide (is_Some (assoc_get props name)).
Proof. reflexivity. Qed.

Lemma redact_hash_other (props : list (string * jsval)) (name : string) :
  name <> "credentialsHash" ->
  assoc_get (redact_hash props) name = assoc_get props name.
Proof.
  intros Hname. unfold redact_hash.
  destruct (_ && _); [|reflexivity].
  apply assoc_get_set_other. congruence.
Qed.

Lemma redact_hash_hidden (props : list (string * jsval)) :
  is_nullish (get_prop (JObj (redact_hash props)) "credentialsHash") = true
  \/ get_prop (JObj (redact_hash props)) "credentialsHash" = JStr REDACTED.
Proof.
  unfold redact_hash. rewrite has_prop_assoc, !get_prop_assoc.
  destruct (assoc_get props "credentialsHash") as [hash|] eqn:Hhash.
  - cbn [default from_option id].
    destruct (is_nullish hash) eqn:Hnull; cbn [negb].
    + rewrite andb_false_r, Hhash. left. exact Hnull.
    + rewrite andb_true_r.
      destruct (bool_decide (is_Some (Some hash))) eqn:Hsome;
        [|apply bool_decide_eq_false in Hsome; destruct Hsome; eexists;
          reflexivity].
      right. rewrite assoc_get_set_same. reflexivity.
  - destruct (bool_decide (is_Some None)) eqn:Hsome;
      [apply bool_decide_eq_true in Hsome; destruct Hsome as [x Hx];
       discriminate Hx|].
    cbn [andb]. rewrite Hhash. left. reflexivity.
Qed.

Lemma redact_hash_stable (props : list (string * jsval)) :
  is_nullish (get_prop (JObj props) "credentialsHash") = true
  \/ get_prop (JObj props) "credentialsHash" = JStr REDACTED ->
  redact_hash props = props.
Proof.
  unfold redact_hash. rewrite has_prop_assoc, !get_prop_assoc.
  intros [Hnull|Hhidden].
  - rewrite Hnull, andb_false_r. reflexivity.
  - destruct (assoc_get props "credentialsHash") as [hash|] eqn:Hhash;
      cbn [default from_option id] in *.
    + subst hash. destruct (_ && _); [|reflexivity].
      apply assoc_set_present, Hhash.
    + discriminate Hhidden.
Qed.

Lemma redact_credentials_other (props : list (string * jsval))
  (name : string) :
  name <> "credentials" ->
  assoc_get (redact_credentials props) name = assoc_get props name.
Proof.
  intros Hname. unfold redact_credentials.
  destruct (_ && _); [|reflexivity].
  apply assoc_get_set_other. congruence.
Qed.

(** What [redact_credentials] puts in the place of an object [credentials]
    hides the password, keeps the other properties, and is not changed when
    it is redacted again. *)
Lemma redact_inner (credentials : jsval) :
  isObjectLike credentials = true ->
  let inner :=
    match get_prop credentials "password" with
    | JUndefined => spread credentials
    | _ => assoc_set (spread credentials) "password" (JStr REDACTED)
    end in
  (get_prop (JObj inner) "password" = JUndefined
   \/ get_prop (JObj inner) "password" = JStr REDACTED)
  /\ (forall name, name <> "password" ->
        assoc_get inner name = assoc_get (spread credentials) name)
  /\ match get_prop (JObj inner) "password" with
     | JUndefined => spread (JObj inner)
     | _ => assoc_set (spread (JObj inner)) "password" (JStr REDACTED)
     end = inner.
Proof.
  intros Hobject inner.
  assert (Hpassword : get_prop (JObj (spread credentials)) "password"
                      = get_prop credentials "password").
  { destruct credentials as [| | | | |items|props];
      try discriminate Hobject; [|reflexivity].
    rewrite get_prop_assoc, assoc_get_indices; reflexivity. }
  assert (Hset : get_prop (JObj (assoc_set (spread credentials) "password"
                                   (JStr REDACTED))) "password"
                 = JStr REDACTED)
    by (rewrite get_prop_assoc, assoc_get_set_same; reflexivity).
  assert (Hagain : assoc_set (assoc_set (spread credentials) "password"
                                (JStr REDACTED)) "password" (JStr REDACTED)
                   = assoc_set (spread credentials) "password"
                       (JStr REDACTED))
    by (apply assoc_set_present, assoc_get_set_same).
  assert (Hother : forall name, name <> "password" ->
            assoc_get (assoc_set (spread credentials) "password"
                         (JStr REDACTED)) name
            = assoc_get (spread credentials) name)
    by (intros name Hname; apply assoc_get_set_other; congruence).
  subst inner. change (spread (JObj ?l)) with l.
  destruct (get_prop credentials "password") eqn:Hgiven;
    rewrite ?Hset, ?Hpassword, ?Hgiven;
    (split; [first [left; reflexivity | right; reflexivity]|]);
    (split; [first [intros name Hname; reflexivity | exact Hother]|]);
    first [reflexivity | exact Hagain].
Qed.

Lemma redact_credentials_cases (props : list (string * jsval)) :
  let credentials := get_prop (JObj props) "credentials" in
  (isObjectLike credentials = false /\ redact_credentials props = props)
  \/ (isObjectLike credentials = true
      /\ exists inner,
           assoc_get (redact_credentials props) "credentials"
           = Some (JObj inner)
           /\ (get_prop (JObj inner) "password" = JUndefined
               \/ get_prop (JObj inner) "password" = JStr REDACTED)
           /\ (forall name, name <> "password" ->
                 assoc_get inner name = assoc_get (spread credentials) name)
           /\ match get_prop (JObj inner) "password" with
              | JUndefined => spread (JObj inner)
              | _ => assoc_set (spread (JObj inner)) "password"
                       (JStr REDACTED)
              end = inner).
Proof.
  intros credentials. unfold redact_credentials. fold credentials.
  destruct (isObjectLike credentials) eqn:Hobject.
  - right. split; [reflexivity|].
    assert (Hhas : has_prop (JObj props) "credentials" = true).
    { rewrite has_prop_assoc. subst credentials.
      rewrite get_prop_assoc in Hobject.
      destruct (assoc_get props "credentials"); [|discriminate Hobject].
      apply bool_decide_eq_true. eexists. reflexivity. }
    rewrite Hhas. cbn [andb]. cbv zeta.
    eexists. split; [apply assoc_get_set_same|].
    apply (redact_inner credentials Hobject).
  - left. rewrite andb_false_r. split; reflexivity.
Qed.

Lemma redact_credentials_stable (props : list (string * jsval)) :
  isObjectLike (get_prop (JObj props) "credentials") = false
  \/ (exists inner,
        assoc_get props "credentials" = Some (JObj inner)
        /\ match get_prop (JObj inner) "password" with
           | JUndefined => spread (JObj inner)
           | _ => assoc_set (spread (JObj inner)) "password" (JStr REDACTED)
           end = inner) ->
  redact_credentials props = props.
Proof.
  unfold redact_credentials. intros [Hplain|(inner & Hinner & Hfixed)].
  - rewrite Hplain, andb_false_r. reflexivity.
  - rewrite get_prop_assoc, Hinner. cbn [default from_option id].
    destruct (_ && _); [|reflexivity].
    cbv zeta. rewrite Hfixed. apply assoc_set_present, Hinner.
Qed.

(** X23.  Redacting leaves a value that is not an object as it is and copies
    the own properties of an object (of an array: its elements under their
    indices) into a new object.  In the result [credentials.password] is
    undefined or the marker, [credentialsHash] is undefined, null or the
    marker, every other property of the options and of an object
    [credentials] is as it was, and redacting again changes nothing.  A
    [credentials] value that is not an object is not looked into: it is
    kept as it is. *)
Theorem redacted_options_hide_secrets (options : jsval) :
  let redacted := redactCredentialOptions options in
  (get_prop (get_prop redacted "credentials") "password" = JUndefined
   \/ get_prop (get_prop redacted "credentials") "password" = JStr REDACTED)
  /\ (is_nullish (get_prop redacted "credentialsHash") = true
      \/ get_prop redacted "credentialsHash" = JStr REDACTED)
  /\ redactCredentialOptions redacted = redacted
  /\ (forall name,
        name <> "credentials" -> name <> "credentialsHash" ->
        assoc_get (spread redacted) name = assoc_get (spread options) name)
  /\ (forall name,
        name <> "password" ->
        assoc_get (spread (get_prop redacted "credentials")) name
        = assoc_get (spread (get_prop options "credentials")) name)
  /\ (isObjectLike (get_prop options "credentials") = true
      \/ get_prop redacted "credentials" = get_prop options "credentials").
Proof.
  intros redacted.
  destruct (isObjectLike options) eqn:Hobject.
  2: { assert (Hsame : redacted = options)
         by (subst redacted; unfold redactCredentialOptions;
             rewrite Hobject; reflexivity).
       rewrite Hsame.
       assert (Hnone : forall name, get_prop options name = JUndefined)
         by (intros name; destruct options; try discriminate Hobject;
             reflexivity).
       rewrite !Hnone.
       split; [left; reflexivity|]. split; [left; reflexivity|].
       split; [rewrite <- Hsame at 2; subst redacted;
               unfold redactCredentialOptions; rewrite Hobject;
               reflexivity|].
       split; [reflexivity|]. split; [reflexivity|]. right. reflexivity. }
  set (props := spread options).
  assert (Hredacted : redacted
                      = JObj (redact_hash (redact_credentials props)))
    by (subst redacted; unfold redactCredentialOptions; rewrite Hobject;
        reflexivity).
  assert (Hgiven : get_prop (JObj props) "credentials"
                   = get_prop options "credentials").
  { subst props. destruct options as [| | | | |items|given];
      try discriminate Hobject; [|reflexivity].
    rewrite get_prop_assoc, assoc_get_indices; reflexivity. }
  assert (Hkept : get_prop redacted "credentials"
                  = get_prop (JObj (redact_credentials props)) "credentials").
  { rewrite Hredacted, !get_prop_assoc, redact_hash_other by discriminate.
    reflexivity. }
  pose proof (redact_hash_hidden (redact_credentials props)) as Hhash.
  pose proof (redact_credentials_cases props) as Hcases.
  cbv zeta in Hcases. rewrite Hgiven in Hcases.
  assert (Hagain : redactCredentialOptions redacted = redacted).
  { rewrite Hredacted. unfold redactCredentialOptions.
    cbn [isObjectLike negb]. change (spread (JObj ?l)) with l. f_equal.
    assert (Hfirst : redact_credentials
                       (redact_hash (redact_credentials props))
                     = redact_hash (redact_credentials props)).
    { apply redact_credentials_stable.
      rewrite get_prop_assoc, redact_hash_other by discriminate.
      destruct Hcases as [[Hplain Hsame]|(_ & inner & Hinner & _ & _ & Hfix)].
      - left. rewrite Hsame, <- get_prop_assoc, Hgiven. exact Hplain.
      - right. exists inner. split; [exact Hinner | exact Hfix]. }
    rewrite Hfirst. apply redact_hash_stable, Hhash. }
  rewrite Hkept. rewrite Hredacted at 1 2.
  split.
  { destruct Hcases as [[Hplain Hsame]|(_ & inner & Hinner & Hhidden & _)].
    - rewrite Hsame, Hgiven. left.
      destruct (get_prop options "credentials");
        try discriminate Hplain; reflexivity.
    - rewrite get_prop_assoc, Hinner. exact Hhidden. }
  split; [exact Hhash|]. split; [exact Hagain|].
  split.
  { intros name Hcredentials HcredentialsHash. rewrite Hredacted.
    change (spread (JObj ?l)) with l.
    rewrite redact_hash_other, redact_credentials_other by assumption.
    reflexivity. }
  split.
  { intros name Hname.
    destruct Hcases as [[Hplain Hsame]|(_ & inner & Hinner & _ & Hother & _)].
    - rewrite Hsame, Hgiven. reflexivity.
    - rewrite get_prop_assoc, Hinner. cbn [default from_option id].
      change (spread (JObj inner)) with inner. apply Hother, Hname. }
  destruct Hcases as [[Hplain Hsame]|(Hobj & _)].
  - right. rewrite Hsame, Hgiven. reflexivity.
  - left. exact Hobj.
Qed.

End CredentialFacts.

(** * The normalised MAC address *)

Module DeviceFacts.
Import DeviceInfo.






Lemma normalizeMacString_app (a b : string) :
  normalizeMacString (a +:+ b)
  = normalizeMacString a +:+ normalizeMacString b.
Proof.
  induction a as [|c a IH]; [reflexivity|].
  change (String c a +:+ b) with (String c (a +:+ b)).
  cbn [normalizeMacString]. rewrite IH.
  destruct (is_alnum c); reflexivity.
Qed.


(** X25.  Characters other than letters and digits do not count: an address
    written with a separator between two parts normalises to the normal
    forms of the parts put together, so the same address written with or
    without separators has one normal form. *)
Theorem mac_separators_vanish (a separator b : string) :
  all_chars (fun c => negb (is_alnum c)) separator = true ->
  normalizeMacString (a +:+ separator +:+ b)
  = normalizeMacString a +:+ normalizeMacString b
  /\ normalizeMacString (a +:+ separator +:+ b)
     = normalizeMacString (a +:+ b).
Proof.
  intros Hseparator.
  assert (Hnone : normalizeMacString separator = EmptyString).
  { induction separator as [|c s IH]; [reflexivity|].
    cbn [all_chars] in Hseparator.
    apply andb_true_iff in Hseparator as [Hc Hs].
    cbn [normalizeMacString].
    destruct (is_alnum c); [discriminate Hc | exact (IH Hs)]. }
  rewrite !normalizeMacString_app, Hnone. split; reflexivity.
Qed.

End DeviceFacts.

(** * Further properties of the SMART layer and of the device commands *)

Module SmartCommandFacts.
Import Smart DeviceInfo.

Lemma string_length_app (a b : string) :
  String.length (a +:+ b) = (String.length a + String.length b)%nat.
Proof.
  induction a as [|c a IH]; [reflexivity|].
  change (String c a +:+ b) with (String c (a +:+ b)).
  cbn [String.length]. rewrite IH. reflexivity.
Qed.

(** X26.  Normalising a child id a second time changes nothing, and a
    normalised child id is never a single character: a one-character id
    becomes the device id, "0" and the character, a two-character id the
    device id and the two characters, any other id stays.  So the ids that
    callers normalise before they pass them on are not prefixed twice. *)
Theorem normalizeChildId_idempotent (this : Device) (childId : string) :
  normalizeChildId this (normalizeChildId this childId)
  = normalizeChildId this childId
  /\ String.length (normalizeChildId this childId) <> 1%nat.
Proof.
  unfold normalizeChildId.
  destruct (decide (String.length childId = 1%nat)) as [Hone|Hone].
  - assert (Hlen : String.length (deviceId this +:+ "0" +:+ childId)
                   = (String.length (deviceId this) + 2)%nat)
      by (rewrite !string_length_app, Hone; reflexivity).
    split; [|lia].
    destruct (decide (String.length (deviceId this +:+ "0" +:+ childId)
                      = 1%nat)) as [Hbad|_]; [lia|].
    destruct (decide (String.length (deviceId this +:+ "0" +:+ childId)
                      = 2%nat)) as [Htwo|_]; [|reflexivity].
    destruct (deviceId this) as [|c rest]; [reflexivity|].
    cbn [String.length] in Hlen. lia.
  - destruct (decide (String.length childId = 2%nat)) as [Htwo|Htwo].
    + assert (Hlen : String.length (deviceId this +:+ childId)
                     = (String.length (deviceId this) + 2)%nat)
        by (rewrite string_length_app, Htwo; reflexivity).
      split; [|lia].
      destruct (decide (String.length (deviceId this +:+ childId) = 1%nat))
        as [Hbad|_]; [lia|].
      destruct (decide (String.length (deviceId this +:+ childId) = 2%nat))
        as [Hsame|_]; [|reflexivity].
      destruct (deviceId this) as [|c rest]; [reflexivity|].
      cbn [String.length] in Hlen. lia.
    + split; [|exact Hone].
      destruct (decide (String.length childId = 1%nat)); [contradiction|].
      destruct (decide (String.length childId = 2%nat)); [contradiction|].
      reflexivity.
Qed.

Section Commands.
Context `{RT : Runtime}.



Variable sendCommand :
  jsval -> ChildIds -> option SendOptions -> M State jsval.
Variable system : string.

Lemma sendSmartCommand_sent_itself (this : Device) (method : string)
  (params : jsval) (sendOptions : option SendOptions) (st : State) :
  this.(childId) = None ->
  (sendSmartCommand this method params NoChildIds sendOptions st).2.(sent)
  = st.(sent)
    ++ [(smart_transport this sendOptions,
         JSON_stringify
           (smart_payload this method params (st.(clock) st.(ticks))))].
Proof.
  intros Hchild. rewrite SmartFacts.sendSmartCommand_plain by exact Hchild.
  destruct (replies st) as [|[text|error] later]; try reflexivity.
  destruct (json_parse text); reflexivity.
Qed.

Lemma sendSmartCommand_sent_own_child (this : Device) (method : string)
  (params : jsval) (own : string) (sendOptions : option SendOptions)
  (st : State) :
  this.(childId) = Some own ->
  (sendSmartCommand this method params NoChildIds sendOptions st).2.(sent)
  = st.(sent)
    ++ [(smart_transport this sendOptions,
         JSON_stringify
           (control_child_payload this (normalizeChildId this own) method
              params (st.(clock) (S st.(ticks)))))].
Proof.
  intros Hchild.
  assert (Hown : sendSmartCommand this method params NoChildIds sendOptions
                 = sendSmartCommand this method params (OneChildId own)
                     sendOptions)
    by (unfold sendSmartCommand; rewrite Hchild; reflexivity).
  rewrite Hown.
  rewrite (SmartFacts.sendSmartCommand_child this method params
             (OneChildId own) own sendOptions st (or_introl eq_refl)).
  destruct (replies st) as [|[text|error] later]; try reflexivity.
  destruct (json_parse text); reflexivity.
Qed.

(** X28.  When [shouldUseSmartMethods] holds (the type of the device starts with
    "SMART." and the transport is klap or aes), [reboot] and [reset] do not
    use the legacy command: each hands one SMART payload to the connection
    of that transport.  The payload of [reboot] carries the delay, that of
    [reset] has no params at all, so the delay given to [reset] is
    dropped.  On a device object that stands for a child, both are wrapped
    in control_child for that child. *)
Theorem smart_reboot_and_reset (this : Device) (sysInfo : sysinfo)
  (delay : Z) (sendOptions : option SendOptions) (st : State) :
  shouldUseSmartMethods this sysInfo sendOptions = true ->
  let chosen := smart_transport this sendOptions in
  let rebooted := (reboot sendCommand system this sysInfo delay sendOptions
                     st).2 in
  let wiped := (reset sendCommand system this sysInfo delay sendOptions
                  st).2 in
  (chosen = klap \/ chosen = aes)
  /\ match this.(childId) with
     | None =>
         rebooted.(sent)
         = st.(sent)
           ++ [(chosen,
                JSON_stringify
                  (JObj [("method", JStr "device_reboot");
                         ("params", JObj [("delay", JNum delay)]);
                         ("request_time_milis",
                          JNum (st.(clock) st.(ticks)));
                         ("terminal_uuid", JStr this.(smartTerminalUuid))]))]
         /\ wiped.(sent)
            = st.(sent)
              ++ [(chosen,
                   JSON_stringify
                     (JObj [("method", JStr "device_reset");
                            ("request_time_milis",
                             JNum (st.(clock) st.(ticks)));
                            ("terminal_uuid",
                             JStr this.(smartTerminalUuid))]))]
     | Some own =>
         rebooted.(sent)
         = st.(sent)
           ++ [(chosen,
                JSON_stringify
                  (control_child_payload this (normalizeChildId this own)
                     "device_reboot" (JObj [("delay", JNum delay)])
                     (st.(clock) (S st.(ticks)))))]
         /\ wiped.(sent)
            = st.(sent)
              ++ [(chosen,
                   JSON_stringify
                     (control_child_payload this (normalizeChildId this own)
                        "device_reset" JUndefined
                        (st.(clock) (S st.(ticks)))))]
     end.
Proof.
  intros Hsmart chosen rebooted wiped. subst chosen rebooted wiped.
  unfold reboot, reset. rewrite Hsmart.
  split.
  - unfold shouldUseSmartMethods in Hsmart.
    destruct (negb (isSmartProtocolDevice sysInfo)); [discriminate Hsmart|].
    unfold smart_transport.
    destruct (sendOptions ≫= transport) as [[]|];
      try (cbn in Hsmart; discriminate Hsmart);
      try (left; reflexivity); try (right; reflexivity).
    destruct (transport (defaultSendOptions this)) as [[]|];
      try (cbn in Hsmart; discriminate Hsmart);
      try (left; reflexivity); right; reflexivity.
  - destruct (childId this) as [own|] eqn:Hchild.
    + split; apply sendSmartCommand_sent_own_child, Hchild.
    + split; apply sendSmartCommand_sent_itself, Hchild.
Qed.

End Commands.

End SmartCommandFacts.

(** * The further properties at example inputs *)

Module MoreExamples.

Lemma aes_send_attempts_witness :
  let forbidden :=
    {| Aes.statusCode := 403; Aes.body := EmptyString;
       Aes.headers := NoSetCookie |} in
  let st :=
    Examples.logged_in
      [ Response forbidden;
        Response (Toy.aes_response "{handshake}");
        Response (Toy.aes_response "{login-granted}");
        Response (Toy.aes_response "{login-granted}") ] in
  let run := @Aes.send Toy.runtime Toy.aes_options "{}" 1500 st in
  is_Ok run.1 = true
  /\ (Aes.req_path <$> run.2.(Aes.requests))
     = [ "/app?token=tok"; "/app"; "/app"; "/app?token=tok" ]
  /\ run.2.(Aes.replies) = [].
Proof.
  intros forbidden st run.
  pose proof (@AesLoginFacts.aes_send_attempts Toy.runtime Toy.aes_options
                "{}" 1500 st) as Hsend.
  cbv zeta in Hsend. destruct Hsend as (_ & _ & Hretry).
  set (first :=
         (@Aes.ensureSession Toy.runtime Toy.aes_options 1500 ≫= fun _ =>
          @Aes.sendSecurePassthrough Toy.runtime "{}" 1500 ≫= fun response =>
          mret (@JSON_stringify Toy.runtime response)) st).
  set (error := match first.1 with
                | Throw error => error
                | Ok _ => plainError "none"
                end).
  assert (Hfirst : first = (Throw error, first.2))
    by (vm_compute; reflexivity).
  assert (Hretried :
            bool_decide (Aes.extractStatusCode error = Some 403)
            || (bool_decide (is_Some (Aes.extractErrorCode error))
                && bool_decide (default 0 (Aes.extractErrorCode error)
                                ∈ Aes.AES_AUTH_ERROR_CODES)) = true)
    by (vm_compute; reflexivity).
  pose proof (Hretry error first.2 Hfirst Hretried) as Hrun.
  fold run in Hrun. rewrite Hrun. vm_compute. repeat split.
Defined.

Lemma aes_token_needs_session_witness :
  let st :=
    Toy.aes_state
      [ Response (Toy.aes_response "{handshake}");
        Response (Toy.aes_response "{login-granted}");
        Response (Toy.aes_response "{login-granted}") ] in
  let run := @Aes.send Toy.runtime Toy.aes_options "{}" 1500 st in
  run.2.(Aes.token) = Some "tok" /\ is_Some run.2.(Aes.session).
Proof.
  intros st run.
  assert (Htoken : run.2.(Aes.token) = Some "tok")
    by (vm_compute; reflexivity).
  split; [exact Htoken|].
  apply (@AesInvariantFacts.aes_token_needs_session Toy.runtime
           Toy.aes_options "{}" 1500 st).
  fold run. rewrite Htoken. eexists. reflexivity.
Defined.

Lemma redacted_options_hide_secrets_witness :
  let options :=
    JObj [("host", JStr "10.0.0.2");
          ("credentials",
           JObj [("username", JStr "user"); ("password", JStr "pass")]);
          ("credentialsHash", JStr "aGFzaA==")] in
  let redacted := CredentialOptions.redactCredentialOptions options in
  redacted
  = JObj [("host", JStr "10.0.0.2");
          ("credentials",
           JObj [("username", JStr "user");
                 ("password", JStr "[REDACTED]")]);
          ("credentialsHash", JStr "[REDACTED]")]
  /\ assoc_get (CredentialOptions.spread redacted) "host"
     = Some (JStr "10.0.0.2")
  /\ assoc_get
       (CredentialOptions.spread (get_prop redacted "credentials")) "username"
     = Some (JStr "user").
Proof.
  intros options redacted.
  pose proof (CredentialFacts.redacted_options_hide_secrets options) as Hall.
  cbv zeta in Hall. fold redacted in Hall.
  destruct Hall as (_ & _ & _ & Htop & Hinner & _).
  split; [vm_compute; reflexivity|]. split.
  - rewrite (Htop "host") by discriminate. reflexivity.
  - rewrite (Hinner "username") by discriminate. reflexivity.
Defined.


Lemma smart_reboot_and_reset_witness :
  let sysInfo := [("type", JStr "SMART.TAPOPLUG")] in
  let legacy : jsval -> Smart.ChildIds -> option Smart.SendOptions
               -> M Smart.State jsval :=
    fun _ _ _ => throw (plainError "legacy") in
  let st := Toy.smart_state [Ok "{ok}"] in
  (@DeviceInfo.reset Toy.runtime legacy "system" Toy.device sysInfo 5 None
     st).2.(Smart.sent)
  = [(Smart.klap,
      Toy.stringify
        (JObj [("method", JStr "device_reset");
               ("request_time_milis", JNum 5000);
               ("terminal_uuid", JStr "uuid")]))].
Proof.
  intros sysInfo legacy st.
  pose proof (@SmartCommandFacts.smart_reboot_and_reset Toy.runtime legacy
                "system" Toy.device sysInfo 5 None st eq_refl) as Hall.
  cbv zeta in Hall. destruct Hall as (_ & _ & Hreset).
  rewrite Hreset. reflexivity.
Defined.

Lemma mac_separators_vanish_witness :
  DeviceInfo.normalizeMacString "aabbcc:001122"
  = DeviceInfo.normalizeMacString "aabbcc001122".
Proof.
  exact (proj2 (DeviceFacts.mac_separators_vanish "aabbcc" ":" "001122"
                  eq_refl)).
Defined.

End MoreExamples.
